(** * laravel-reductor: the ML core of the test-redundancy detector

    A shallow embedding of the Python sources under [ml/core] and
    [ml/analysis], and the properties their specification states.

    Conventions of the embedding.
    - Python [str] values are [string]s of ASCII characters; the regular
      expression classes [\w], [\s], [\d] and [str.lower] are therefore the
      ASCII ones.
    - Python's [re] module is embedded as a backtracking matcher ([Module Re])
      that reads the pattern text of the source verbatim.
    - Python floats are real numbers and numpy float arrays are lists of
      real numbers ([list R]): arithmetic is exact, there is no rounding, no
      NaN and no infinity.  A property that holds only of this exact
      arithmetic says so.  [Module Float64] embeds the entropy computation a
      second time on IEEE 754 binary64 numbers, where rounding matters.
    - A raised exception is an [Err] result carrying the exception. *)

From Stdlib Require Import PrimFloat Uint63.
From Stdlib Require Import String Ascii List Sorted ZArith QArith Qround Reals Lra Lia Bool.
From stdpp Require Import gmap strings pretty list fin_maps.

Local Open Scope nat_scope.

(** ** Exceptions and results *)

(** The error kinds of the specification, which are Python [ValueError]s
    raised by the code's own guards, the [ValueError] numpy raises on
    operands of the wrong shape, and Python's [TypeError] and
    [ZeroDivisionError]. *)
Inductive exn : Type :=
| InvalidInput (msg : string)
| NotFitted (msg : string)
| NumpyError (msg : string)
| TypeError (msg : string)
| ZeroDivisionError (msg : string).

Inductive result (A : Type) : Type :=
| Ok (a : A)
| Err (e : exn).
Arguments Ok {A} a.
Arguments Err {A} e.

(** The error monad: [x ← c; k] runs [k] unless [c] raised. *)
#[global] Instance result_ret : MRet result := fun A a => Ok a.
#[global] Instance result_bind : MBind result := fun A B f x =>
  match x with
  | Ok a => f a
  | Err e => Err e
  end.

(** ** ASCII text helpers ([str] methods) *)

Module Str.

Definition chars (s : string) : list ascii := list_ascii_of_string s.
Definition of_chars (l : list ascii) : string := string_of_list_ascii l.

Definition code (c : ascii) : nat := nat_of_ascii c.

Definition is_upper (c : ascii) : bool := (65 <=? code c) && (code c <=? 90).
Definition is_lower (c : ascii) : bool := (97 <=? code c) && (code c <=? 122).
Definition is_digit (c : ascii) : bool := (48 <=? code c) && (code c <=? 57).

(** [\w]: letters, digits and the underscore. *)
Definition is_word (c : ascii) : bool :=
  is_upper c || is_lower c || is_digit c || (code c =? 95).

(** [str.isspace] on ASCII: TAB, LF, VT, FF, CR, FS, GS, RS, US and space. *)
Definition is_space (c : ascii) : bool :=
  ((9 <=? code c) && (code c <=? 13)) || ((28 <=? code c) && (code c <=? 32)).

Definition lower_char (c : ascii) : ascii :=
  if is_upper c then ascii_of_nat (code c + 32) else c.
Definition upper_char (c : ascii) : ascii :=
  if is_lower c then ascii_of_nat (code c - 32) else c.

(** [s.lower()] *)
Definition lower (s : string) : string := of_chars (map lower_char (chars s)).

Definition newline : ascii := ascii_of_nat 10.
Definition dquote : ascii := ascii_of_nat 34.

Fixpoint starts_with (p l : list ascii) : bool :=
  match p, l with
  | [], _ => true
  | a :: p', b :: l' => Ascii.eqb a b && starts_with p' l'
  | _ :: _, [] => false
  end.

(** [sub in s] *)
Fixpoint contains_chars (p l : list ascii) : bool :=
  starts_with p l ||
  match l with
  | [] => false
  | _ :: l' => contains_chars p l'
  end.
Definition contains (sub s : string) : bool := contains_chars (chars sub) (chars s).

(** [s.endswith(suffix)] *)
Definition endswith (s suffix : string) : bool :=
  starts_with (rev (chars suffix)) (rev (chars s)).

(** [s[:-n]] for [n > 0] *)
Definition drop_last (n : nat) (s : string) : string :=
  of_chars (firstn (List.length (chars s) - n) (chars s)).

(** [s.split(sep)] for a one-character separator: the pieces between the
    separators, empty pieces included. *)
Fixpoint split_on_chars (sep : ascii) (cur : list ascii) (l : list ascii) : list (list ascii) :=
  match l with
  | [] => [rev cur]
  | c :: l' =>
      if Ascii.eqb c sep then rev cur :: split_on_chars sep [] l'
      else split_on_chars sep (c :: cur) l'
  end.
Definition split_on (sep : ascii) (s : string) : list string :=
  map of_chars (split_on_chars sep [] (chars s)).

(** [s.split()]: the maximal runs of non-whitespace characters. *)
Fixpoint split_ws_chars (cur : list ascii) (l : list ascii) : list (list ascii) :=
  match l with
  | [] => match cur with [] => [] | _ => [rev cur] end
  | c :: l' =>
      if is_space c then
        match cur with
        | [] => split_ws_chars [] l'
        | _ => rev cur :: split_ws_chars [] l'
        end
      else split_ws_chars (c :: cur) l'
  end.
Definition split_ws (s : string) : list string :=
  map of_chars (split_ws_chars [] (chars s)).

(** [x in collection] for strings *)
Definition mem (x : string) (l : list string) : bool :=
  existsb (String.eqb x) l.

End Str.

(** ** Python's [re] module

    Patterns are parsed from their source text into [regex] and matched by
    backtracking with the priorities of Python's engine: alternatives left
    to right, greedy repetition longest first, lazy repetition shortest
    first.  The syntax covered is the one the program uses: literals,
    [.], [$], [\b], the escapes [\w \s \d] and escaped punctuation,
    bracket sets with ranges and negation, capturing and [(?:...)] groups,
    [|], and the quantifiers [* + ? {n} {n,}] with their lazy forms. *)

Module Re.

Import Str.

Inductive set_item : Type :=
| IChar (c : ascii)
| IRange (lo hi : ascii)
| IWord
| IDigit
| ISpace.

Inductive regex : Type :=
| REmpty
| RChar (c : ascii)
| RAny
| RSet (negated : bool) (items : list set_item)
| RSeq (r1 r2 : regex)
| RAlt (r1 r2 : regex)
| RStar (greedy : bool) (r : regex)
| RGroup (n : nat) (r : regex)
| REol
| RWordBoundary
| RNever.

(** The flags the program passes: [re.IGNORECASE], [re.MULTILINE],
    [re.DOTALL]. *)
Record flags : Type := { ignorecase : bool; multiline : bool; dotall : bool }.
Definition no_flags : flags := {| ignorecase := false; multiline := false; dotall := false |}.
Definition IGNORECASE : flags := {| ignorecase := true; multiline := false; dotall := false |}.
Definition MULTILINE : flags := {| ignorecase := false; multiline := true; dotall := false |}.
Definition DOTALL : flags := {| ignorecase := false; multiline := false; dotall := true |}.

(** *** Parsing the pattern text *)

Definition parsed : Type := option (regex * list ascii * nat).

Fixpoint repeat_seq (n : nat) (r : regex) (tail : regex) : regex :=
  match n with
  | O => tail
  | S n' => RSeq r (repeat_seq n' r tail)
  end.

Fixpoint parse_nat (acc : nat) (s : list ascii) : nat * list ascii :=
  match s with
  | c :: s' => if is_digit c then parse_nat (10 * acc + (code c - 48)) s' else (acc, s)
  | [] => (acc, s)
  end.

(** A trailing [?] makes the quantifier lazy. *)
Definition parse_lazy (s : list ascii) : bool * list ascii :=
  match s with
  | "?"%char :: s' => (false, s')
  | _ => (true, s)
  end.

(** The quantifier after an atom, if any. *)
Definition parse_quant (a : regex) (s : list ascii) : option (regex * list ascii) :=
  match s with
  | "*"%char :: s' =>
      let (g, s'') := parse_lazy s' in Some (RStar g a, s'')
  | "+"%char :: s' =>
      let (g, s'') := parse_lazy s' in Some (RSeq a (RStar g a), s'')
  | "?"%char :: s' =>
      let (g, s'') := parse_lazy s' in
      Some (if g then RAlt a REmpty else RAlt REmpty a, s'')
  | "{"%char :: s' =>
      match s' with
      | c :: _ =>
          if is_digit c then
            let (n, s1) := parse_nat 0 s' in
            match s1 with
            | "}"%char :: s2 => Some (repeat_seq n a REmpty, s2)
            | ","%char :: "}"%char :: s2 =>
                let (g, s3) := parse_lazy s2 in
                Some (repeat_seq n a (RStar g a), s3)
            | _ => None
            end
          else None
      | [] => None
      end
  | _ => Some (a, s)
  end.

(** An escape [\c] outside a set. *)
Definition parse_escape (c : ascii) : option regex :=
  if Ascii.eqb c "w" then Some (RSet false [IWord])
  else if Ascii.eqb c "d" then Some (RSet false [IDigit])
  else if Ascii.eqb c "s" then Some (RSet false [ISpace])
  else if Ascii.eqb c "b" then Some RWordBoundary
  else if is_word c then None
  else Some (RChar c).

(** The items of a bracket set up to the closing bracket. *)
Fixpoint parse_set_items (fuel : nat) (s : list ascii) (acc : list set_item)
  : option (list set_item * list ascii) :=
  match fuel with
  | O => None
  | S fuel' =>
      match s with
      | [] => None
      | "]"%char :: s' => Some (rev acc, s')
      | "\"%char :: c :: s' =>
          if Ascii.eqb c "w" then parse_set_items fuel' s' (IWord :: acc)
          else if Ascii.eqb c "d" then parse_set_items fuel' s' (IDigit :: acc)
          else if Ascii.eqb c "s" then parse_set_items fuel' s' (ISpace :: acc)
          else if is_word c then None
          else parse_set_items fuel' s' (IChar c :: acc)
      | lo :: "-"%char :: hi :: s' =>
          if Ascii.eqb hi "]" then parse_set_items fuel' ("-"%char :: hi :: s') (IChar lo :: acc)
          else if Ascii.eqb hi "\" then None
          else parse_set_items fuel' s' (IRange lo hi :: acc)
      | c :: s' => parse_set_items fuel' s' (IChar c :: acc)
      end
  end.

Definition parse_set (s : list ascii) : option (regex * list ascii) :=
  let (neg, s1) := match s with
                   | "^"%char :: s' => (true, s')
                   | _ => (false, s)
                   end in
  match s1 with
  | "]"%char :: _ => None
  | _ =>
      match parse_set_items (S (List.length s1)) s1 [] with
      | Some (items, rest) => Some (RSet neg items, rest)
      | None => None
      end
  end.

(** [g] is the number of capturing groups opened so far: groups are
    numbered by their opening parenthesis. *)
Fixpoint parse_alt (fuel : nat) (s : list ascii) (g : nat) {struct fuel} : parsed :=
  match fuel with
  | O => None
  | S fuel' =>
      match parse_seq fuel' s g with
      | Some (r1, "|"%char :: s', g') =>
          match parse_alt fuel' s' g' with
          | Some (r2, s'', g'') => Some (RAlt r1 r2, s'', g'')
          | None => None
          end
      | other => other
      end
  end
with parse_seq (fuel : nat) (s : list ascii) (g : nat) {struct fuel} : parsed :=
  match fuel with
  | O => None
  | S fuel' =>
      match s with
      | [] => Some (REmpty, s, g)
      | "|"%char :: _ => Some (REmpty, s, g)
      | ")"%char :: _ => Some (REmpty, s, g)
      | _ =>
          match parse_atom fuel' s g with
          | Some (a, s1, g1) =>
              match parse_quant a s1 with
              | Some (q, s2) =>
                  match parse_seq fuel' s2 g1 with
                  | Some (REmpty, s3, g3) => Some (q, s3, g3)
                  | Some (r, s3, g3) => Some (RSeq q r, s3, g3)
                  | None => None
                  end
              | None => None
              end
          | None => None
          end
      end
  end
with parse_atom (fuel : nat) (s : list ascii) (g : nat) {struct fuel} : parsed :=
  match fuel with
  | O => None
  | S fuel' =>
      match s with
      | [] => None
      | "("%char :: "?"%char :: ":"%char :: s' =>
          match parse_alt fuel' s' g with
          | Some (r, ")"%char :: s'', g') => Some (r, s'', g')
          | _ => None
          end
      | "("%char :: "?"%char :: _ => None
      | "("%char :: s' =>
          match parse_alt fuel' s' (S g) with
          | Some (r, ")"%char :: s'', g') => Some (RGroup (S g) r, s'', g')
          | _ => None
          end
      | "["%char :: s' =>
          match parse_set s' with
          | Some (r, s'') => Some (r, s'', g)
          | None => None
          end
      | "\"%char :: c :: s' =>
          match parse_escape c with
          | Some r => Some (r, s', g)
          | None => None
          end
      | "."%char :: s' => Some (RAny, s', g)
      | "$"%char :: s' => Some (REol, s', g)
      | c :: s' =>
          if existsb (Ascii.eqb c) ["*"; "+"; "?"; "{"; "}"; "^"; "\"; "]"]%char then None
          else Some (RChar c, s', g)
      end
  end.

(** A compiled pattern: its expression and its number of groups. *)
Record pattern : Type := { expr : regex; groups : nat }.

Definition parse (p : string) : option pattern :=
  match parse_alt (3 * S (String.length p)) (chars p) 0 with
  | Some (r, [], g) => Some {| expr := r; groups := g |}
  | _ => None
  end.

(** *** Matching *)

(** The matcher's position: the offset, the character before it (for
    [\b]) and the text still to read. *)
Record cursor : Type := { pos : nat; before : option ascii; ahead : list ascii }.

Definition start_of (l : list ascii) : cursor :=
  {| pos := 0; before := None; ahead := l |}.

Definition step (c : ascii) (tl : list ascii) (cu : cursor) : cursor :=
  {| pos := S (pos cu); before := Some c; ahead := tl |}.

(** Group number to captured text, latest capture first. *)
Definition captures : Type := list (nat * list ascii).

Definition item_has (i : set_item) (c : ascii) : bool :=
  match i with
  | IChar a => Ascii.eqb a c
  | IRange lo hi => (code lo <=? code c) && (code c <=? code hi)
  | IWord => is_word c
  | IDigit => is_digit c
  | ISpace => is_space c
  end.

Definition char_matches (fl : flags) (a c : ascii) : bool :=
  if ignorecase fl then Ascii.eqb (lower_char a) (lower_char c) else Ascii.eqb a c.

Definition set_matches (fl : flags) (negated : bool) (items : list set_item) (c : ascii) : bool :=
  let has x := existsb (fun i => item_has i x) items in
  let found := if ignorecase fl then has c || has (lower_char c) || has (upper_char c) else has c in
  if negated then negb found else found.

Definition any_matches (fl : flags) (c : ascii) : bool :=
  dotall fl || negb (Ascii.eqb c newline).

(** [$]: the end of the text or just before its final newline; with
    [re.MULTILINE] also before every newline. *)
Definition at_eol (fl : flags) (cu : cursor) : bool :=
  match ahead cu with
  | [] => true
  | c :: tl => Ascii.eqb c newline && (multiline fl || match tl with [] => true | _ => false end)
  end.

Definition word_before (cu : cursor) : bool :=
  match before cu with Some c => is_word c | None => false end.
Definition word_ahead (cu : cursor) : bool :=
  match ahead cu with c :: _ => is_word c | [] => false end.
Definition at_word_boundary (cu : cursor) : bool :=
  xorb (word_before cu) (word_ahead cu).

Definition one_char {A : Type} (ok : ascii -> bool) (cu : cursor) (cs : captures)
    (k : cursor -> captures -> option A) : option A :=
  match ahead cu with
  | c :: tl => if ok c then k (step c tl cu) cs else None
  | [] => None
  end.

Definition or_else {A : Type} (x : option A) (y : unit -> option A) : option A :=
  match x with
  | Some a => Some a
  | None => y tt
  end.

(** [rmatch fl r cu cs k]: match [r] at [cu], then continue with [k]; the
    first way that makes [k] succeed wins.  A repetition runs its body at
    most once per remaining character, and an iteration that reads nothing
    is not repeated. *)
Fixpoint rmatch {A : Type} (fl : flags) (r : regex) (cu : cursor) (cs : captures)
    (k : cursor -> captures -> option A) {struct r} : option A :=
  match r with
  | REmpty => k cu cs
  | RNever => None
  | RChar a => one_char (char_matches fl a) cu cs k
  | RAny => one_char (any_matches fl) cu cs k
  | RSet negated items => one_char (set_matches fl negated items) cu cs k
  | RSeq r1 r2 => rmatch fl r1 cu cs (fun cu' cs' => rmatch fl r2 cu' cs' k)
  | RAlt r1 r2 => or_else (rmatch fl r1 cu cs k) (fun _ => rmatch fl r2 cu cs k)
  | RGroup n r1 =>
      rmatch fl r1 cu cs
        (fun cu' cs' => k cu' ((n, firstn (pos cu' - pos cu) (ahead cu)) :: cs'))
  | REol => if at_eol fl cu then k cu cs else None
  | RWordBoundary => if at_word_boundary cu then k cu cs else None
  | RStar greedy r1 =>
      (fix loop (fuel : nat) (cu : cursor) (cs : captures) {struct fuel} : option A :=
         match fuel with
         | O => k cu cs
         | S fuel' =>
             let again (_ : unit) :=
               rmatch fl r1 cu cs
                 (fun cu' cs' => if pos cu <? pos cu' then loop fuel' cu' cs' else None) in
             if greedy then or_else (again tt) (fun _ => k cu cs)
             else or_else (k cu cs) again
         end) (List.length (ahead cu)) cu cs
  end.

(** A match object: its span, its groups and the cursor after it. *)
Record rmatch_obj : Type :=
  { m_start : nat; m_end : nat; m_text : list ascii; m_caps : captures; m_after : cursor }.

Definition match_at (fl : flags) (p : pattern) (cu : cursor) : option rmatch_obj :=
  rmatch fl (expr p) cu []
    (fun cu' cs => Some {| m_start := pos cu; m_end := pos cu';
                           m_text := firstn (pos cu' - pos cu) (ahead cu);
                           m_caps := cs; m_after := cu' |}).

(** The leftmost match at or after the cursor. *)
Fixpoint search_at (fl : flags) (p : pattern) (n : nat) (b : option ascii) (l : list ascii)
  : option rmatch_obj :=
  match match_at fl p {| pos := n; before := b; ahead := l |} with
  | Some m => Some m
  | None =>
      match l with
      | [] => None
      | c :: tl => search_at fl p (S n) (Some c) tl
      end
  end.

Definition search_from (fl : flags) (p : pattern) (cu : cursor) : option rmatch_obj :=
  search_at fl p (pos cu) (before cu) (ahead cu).

(** [m.group(n)]: [None] when the group took no part in the match. *)
Definition group (m : rmatch_obj) (n : nat) : option string :=
  match n with
  | O => Some (of_chars (m_text m))
  | _ =>
      match find (fun e => fst e =? n) (m_caps m) with
      | Some (_, t) => Some (of_chars t)
      | None => None
      end
  end.

(** [re.search(pattern, s, flags)] *)
Definition search (fl : flags) (p : pattern) (s : string) : option rmatch_obj :=
  search_from fl p (start_of (chars s)).

(** [re.match(pattern, s, flags)] *)
Definition match_ (fl : flags) (p : pattern) (s : string) : option rmatch_obj :=
  match_at fl p (start_of (chars s)).

(** All non-overlapping matches, left to right, each with the unmatched
    text before it, and the unmatched text after the last one.  [pending]
    is unmatched text already passed; after an empty match the scan moves
    on by one character. *)
Fixpoint scan (fuel : nat) (fl : flags) (p : pattern) (pending : list ascii) (cu : cursor)
  : list (list ascii * rmatch_obj) * list ascii :=
  match fuel with
  | O => ([], pending ++ ahead cu)
  | S fuel' =>
      match search_from fl p cu with
      | None => ([], pending ++ ahead cu)
      | Some m =>
          let gap := pending ++ firstn (m_start m - pos cu) (ahead cu) in
          let (ms, tail) :=
            if m_start m <? m_end m then scan fuel' fl p [] (m_after m)
            else
              match ahead (m_after m) with
              | [] => ([], [])
              | c :: tl => scan fuel' fl p [c] (step c tl (m_after m))
              end in
          ((gap, m) :: ms, tail)
      end
  end.

Definition scan_all (fl : flags) (p : pattern) (s : string)
  : list (list ascii * rmatch_obj) * list ascii :=
  scan (S (String.length s)) fl p [] (start_of (chars s)).

(** [re.findall(pattern, s, flags)] for a pattern with at most one group:
    the text of group 1 if there is one (empty when it took no part),
    else the whole match. *)
Definition findall (fl : flags) (p : pattern) (s : string) : list string :=
  map (fun gm : list ascii * rmatch_obj =>
         let m := snd gm in
         match groups p with
         | O => of_chars (m_text m)
         | _ => match group m 1 with Some t => t | None => EmptyString end
         end)
      (fst (scan_all fl p s)).

(** A replacement template: literal text and group references [\1]..[\9]. *)
Fixpoint expand (template : list ascii) (m : rmatch_obj) : list ascii :=
  match template with
  | [] => []
  | "\"%char :: d :: tl =>
      if is_digit d then
        match group m (code d - 48) with
        | Some t => chars t ++ expand tl m
        | None => expand tl m
        end
      else "\"%char :: d :: expand tl m
  | c :: tl => c :: expand tl m
  end.

(** [re.sub(pattern, repl, s, flags)] *)
Definition sub (fl : flags) (p : pattern) (repl : string) (s : string) : string :=
  let (ms, tail) := scan_all fl p s in
  of_chars (flat_map (fun gm : list ascii * rmatch_obj => fst gm ++ expand (chars repl) (snd gm)) ms
            ++ tail).

(** [re.split(pattern, s)] for a pattern without groups. *)
Definition split (fl : flags) (p : pattern) (s : string) : list string :=
  let (ms, tail) := scan_all fl p s in
  map (fun gm : list ascii * rmatch_obj => of_chars (fst gm)) ms ++ [of_chars tail].

(** [re.compile]. Every pattern of the program parses (see
    [program_patterns_parse]); outside the covered syntax the result is the
    pattern that matches nothing. *)
Definition compile (p : string) : pattern :=
  match parse p with
  | Some c => c
  | None => {| expr := RNever; groups := 0 |}
  end.

End Re.

(** ** ml/core/tokenizer.py *)

Module Tokenizer.

Import Str.
Local Open Scope string_scope.

(** [PHPTokenizer.__init__]: the stop words. *)
Definition stop_words : list string :=
  [ "the"; "and"; "or"; "but"; "in"; "on"; "at"; "to"; "for";
    "of"; "with"; "a"; "an"; "is"; "it"; "this"; "that"; "these";
    "those"; "are"; "was"; "were"; "been"; "be"; "have"; "has";
    "had"; "do"; "does"; "did"; "will"; "would"; "should"; "could";
    "can"; "may"; "might"; "must"; "shall"; "as"; "if"; "when";
    "where"; "why"; "how"; "what"; "which"; "who"; "whom"; "whose" ].

(** The string-literal pattern of [_extract_tokens]: a quote character
    (double or single), a group of three or more characters that are not
    quotes, and a quote character.  [dq] is the double quote. *)
Definition string_literal_pattern : string :=
  let dq := String dquote EmptyString in
  "[" +:+ dq +:+ "\']([^" +:+ dq +:+ "\']{3,})[" +:+ dq +:+ "\']".

(** [PHPTokenizer._remove_comments] *)
Definition _remove_comments (text : string) : string :=
  let text := Re.sub Re.MULTILINE (Re.compile "//.*?$") "" text in
  let text := Re.sub Re.DOTALL (Re.compile "/\*.*?\*/") "" text in
  let text := Re.sub Re.MULTILINE (Re.compile "#.*?$") "" text in
  text.

(** The loop body of [_extract_tokens]: a token, its camelCase pieces and
    its snake_case pieces. *)
Definition split_token (token : string) : list string :=
  let camel_split := split_ws (Re.sub Re.no_flags (Re.compile "([a-z])([A-Z])") "\1 \2" token) in
  let snake_split := split_on "_" token in
  ([token] ++ camel_split ++ snake_split)%list.

(** [PHPTokenizer._extract_tokens] *)
Definition _extract_tokens (text : string) : list string :=
  let function_names := Re.findall Re.no_flags (Re.compile "function\s+(\w+)") text in
  let class_names := Re.findall Re.no_flags (Re.compile "class\s+(\w+)") text in
  let class_names :=
    List.filter (fun name =>
              match Re.match_ Re.no_flags (Re.compile ".*Test(Case|Duplicate)?$") name with
              | Some _ => false
              | None => true
              end) class_names in
  let method_calls := Re.findall Re.no_flags (Re.compile "->(\w+)\s*\(") text in
  let assertions := Re.findall Re.IGNORECASE (Re.compile "assert\w*") text in
  let test_keywords :=
    Re.findall Re.IGNORECASE
      (Re.compile "\b(test|expect|mock|stub|spy|fake|fixture|teardown|setup)\w*\b") text in
  let variables := Re.findall Re.no_flags (Re.compile "\$([a-zA-Z_]\w{2,})") text in
  let strings := Re.findall Re.no_flags (Re.compile string_literal_pattern) text in
  let all_tokens :=
    (function_names ++ class_names ++ method_calls ++ assertions ++
     test_keywords ++ variables ++ strings)%list in
  let processed_tokens := flat_map split_token all_tokens in
  List.filter (fun t : string => (1 <? String.length t)%nat) processed_tokens.

(** [PHPTokenizer.tokenize] *)
Definition tokenize (text : string) (lowercase : bool) : list string :=
  let text := _remove_comments text in
  let tokens := _extract_tokens text in
  let tokens := if lowercase then map lower tokens else tokens in
  let tokens := List.filter (fun token => negb (mem token stop_words)) tokens in
  tokens.

(** The [patterns] of [extract_test_name], in the order they are tried. *)
Definition patterns : list string :=
  [ "([^/\\]+)(?:Test)?\.php$";
    "::(\w+)$";
    "#(\w+)$";
    "@(\w+)$" ].

(** The first loop of [extract_test_name]: group 1 of the first pattern
    that is found in the path. *)
Fixpoint first_pattern_match (pats : list string) (test_path : string) : option (option string) :=
  match pats with
  | [] => None
  | pattern :: pats' =>
      match Re.search Re.no_flags (Re.compile pattern) test_path with
      | Some m => Some (Re.group m 1)
      | None => first_pattern_match pats' test_path
      end
  end.

(** [extract_test_name]; [None] is Python's [None]. *)
Definition extract_test_name (test_path : string) : option string :=
  match first_pattern_match patterns test_path with
  | Some found => found
  | None =>
      let components := Re.split Re.no_flags (Re.compile "[/\\::#@]") test_path in
      match rev components with
      | last_ :: _ =>
          let last_ := if endswith last_ ".php" then drop_last 4 last_ else last_ in
          if (String.length last_ =? 0)%nat then None else Some last_
      | [] => None
      end
  end.

End Tokenizer.

(** ** ml/analysis/validation.py *)

Module Validation.

Import Str.
Local Open Scope string_scope.

(** [ValidationConfig], with the defaults of the dataclass. *)
Record ValidationConfig : Type :=
  { strict_mode : bool; allow_boundary_merging : bool; min_cluster_size : nat }.

Definition default_config : ValidationConfig :=
  {| strict_mode := true; allow_boundary_merging := false; min_cluster_size := 2 |}.

(** [self.opposition_pairs] *)
Definition opposition_pairs : list (string * string) :=
  [ ("success", "fail|failure|error|exception");
    ("valid", "invalid");
    ("empty", "notempty|not_empty");
    ("null", "notnull|not_null");
    ("true", "false");
    ("found", "notfound|not_found|missing");
    ("exists", "not_exists|doesnt_exist|missing");
    ("authorized", "unauthorized|forbidden");
    ("create|created", "delete|deleted|destroy");
    ("with", "without");
    ("before", "after");
    ("ascending|asc", "descending|desc");
    ("min|minimum", "max|maximum");
    ("first", "last");
    ("single", "multiple|many");
    ("enabled", "disabled");
    ("active", "inactive|expired");
    ("online", "offline");
    ("cached|cache_hit", "uncached|cache_miss");
    ("sync|synchronous", "async|asynchronous") ].

(** The pattern text [\b(...)\b] built around the alternatives of a pair. *)
Definition word_pattern (alternatives : string) : string :=
  "\b(" +:+ alternatives +:+ ")\b".

(** [self.compiled_oppositions]: both patterns of a pair, compiled with
    [re.IGNORECASE]. *)
Definition compiled_oppositions : list (Re.pattern * Re.pattern) :=
  map (fun pn : string * string =>
         (Re.compile (word_pattern (fst pn)), Re.compile (word_pattern (snd pn))))
      opposition_pairs.

(** An intent dictionary: Python's [dict] from flag name to bool, in
    insertion order. *)
Definition intent : Type := list (string * bool).

(** [d[key] = value] *)
Fixpoint dict_set (key : string) (value : bool) (d : intent) : intent :=
  match d with
  | [] => [(key, value)]
  | (k, v) :: d' =>
      if String.eqb k key then (k, value) :: d' else (k, v) :: dict_set key value d'
  end.

(** [d.get(key)] *)
Fixpoint dict_get (key : string) (d : intent) : option bool :=
  match d with
  | [] => None
  | (k, v) :: d' => if String.eqb k key then Some v else dict_get key d'
  end.

(** The truth value of [d.get(key)]. *)
Definition dict_truthy (key : string) (d : intent) : bool :=
  match dict_get key d with
  | Some v => v
  | None => false
  end.

(** [intent[m.group(1)] = value] when the pattern is found. *)
Definition record_match (p : Re.pattern) (value : bool) (normalized : string) (d : intent) : intent :=
  match Re.search Re.IGNORECASE p normalized with
  | Some m =>
      match Re.group m 1 with
      | Some key => dict_set key value d
      | None => d
      end
  | None => d
  end.

(** [assertion_patterns] of [extract_test_intent], in the order of the
    dictionary literal. *)
Definition assertion_patterns : list (string * string) :=
  [ ("throws_exception", "throw|exception|expectexception");
    ("returns_null", "return.*null|null.*return");
    ("returns_empty", "return.*empty|empty.*return");
    ("http_success", "assert(ok|success|200)");
    ("http_error", "assert(error|fail|4\d\d|5\d\d)") ].

(** The body of [extract_test_intent] after the cache lookup. *)
Definition compute_intent (test_name : string) : intent :=
  let normalized := lower test_name in
  let d :=
    fold_left
      (fun (d : intent) (pn : Re.pattern * Re.pattern) =>
         let d := record_match (fst pn) true normalized d in
         record_match (snd pn) false normalized d)
      compiled_oppositions [] in
  fold_left
    (fun (d : intent) (kp : string * string) =>
       match Re.search Re.no_flags (Re.compile (snd kp)) normalized with
       | Some _ => dict_set (fst kp) true d
       | None => d
       end)
    assertion_patterns d.

(** The state of a [SemanticValidator]: its configuration and
    [self._intent_cache]. *)
Record SemanticValidator : Type :=
  { config : ValidationConfig; _intent_cache : gmap string intent }.

(** [SemanticValidator.__init__] *)
Definition init (cfg : option ValidationConfig) : SemanticValidator :=
  {| config := match cfg with Some c => c | None => default_config end;
     _intent_cache := ∅ |}.

(** [SemanticValidator.extract_test_intent]: the cached intent if there is
    one, else the computed intent, which is then cached. *)
Definition extract_test_intent (self : SemanticValidator) (test_name : string)
  : intent * SemanticValidator :=
  match _intent_cache self !! test_name with
  | Some d => (d, self)
  | None =>
      let d := compute_intent test_name in
      (d, {| config := config self;
             _intent_cache := <[test_name := d]> (_intent_cache self) |})
  end.

(** The keys the two dictionaries share on which their values differ; the
    source walks the shared keys as a Python set, whose order is not
    fixed, so the model walks them in the order of the first dictionary. *)
Definition opposing_keys (intent1 intent2 : intent) : list string :=
  flat_map
    (fun kv : string * bool =>
       match dict_get (fst kv) intent2 with
       | Some v2 => if Bool.eqb (snd kv) v2 then [] else [fst kv]
       | None => []
       end)
    intent1.

Definition boundary_terms : list string := ["min"; "max"; "edge"; "boundary"; "limit"].

(** [SemanticValidator.tests_have_opposing_intents] *)
Definition tests_have_opposing_intents (self : SemanticValidator) (test1 test2 : string)
  : (bool * string) * SemanticValidator :=
  let (intent1, self) := extract_test_intent self test1 in
  let (intent2, self) := extract_test_intent self test2 in
  let answer :=
    match opposing_keys intent1 intent2 with
    | key :: _ => (true, "Opposing intents on '" +:+ key +:+ "'")
    | [] =>
        if dict_truthy "throws_exception" intent1 && dict_truthy "http_success" intent2
        then (true, "Exception test vs success test")
        else if dict_truthy "http_error" intent1 && dict_truthy "http_success" intent2
        then (true, "Error assertion vs success assertion")
        else if strict_mode (config self) && negb (allow_boundary_merging (config self))
        then
          let has_boundary1 := existsb (fun term => contains term (lower test1)) boundary_terms in
          let has_boundary2 := existsb (fun term => contains term (lower test2)) boundary_terms in
          if has_boundary1 && has_boundary2 && negb (String.eqb test1 test2)
          then (true, "Different boundary value tests")
          else (false, "")
        else (false, "")
    end in
  (answer, self).

End Validation.

(** ** numpy on one-dimensional float arrays

    The numbers are real numbers: sums, products, quotients, square roots
    and logarithms are exact.  What is proved of bounds and of exact
    values below is proved of this arithmetic; numpy's [float64] results
    can differ from it in the last place. *)

Module Np.

Local Open Scope R_scope.

Definition ndarray : Type := list R.

(** Comparisons of floats, as booleans. *)
Definition Rleb (x y : R) : bool := if Rle_dec x y then true else false.
Definition Rltb (x y : R) : bool := if Rlt_dec x y then true else false.
Definition Reqb (x y : R) : bool := if Req_dec_T x y then true else false.

(** [np.zeros(n)] *)
Definition zeros (n : nat) : ndarray := repeat 0 n.

(** [np.sum(v)] *)
Fixpoint sum (v : ndarray) : R :=
  match v with
  | [] => 0
  | x :: v' => x + sum v'
  end.

Definition shape_error : exn := NumpyError "operands could not be broadcast together".
Definition dot_error : exn := NumpyError "shapes not aligned".

(** A binary ufunc on two one-dimensional arrays: element by element when
    the lengths agree; an array of length one is broadcast along the
    other; any other pair of shapes raises. *)
Definition elementwise (f : R -> R -> R) (a b : ndarray) : result ndarray :=
  if (length a =? length b)%nat then Ok (zip_with f a b)
  else
    match a, b with
    | [x], _ => Ok (map (f x) b)
    | _, [y] => Ok (map (fun x => f x y) a)
    | _, _ => Err shape_error
    end.

(** [np.dot(a, b)] on one-dimensional arrays. *)
Definition dot (a b : ndarray) : result R :=
  if (length a =? length b)%nat then Ok (sum (zip_with Rmult a b))
  else Err dot_error.

(** [np.linalg.norm(v)] *)
Definition norm (v : ndarray) : R := sqrt (sum (map (fun x => x * x) v)).

(** [np.min(v)] and [np.max(v)]; both raise on an empty array. *)
Definition amin (v : ndarray) : result R :=
  match v with
  | [] => Err (NumpyError "zero-size array to reduction operation minimum which has no identity")
  | x :: v' => Ok (fold_left Rmin v' x)
  end.
Definition amax (v : ndarray) : result R :=
  match v with
  | [] => Err (NumpyError "zero-size array to reduction operation maximum which has no identity")
  | x :: v' => Ok (fold_left Rmax v' x)
  end.

(** [np.mean(v)] and [np.std(v)] of a non-empty array. *)
Definition mean (v : ndarray) : R := sum v / INR (length v).
Definition std (v : ndarray) : R :=
  sqrt (mean (map (fun x => (x - mean v) * (x - mean v)) v)).

(** [np.log2(x)] for [x > 0]. *)
Definition log2 (x : R) : R := ln x / ln 2.

(** [int(x)]: truncation towards zero. *)
Definition int (x : R) : Z :=
  if Rle_dec 0 x then Int_part x else (- Int_part (- x))%Z.

(** A two-dimensional array: its shape and its rows. *)
Record matrix : Type := { n_rows : nat; n_cols : nat; rows : list ndarray }.

(** [np.eye(n, m)] *)
Definition eye (n m : nat) : matrix :=
  {| n_rows := n; n_cols := m;
     rows := map (fun i => map (fun j => if (i =? j)%nat then 1 else 0) (seq 0 m)) (seq 0 n) |}.

(** Column [j] of a matrix. *)
Definition column (j : nat) (m : matrix) : ndarray :=
  map (fun row => nth j row 0) (rows m).

(** [a @ b] *)
Definition matmul (a b : matrix) : result matrix :=
  if (n_cols a =? n_rows b)%nat then
    Ok {| n_rows := n_rows a; n_cols := n_cols b;
          rows := map (fun row => map (fun j => sum (zip_with Rmult row (column j b)))
                                      (seq 0 (n_cols b)))
                      (rows a) |}
  else Err (NumpyError "matmul: dimension mismatch").

End Np.

(** ** ml/core/normalization.py *)

Module Normalization.

Import Np.
Local Open Scope R_scope.

(** [1e-12], the default [epsilon]. *)
Definition default_epsilon : R := / 10 ^ 12.

(** [l2_normalize(vector, axis=None, epsilon)] on a one-dimensional array. *)
Definition l2_normalize (vector : ndarray) (epsilon : R) : ndarray :=
  let norm := Np.norm vector in
  let norm := Rmax norm epsilon in
  map (fun x => x / norm) vector.

(** [min_max_normalize(vector, feature_range, axis=None)] on a
    one-dimensional array. *)
Definition min_max_normalize (vector : ndarray) (feature_range : R * R) : result ndarray :=
  min_val ← amin vector;
  max_val ← amax vector;
  let range_val := max_val - min_val in
  let range_val := if Reqb range_val 0 then 1 else range_val in
  let normalized := map (fun x => (x - min_val) / range_val) vector in
  let scale := snd feature_range - fst feature_range in
  let normalized := map (fun x => x * scale + fst feature_range) normalized in
  Ok normalized.

(** [standardize(vector, axis=None, epsilon)] on a one-dimensional array. *)
Definition standardize (vector : ndarray) (epsilon : R) : ndarray :=
  let mean := Np.mean vector in
  let std := Np.std vector in
  let std := Rmax std epsilon in
  map (fun x => (x - mean) / std) vector.

(** [cosine_similarity] *)
Definition cosine_similarity (vector1 vector2 : ndarray) : result R :=
  dot_product ← dot vector1 vector2;
  let norm1 := norm vector1 in
  let norm2 := norm vector2 in
  if Reqb norm1 0 || Reqb norm2 0 then Ok 0
  else Ok (dot_product / (norm1 * norm2)).

(** [euclidean_distance] *)
Definition euclidean_distance (vector1 vector2 : ndarray) : result R :=
  diff ← elementwise Rminus vector1 vector2;
  Ok (norm diff).

(** The dictionary [combined_similarity] returns. *)
Record similarity_scores : Type :=
  { semantic_similarity : R; coverage_similarity : R; combined : R }.

(** [combined_similarity]; the default weights are 0.7 and 0.3. *)
Definition combined_similarity (semantic_vec1 semantic_vec2 coverage_vec1 coverage_vec2 : ndarray)
    (semantic_weight coverage_weight : R) : result similarity_scores :=
  semantic_sim ← cosine_similarity semantic_vec1 semantic_vec2;
  coverage_sim ← cosine_similarity coverage_vec1 coverage_vec2;
  let combined_sim := semantic_weight * semantic_sim + coverage_weight * coverage_sim in
  Ok {| semantic_similarity := semantic_sim;
        coverage_similarity := coverage_sim;
        combined := combined_sim |}.

Definition default_semantic_weight : R := 7 / 10.
Definition default_coverage_weight : R := 3 / 10.

End Normalization.

(** ** ml/analysis/redundancy.py *)

Module Redundancy.

Import Np.
Local Open Scope R_scope.

Inductive RedundancyLevel : Type :=
| NONE
| LOW
| MODERATE
| HIGH
| VERY_HIGH.

(** [level.value] *)
Definition value (l : RedundancyLevel) : string :=
  match l with
  | NONE => "none"
  | LOW => "low_redundancy"
  | MODERATE => "moderate_redundancy"
  | HIGH => "high_redundancy"
  | VERY_HIGH => "very_high_redundancy"
  end.

(** The order none < low < moderate < high < very high. *)
Definition rank (l : RedundancyLevel) : nat :=
  match l with
  | NONE => 0
  | LOW => 1
  | MODERATE => 2
  | HIGH => 3
  | VERY_HIGH => 4
  end.

Record RedundancyThresholds : Type :=
  { low : R; moderate : R; high : R; very_high : R }.

(** The defaults of the dataclass. *)
Definition default_thresholds : RedundancyThresholds :=
  {| low := 15 / 100; moderate := 25 / 100; high := 40 / 100; very_high := 60 / 100 |}.

(** [RedundancyAnalyzer.classify_redundancy]; [a >= b] is [Rleb b a]. *)
Definition classify_redundancy (thresholds : RedundancyThresholds) (similarity_score : R)
  : RedundancyLevel :=
  if Rleb (very_high thresholds) similarity_score then VERY_HIGH
  else if Rleb (high thresholds) similarity_score then HIGH
  else if Rleb (moderate thresholds) similarity_score then MODERATE
  else if Rleb (low thresholds) similarity_score then LOW
  else NONE.

(** The state of a [RedundancyAnalyzer]. *)
Record RedundancyAnalyzer : Type :=
  { thresholds : RedundancyThresholds; semantic_weight : R; coverage_weight : R }.

(** [RedundancyAnalyzer.__init__] with the default weights. *)
Definition init (thresholds : option RedundancyThresholds) : RedundancyAnalyzer :=
  {| thresholds := match thresholds with Some t => t | None => default_thresholds end;
     semantic_weight := 7 / 10; coverage_weight := 3 / 10 |}.

(** The pairs [(l[i], l[j])] with [i < j], in the order of the two nested
    loops. *)
Fixpoint pairs {A : Type} (l : list A) : list (A * A) :=
  match l with
  | [] => []
  | x :: l' => (map (fun y => (x, y)) l' ++ pairs l')%list
  end.

(** The combined similarity of two tests, a missing vector being replaced
    by zeros. *)
Definition pair_similarity (self : RedundancyAnalyzer)
    (semantic_vectors coverage_vectors : gmap string ndarray) (test1 test2 : string) : result R :=
  let sem1 := default (zeros 128) (semantic_vectors !! test1) in
  let sem2 := default (zeros 128) (semantic_vectors !! test2) in
  let cov1 := default (zeros 512) (coverage_vectors !! test1) in
  let cov2 := default (zeros 512) (coverage_vectors !! test2) in
  sim_scores ← Normalization.combined_similarity sem1 sem2 cov1 cov2
                 (semantic_weight self) (coverage_weight self);
  Ok (Normalization.combined sim_scores).

(** An entry of [redundant_pairs]. *)
Record redundant_pair : Type :=
  { test1 : string; test2 : string; similarity : R; level : string }.

(** The loops of [analyze_cluster] over the pairs: the similarities and
    the redundant pairs, in order. *)
Fixpoint analyze_pairs (self : RedundancyAnalyzer)
    (semantic_vectors coverage_vectors : gmap string ndarray) (ps : list (string * string))
  : result (list R * list redundant_pair) :=
  match ps with
  | [] => Ok ([], [])
  | (t1, t2) :: ps' =>
      combined_sim ← pair_similarity self semantic_vectors coverage_vectors t1 t2;
      rest ← analyze_pairs self semantic_vectors coverage_vectors ps';
      let lvl := classify_redundancy (thresholds self) combined_sim in
      let redundant :=
        match lvl with
        | NONE | LOW => snd rest
        | _ => {| test1 := t1; test2 := t2; similarity := combined_sim; level := value lvl |}
               :: snd rest
        end in
      Ok (combined_sim :: fst rest, redundant)
  end.

(** The dictionary [analyze_cluster] returns; [n_redundant_pairs] is
    absent for a cluster of fewer than two tests. *)
Record cluster_analysis : Type :=
  { size : nat; redundancy_level : string; avg_similarity : R;
    redundant_pairs : list redundant_pair; n_redundant_pairs : option nat }.

(** [RedundancyAnalyzer.analyze_cluster] *)
Definition analyze_cluster (self : RedundancyAnalyzer) (test_names : list string)
    (semantic_vectors coverage_vectors : gmap string ndarray) : result cluster_analysis :=
  if (length test_names <? 2)%nat then
    Ok {| size := length test_names; redundancy_level := value NONE; avg_similarity := 0;
          redundant_pairs := []; n_redundant_pairs := None |}
  else
    analysed ← analyze_pairs self semantic_vectors coverage_vectors (pairs test_names);
    let similarities := fst analysed in
    let redundant_pairs := snd analysed in
    let avg_similarity := match similarities with [] => 0 | _ => mean similarities end in
    let cluster_level := classify_redundancy (thresholds self) avg_similarity in
    Ok {| size := length test_names; redundancy_level := value cluster_level;
          avg_similarity := avg_similarity; redundant_pairs := redundant_pairs;
          n_redundant_pairs := Some (length redundant_pairs) |}.

(** The [redundancy_status] of each record [find_redundant_tests] builds
    is the value of a level; [summarize_redundancy] is modelled on the
    levels. *)
Definition count_level (l : RedundancyLevel) (statuses : list RedundancyLevel) : nat :=
  length (List.filter (fun s => (rank s =? rank l)%nat) statuses).

(** The dictionary [summarize_redundancy] returns. *)
Record redundancy_summary : Type :=
  { total_tests : nat; redundant_tests : nat; redundancy_rate : R;
    level_counts : RedundancyLevel -> nat; level_percentages : RedundancyLevel -> R }.

(** [RedundancyAnalyzer.summarize_redundancy], given the statuses of the
    records. *)
Definition summarize_redundancy (statuses : list RedundancyLevel) : redundancy_summary :=
  let total_tests := length statuses in
  let level_counts := fun l => count_level l statuses in
  let level_percentages := fun l =>
    if (0 <? total_tests)%nat then INR (level_counts l) / INR total_tests * 100 else 0 in
  let redundant_count :=
    (level_counts MODERATE + level_counts HIGH + level_counts VERY_HIGH)%nat in
  {| total_tests := total_tests; redundant_tests := redundant_count;
     redundancy_rate :=
       if (0 <? total_tests)%nat then INR redundant_count / INR total_tests * 100 else 0;
     level_counts := level_counts; level_percentages := level_percentages |}.

End Redundancy.

(** ** ml/core/features.py *)

Module Features.

Import Np.
Local Open Scope string_scope.

(** A Python [dict] from test name to vector. *)
Abbreviation vectors := (gmap string ndarray).

Record FeatureCombiner : Type :=
  { semantic_dim : nat; coverage_dim : nat; normalize : bool }.

(** [self.total_dim] *)
Definition total_dim (self : FeatureCombiner) : nat :=
  (semantic_dim self + coverage_dim self)%nat.

(** [FeatureCombiner.__init__] with its defaults. *)
Definition init (normalize : bool) : FeatureCombiner :=
  {| semantic_dim := 128; coverage_dim := 512; normalize := normalize |}.

Definition wrong_dimension (kind name : string) (got expected : nat) : exn :=
  InvalidInput (kind +:+ " vector for " +:+ name +:+ " has wrong dimension: "
                +:+ pretty got +:+ " vs expected " +:+ pretty expected).

(** The loop body of [combine_features]: the combined vector of one test. *)
Definition combine_one (self : FeatureCombiner) (semantic_vectors coverage_vectors : vectors)
    (test_name : string) : result ndarray :=
  let semantic_vec := default (zeros (semantic_dim self)) (semantic_vectors !! test_name) in
  let coverage_vec := default (zeros (coverage_dim self)) (coverage_vectors !! test_name) in
  if negb (length semantic_vec =? semantic_dim self)%nat then
    Err (wrong_dimension "Semantic" test_name (length semantic_vec) (semantic_dim self))
  else if negb (length coverage_vec =? coverage_dim self)%nat then
    Err (wrong_dimension "Coverage" test_name (length coverage_vec) (coverage_dim self))
  else
    let combined := (semantic_vec ++ coverage_vec)%list in
    Ok (if normalize self
        then Normalization.l2_normalize combined Normalization.default_epsilon
        else combined).

(** The loop of [combine_features] over the test names. *)
Fixpoint combine_loop (self : FeatureCombiner) (semantic_vectors coverage_vectors : vectors)
    (tests : list string) (combined_vectors : vectors) : result vectors :=
  match tests with
  | [] => Ok combined_vectors
  | test_name :: tests' =>
      combined ← combine_one self semantic_vectors coverage_vectors test_name;
      combine_loop self semantic_vectors coverage_vectors tests'
        (<[test_name := combined]> combined_vectors)
  end.

(** [FeatureCombiner.combine_features]: the names are walked in the order
    of a Python set, here the order of [elements]. *)
Definition combine_features (self : FeatureCombiner) (semantic_vectors coverage_vectors : vectors)
  : result vectors :=
  let all_tests : gset string := dom semantic_vectors ∪ dom coverage_vectors in
  combine_loop self semantic_vectors coverage_vectors (elements all_tests) ∅.

(** [FeatureCombiner.split_features] *)
Definition split_features (self : FeatureCombiner) (combined_vector : ndarray)
  : result (ndarray * ndarray) :=
  if negb (length combined_vector =? total_dim self)%nat then
    Err (InvalidInput ("Combined vector has wrong dimension: "
                       +:+ pretty (length combined_vector) +:+ " vs expected "
                       +:+ pretty (total_dim self)))
  else
    let semantic_vec := take (semantic_dim self) combined_vector in
    let coverage_vec := drop (semantic_dim self) combined_vector in
    Ok (semantic_vec, coverage_vec).

(** [FeatureCombiner.vectors_to_dict]: a matrix is the list of its rows;
    a later row replaces an earlier one of the same name. *)
Definition vectors_to_dict (matrix : list ndarray) (test_names : list string) : result vectors :=
  if negb (length matrix =? length test_names)%nat then
    Err (InvalidInput ("Matrix rows (" +:+ pretty (length matrix)
                       +:+ ") != number of test names (" +:+ pretty (length test_names) +:+ ")"))
  else
    Ok (fold_left (fun (d : vectors) (nr : string * ndarray) => <[fst nr := snd nr]> d)
                  (zip test_names matrix) ∅).

End Features.

(** ** ml/core/fingerprints.py *)

Module Fingerprints.

Import Np.
Local Open Scope R_scope.

(** [CoverageFingerprintGenerator.estimate_similarity] *)
Definition estimate_similarity (fingerprint1 fingerprint2 : ndarray) : result R :=
  products ← elementwise Rmult fingerprint1 fingerprint2;
  maxima ← elementwise Rmax fingerprint1 fingerprint2;
  let intersection := sum products in
  let union := sum maxima in
  if Reqb union 0 then Ok 0
  else Ok (intersection / union).

Section Generator.

(** The hash of a covered line under the [i]-th hash function:
    [mmh3.hash(line, seed + i, signed=False)], or the SHA-256 digest of
    ["{line}:{seed}:{i}"] read as a number when [mmh3] is not installed. *)
Variable hash_value : string -> nat -> nat -> nat.

Record CoverageFingerprintGenerator : Type :=
  { fingerprint_size : nat; num_hashes : nat; seed : nat }.

(** [hash_value % self.fingerprint_size]: Python raises on a zero size. *)
Definition position_of (self : CoverageFingerprintGenerator) (hash_value : nat) : result nat :=
  if (fingerprint_size self =? 0)%nat
  then Err (ZeroDivisionError "integer modulo by zero")
  else Ok (hash_value mod fingerprint_size self)%nat.

(** The loop of [_get_hash_positions] over the numbers of the hash
    functions. *)
Fixpoint hash_positions (self : CoverageFingerprintGenerator) (line : string) (hashes : list nat)
  : result (list nat) :=
  match hashes with
  | [] => Ok []
  | i :: hashes' =>
      position ← position_of self (hash_value line (seed self) i);
      positions ← hash_positions self line hashes';
      Ok (position :: positions)
  end.

(** [_get_hash_positions] *)
Definition _get_hash_positions (self : CoverageFingerprintGenerator) (line : string)
  : result (list nat) :=
  hash_positions self line (seq 0 (num_hashes self)).

(** [fingerprint[pos] = 1.0] for each position. *)
Definition set_bits (positions : list nat) (fingerprint : ndarray) : ndarray :=
  fold_left (fun (fp : ndarray) (pos : nat) => <[pos := 1]> fp) positions fingerprint.

(** The loop of [generate_fingerprint] over the covered lines, in the
    order they are walked. *)
Fixpoint generate_loop (self : CoverageFingerprintGenerator) (covered_lines : list string)
    (fingerprint : ndarray) : result ndarray :=
  match covered_lines with
  | [] => Ok fingerprint
  | line :: covered_lines' =>
      positions ← _get_hash_positions self line;
      generate_loop self covered_lines' (set_bits positions fingerprint)
  end.

(** [generate_fingerprint] *)
Definition generate_fingerprint (self : CoverageFingerprintGenerator) (covered_lines : list string)
  : result ndarray :=
  generate_loop self covered_lines (zeros (fingerprint_size self)).

(** [get_coverage_density], for a fingerprint size that is not zero. *)
Definition get_coverage_density (self : CoverageFingerprintGenerator) (fingerprint : ndarray) : R :=
  sum fingerprint / INR (fingerprint_size self).

End Generator.

End Fingerprints.

(** ** ml/analysis/entropy.py *)

Module Entropy.

Import Np.
Local Open Scope R_scope.

Record EntropyConfig : Type :=
  { semantic_threshold : R; coverage_threshold : R;
    semantic_weight : R; coverage_weight : R }.

(** The defaults of the dataclass. *)
Definition default_config : EntropyConfig :=
  {| semantic_threshold := 5 / 10; coverage_threshold := 85 / 100;
     semantic_weight := 7 / 10; coverage_weight := 3 / 10 |}.

(** [EntropyAnalyzer.calculate_shannon_entropy], in exact arithmetic
    ([Float64.calculate_shannon_entropy] is the same function on binary64
    numbers). *)
Definition calculate_shannon_entropy (vector : ndarray) (is_binary : bool) : R :=
  if (length vector =? 0)%nat then 0
  else if is_binary then
    let ones := sum vector in
    let zeros := INR (length vector) - ones in
    if Reqb ones 0 || Reqb zeros 0 then 0
    else
      let p_one := ones / INR (length vector) in
      let p_zero := zeros / INR (length vector) in
      let entropy := - p_one * log2 p_one - p_zero * log2 p_zero in
      entropy
  else
    let abs_vector := map Rabs vector in
    if Reqb (sum abs_vector) 0 then 0
    else
      let prob_dist := map (fun x => x / sum abs_vector) abs_vector in
      let prob_dist := List.filter (fun p => Rltb 0 p) prob_dist in
      let entropy := - sum (map (fun p => p * log2 p) prob_dist) in
      let max_entropy := log2 (INR (length vector)) in
      if Rltb 0 max_entropy then entropy / max_entropy else 0.

(** The entries of the dictionary [analyze_vector_quality] returns that
    are numbers or flags. *)
Record quality : Type :=
  { semantic_entropy : R; semantic_quality : R;
    coverage_entropy : R; coverage_quality : R;
    overall_quality : R; is_low_quality : bool }.

(** [EntropyAnalyzer.analyze_vector_quality] *)
Definition analyze_vector_quality (config : EntropyConfig)
    (semantic_vector coverage_vector : ndarray) : quality :=
  let semantic_entropy := calculate_shannon_entropy semantic_vector false in
  let semantic_quality :=
    if Rleb (semantic_threshold config) semantic_entropy then 1
    else semantic_entropy / semantic_threshold config in
  let coverage_entropy := calculate_shannon_entropy coverage_vector true in
  let coverage_quality :=
    if Rleb (coverage_threshold config) coverage_entropy then 1
    else coverage_entropy / coverage_threshold config in
  let overall_quality :=
    semantic_weight config * semantic_quality + coverage_weight config * coverage_quality in
  {| semantic_entropy := semantic_entropy; semantic_quality := semantic_quality;
     coverage_entropy := coverage_entropy; coverage_quality := coverage_quality;
     overall_quality := overall_quality;
     is_low_quality := Rltb overall_quality (5 / 10) |}.

End Entropy.

(** ** ml/core/vectorizers.py *)

Module Vectorizers.

Import Np.
Local Open Scope string_scope.

(** [collections.Counter]: the counts of the keys, in insertion order. *)
Definition Counter : Type := list (string * nat).

(** [c[key] += 1] *)
Fixpoint incr (key : string) (c : Counter) : Counter :=
  match c with
  | [] => [(key, 1%nat)]
  | (k, n) :: c' => if String.eqb k key then (k, S n) :: c' else (k, n) :: incr key c'
  end.

(** [c[key]]: zero for a missing key. *)
Fixpoint count (key : string) (c : Counter) : nat :=
  match c with
  | [] => 0%nat
  | (k, n) :: c' => if String.eqb k key then n else count key c'
  end.

(** [Counter(tokens)] *)
Definition count_tokens (tokens : list string) : Counter :=
  fold_left (fun c token => incr token c) tokens [].

(** The elements of [set(tokens)].  Python walks a set in an order of its
    own; the model walks it in the order of first occurrence. *)
Definition unique (tokens : list string) : list string :=
  map fst (count_tokens tokens).

(** [sorted(l, key=..., reverse=True)]: a stable sort, larger keys first. *)
Fixpoint insert_desc (key : string -> nat) (x : string) (l : list string) : list string :=
  match l with
  | [] => [x]
  | y :: l' => if (key y <? key x)%nat then x :: y :: l' else y :: insert_desc key x l'
  end.
Definition sorted_desc (key : string -> nat) (l : list string) : list string :=
  fold_left (fun acc x => insert_desc key x acc) l [].

(** [sorted(l)] on strings. *)
Fixpoint insert_sorted (x : string) (l : list string) : list string :=
  match l with
  | [] => [x]
  | y :: l' => if String.leb x y then x :: y :: l' else y :: insert_sorted x l'
  end.
Definition sorted (l : list string) : list string :=
  fold_right insert_sorted [] l.

(** [enumerate(l)] *)
Definition enumerate {A : Type} (l : list A) : list (nat * A) :=
  combine (seq 0 (length l)) l.

(** [self.vocabulary_]: token to column index. *)
Definition vocabulary : Type := list (string * nat).

Fixpoint vocabulary_get (token : string) (v : vocabulary) : option nat :=
  match v with
  | [] => None
  | (t, idx) :: v' => if String.eqb t token then Some idx else vocabulary_get token v'
  end.

Record TFIDFVectorizer : Type :=
  { max_features : nat; min_df : R; max_df : R; use_idf : bool; sublinear_tf : bool;
    vocabulary_ : option vocabulary; idf_ : option ndarray; document_count_ : nat }.

(** [TFIDFVectorizer.__init__] *)
Definition init (max_features : nat) (min_df max_df : R) (use_idf sublinear_tf : bool)
  : TFIDFVectorizer :=
  {| max_features := max_features; min_df := min_df; max_df := max_df;
     use_idf := use_idf; sublinear_tf := sublinear_tf;
     vocabulary_ := None; idf_ := None; document_count_ := 0 |}.

(** [self.tokenizer.tokenize(doc)] *)
Definition tokenize (doc : string) : list string := Tokenizer.tokenize doc true.

(** The document frequencies [fit] counts. *)
Definition document_frequencies (tokenized_docs : list (list string)) : Counter :=
  fold_left
    (fun doc_freq tokens => fold_left (fun c token => incr token c) (unique tokens) doc_freq)
    tokenized_docs [].

(** [TFIDFVectorizer.fit] *)
Definition fit (self : TFIDFVectorizer) (documents : list string) : TFIDFVectorizer :=
  let document_count_ := length documents in
  let tokenized_docs := map tokenize documents in
  let doc_freq := document_frequencies tokenized_docs in
  let min_count := int (min_df self * INR document_count_) in
  let max_count := int (max_df self * INR document_count_) in
  let filtered_tokens :=
    map fst
      (List.filter
         (fun tc : string * nat =>
            (min_count <=? Z.of_nat (snd tc))%Z && (Z.of_nat (snd tc) <=? max_count)%Z)
         doc_freq) in
  let filtered_tokens :=
    if (max_features self <? length filtered_tokens)%nat
    then take (max_features self) (sorted_desc (fun x => count x doc_freq) filtered_tokens)
    else filtered_tokens in
  let vocabulary_ := map (fun it : nat * string => (snd it, fst it)) (enumerate (sorted filtered_tokens)) in
  let idf_ :=
    if use_idf self
    then Some (map (fun ti : string * nat =>
                      (ln (INR document_count_ / INR (count (fst ti) doc_freq)) + 1)%R)
                   vocabulary_)
    else idf_ self in
  {| max_features := max_features self; min_df := min_df self; max_df := max_df self;
     use_idf := use_idf self; sublinear_tf := sublinear_tf self;
     vocabulary_ := Some vocabulary_; idf_ := idf_; document_count_ := document_count_ |}.

Definition tfidf_not_fitted : exn :=
  NotFitted "TF-IDF vectorizer not fitted. Call fit() method before transform() or use fit_transform() instead.".

(** The entries of one row of the matrix [transform] builds: for each
    counted token of the vocabulary, its column and its value. *)
Fixpoint row_entries (self : TFIDFVectorizer) (voc : vocabulary) (tf_dict : Counter)
  : result (list (nat * R)) :=
  match tf_dict with
  | [] => Ok []
  | (token, n) :: tf_dict' =>
      match vocabulary_get token voc with
      | Some feature_idx =>
          let tf := if sublinear_tf self then (1 + ln (INR n))%R else INR n in
          value ← (if use_idf self then
                     match idf_ self with
                     | Some idf =>
                         match idf !! feature_idx with
                         | Some w => Ok (tf * w)%R
                         | None => Err (NumpyError "index out of bounds")
                         end
                     | None => Err (TypeError "'NoneType' object is not subscriptable")
                     end
                   else Ok tf);
          entries ← row_entries self voc tf_dict';
          Ok ((feature_idx, value) :: entries)
      | None => row_entries self voc tf_dict'
      end
  end.

(** A row of [n_features] zeros with the entries written in. *)
Definition dense_row (n_features : nat) (entries : list (nat * R)) : ndarray :=
  fold_left (fun (row : ndarray) (e : nat * R) => <[fst e := snd e]> row) entries (zeros n_features).

Fixpoint transform_rows (self : TFIDFVectorizer) (voc : vocabulary) (documents : list string)
  : result (list ndarray) :=
  match documents with
  | [] => Ok []
  | doc :: documents' =>
      entries ← row_entries self voc (count_tokens (tokenize doc));
      rest ← transform_rows self voc documents';
      Ok (dense_row (length voc) entries :: rest)
  end.

(** [TFIDFVectorizer.transform]; the sparse matrix is given by its rows. *)
Definition transform (self : TFIDFVectorizer) (documents : list string) : result matrix :=
  match vocabulary_ self with
  | None => Err tfidf_not_fitted
  | Some voc =>
      rows ← transform_rows self voc documents;
      Ok {| n_rows := length documents; n_cols := length voc; rows := rows |}
  end.

(** [TFIDFVectorizer.fit_transform] *)
Definition fit_transform (self : TFIDFVectorizer) (documents : list string)
  : TFIDFVectorizer * result matrix :=
  let self := fit self documents in
  (self, transform self documents).

(** [TFIDFVectorizer.get_feature_names]: the tokens by column index. *)
Definition get_feature_names (self : TFIDFVectorizer) : result (list string) :=
  match vocabulary_ self with
  | None => Err (NotFitted "Vectorizer not fitted.")
  | Some voc =>
      Ok (fold_left (fun (features : list string) (ti : string * nat) => <[snd ti := fst ti]> features)
                    voc (repeat "" (length voc)))
  end.

Section Semantic.

(** [np.random.RandomState(42).randn(n, m)] *)
Variable randn : nat -> nat -> matrix.

(** The content of the output of [np.divide] at row [i], column [j] where
    its [where] mask is false: memory that was never written. *)
Variable uninitialized : nat -> nat -> R.

Record SemanticVectorizer : Type :=
  { output_dim : nat; sv_max_features : nat;
    tfidf_vectorizer : TFIDFVectorizer; projection_matrix_ : option matrix }.

(** [SemanticVectorizer.__init__] *)
Definition sv_init (output_dim max_features : nat) : SemanticVectorizer :=
  {| output_dim := output_dim; sv_max_features := max_features;
     tfidf_vectorizer := init max_features (1 / 100) (95 / 100) true true;
     projection_matrix_ := None |}.

(** [m /= np.linalg.norm(m, axis=0, keepdims=True)]: every column divided
    by its norm. *)
Definition normalize_columns (m : matrix) : matrix :=
  {| n_rows := n_rows m; n_cols := n_cols m;
     rows := map (fun row => map (fun jx : nat * R => (snd jx / norm (column (fst jx) m))%R)
                                 (enumerate row))
                 (rows m) |}.

(** [SemanticVectorizer.fit]; [test_sources] is the dictionary in
    insertion order. *)
Definition sv_fit (self : SemanticVectorizer) (test_sources : list (string * string))
  : result SemanticVectorizer :=
  let documents := map snd test_sources in
  let (tfidf, transformed) := fit_transform (tfidf_vectorizer self) documents in
  tfidf_matrix ← transformed;
  let n_features := n_cols tfidf_matrix in
  let projection :=
    if (output_dim self <? n_features)%nat
    then normalize_columns (randn n_features (output_dim self))
    else eye n_features (output_dim self) in
  Ok {| output_dim := output_dim self; sv_max_features := sv_max_features self;
        tfidf_vectorizer := tfidf; projection_matrix_ := Some projection |}.

Definition semantic_not_fitted : exn :=
  NotFitted "Semantic vectorizer not fitted. The projection matrix is not initialized. Call fit() method before transform() or use fit_transform() instead.".

(** [np.divide(vectors, norms, where=norms != 0)] *)
Definition normalize_rows (vectors : matrix) : matrix :=
  {| n_rows := n_rows vectors; n_cols := n_cols vectors;
     rows := map (fun ir : nat * ndarray =>
                    let norm := Np.norm (snd ir) in
                    if Reqb norm 0
                    then map (fun j => uninitialized (fst ir) j) (seq 0 (length (snd ir)))
                    else map (fun x => (x / norm)%R) (snd ir))
                 (enumerate (rows vectors)) |}.

(** [SemanticVectorizer.transform]; the result dictionary in insertion
    order, a later entry replacing an earlier one of the same name. *)
Definition sv_transform (self : SemanticVectorizer) (test_sources : list (string * string))
  : result (gmap string ndarray) :=
  match projection_matrix_ self with
  | None => Err semantic_not_fitted
  | Some projection =>
      let test_names := map fst test_sources in
      let documents := map snd test_sources in
      tfidf_matrix ← transform (tfidf_vectorizer self) documents;
      vectors ← matmul tfidf_matrix projection;
      let vectors := normalize_rows vectors in
      Ok (fold_left (fun (d : gmap string ndarray) (nr : string * ndarray) => <[fst nr := snd nr]> d)
                    (zip test_names (rows vectors)) ∅)
  end.

(** [SemanticVectorizer.fit_transform] *)
Definition sv_fit_transform (self : SemanticVectorizer) (test_sources : list (string * string))
  : result (SemanticVectorizer * gmap string ndarray) :=
  self ← sv_fit self test_sources;
  vectors ← sv_transform self test_sources;
  Ok (self, vectors).

End Semantic.

End Vectorizers.

(** ** ml/core/features.py: the matrix conversions *)

Module FeatureMatrix.

Import Np.
Local Open Scope string_scope.

(** [np.vstack(rows)] on one-dimensional arrays: raises on an empty list
    and on rows of different lengths. *)
Definition vstack (rows : list ndarray) : result (list ndarray) :=
  match rows with
  | [] => Err (NumpyError "need at least one array to concatenate")
  | row :: rows' =>
      if forallb (fun r => (length r =? length row)%nat) rows' then Ok rows
      else Err (NumpyError "all the input array dimensions except for the concatenation axis must match exactly")
  end.

(** [FeatureCombiner.prepare_matrix]; [test_order] is [None] or a list of
    names.  The default order is the sorted list of the keys. *)
Definition prepare_matrix (vectors : gmap string ndarray) (test_order : option (list string))
  : result (list ndarray * list string) :=
  let test_order :=
    match test_order with
    | None => Vectorizers.sorted (elements (dom vectors))
    | Some order => order
    end in
  let missing_tests :=
    List.filter (fun test => match vectors !! test with Some _ => false | None => true end)
                test_order in
  match missing_tests with
  | _ :: _ => Err (InvalidInput "Missing vectors for tests")
  | [] =>
      matrix ← vstack (map (fun test => default [] (vectors !! test)) test_order);
      Ok (matrix, test_order)
  end.

End FeatureMatrix.

(** ** ml/analysis/entropy.py on binary64 numbers

    [calculate_shannon_entropy] once more, on numpy's [float64]: every
    operation rounds as IEEE 754 prescribes.  [np.log2] is a parameter. *)

Module Float64.

Local Open Scope float_scope.

Definition ndarray : Type := list float.

(** The [float64] of a length. *)
Definition of_int (n : nat) : float := PrimFloat.of_uint63 (Uint63.of_Z (Z.of_nat n)).

(** [np.sum] adds the numbers of a contiguous array pairwise: fewer than
    eight one after the other; up to 128 in eight running sums, which are
    added in pairs before the numbers left over are added one by one; more
    than 128 in two halves, the first a multiple of eight long. *)
Fixpoint add_blocks (fuel : nat) (r : list float) (a : ndarray) : list float * ndarray :=
  match fuel with
  | O => (r, a)
  | S fuel' =>
      if (8 <=? length a)%nat
      then add_blocks fuel' (zip_with PrimFloat.add r (take 8 a)) (drop 8 a)
      else (r, a)
  end.

Definition add_pairs (r : list float) : float :=
  match r with
  | [r0; r1; r2; r3; r4; r5; r6; r7] => ((r0 + r1) + (r2 + r3)) + ((r4 + r5) + (r6 + r7))
  | _ => fold_left PrimFloat.add r 0
  end.

Fixpoint pairwise_sum (fuel : nat) (a : ndarray) : float :=
  let n := length a in
  if (n <? 8)%nat then fold_left PrimFloat.add a 0
  else if (n <=? 128)%nat then
    let (r, rest) := add_blocks n (take 8 a) (drop 8 a) in
    fold_left PrimFloat.add rest (add_pairs r)
  else
    match fuel with
    | O => 0
    | S fuel' =>
        let n2 := (n / 2)%nat in
        let n2 := (n2 - n2 mod 8)%nat in
        pairwise_sum fuel' (take n2 a) + pairwise_sum fuel' (drop n2 a)
    end.

Definition sum (a : ndarray) : float := 0 + pairwise_sum (length a) a.

Section Entropy.

(** [np.log2] *)
Variable log2 : float -> float.

(** [EntropyAnalyzer.calculate_shannon_entropy] *)
Definition calculate_shannon_entropy (vector : ndarray) (is_binary : bool) : float :=
  if (length vector =? 0)%nat then 0
  else if is_binary then
    let ones := sum vector in
    let zeros := of_int (length vector) - ones in
    if (ones =? 0) || (zeros =? 0) then 0
    else
      let p_one := ones / of_int (length vector) in
      let p_zero := zeros / of_int (length vector) in
      let entropy := - p_one * log2 p_one - p_zero * log2 p_zero in
      entropy
  else
    let abs_vector := map PrimFloat.abs vector in
    if sum abs_vector =? 0 then 0
    else
      let prob_dist := map (fun x => x / sum abs_vector) abs_vector in
      let prob_dist := List.filter (fun p => 0 <? p) prob_dist in
      let entropy := - sum (map (fun p => p * log2 p) prob_dist) in
      let max_entropy := log2 (of_int (length vector)) in
      if 0 <? max_entropy then entropy / max_entropy else 0.

End Entropy.

End Float64.

(** ** Inputs of the examples *)

Local Open Scope string_scope.

(** Every pattern text of the embedded code. *)
Definition program_patterns : list string :=
  (Tokenizer.patterns ++
   [ "[/\\::#@]"; "//.*?$"; "/\*.*?\*/"; "#.*?$"; "function\s+(\w+)"; "class\s+(\w+)";
     ".*Test(Case|Duplicate)?$"; "->(\w+)\s*\("; "assert\w*";
     "\b(test|expect|mock|stub|spy|fake|fixture|teardown|setup)\w*\b";
     "\$([a-zA-Z_]\w{2,})"; Tokenizer.string_literal_pattern; "([a-z])([A-Z])" ] ++
   flat_map (fun pn : string * string =>
               [Validation.word_pattern (fst pn); Validation.word_pattern (snd pn)])
            Validation.opposition_pairs ++
   map snd Validation.assertion_patterns)%list.

(** The identifier of the example, written as a double-quoted literal. *)
Definition quoted_identifier : string :=
  String Str.dquote "test_user_can_create_post" +:+ String Str.dquote "".

(** A binary vector: every entry is 0 or 1. *)
Definition binary (v : Np.ndarray) : Prop := Forall (fun x => x = 0%R \/ x = 1%R) v.

(** The cosine of two vectors as the specification words it: their dot
    product over the product of their Euclidean norms, and 0 when one of
    the norms is 0. *)
Fixpoint dot_product (v1 v2 : list R) : R :=
  match v1, v2 with
  | x :: v1', y :: v2' => (x * y + dot_product v1' v2')%R
  | _, _ => 0%R
  end.

Definition euclidean_norm (v : list R) : R := sqrt (dot_product v v).

Definition cosine (v1 v2 : list R) : R :=
  if Req_dec_T (euclidean_norm v1) 0 then 0%R
  else if Req_dec_T (euclidean_norm v2) 0 then 0%R
  else (dot_product v1 v2 / (euclidean_norm v1 * euclidean_norm v2))%R.

(** [y] is [x] or one of the two binary64 numbers next to it. *)
Definition within_one_ulp (y x : float) : Prop :=
  y = PrimFloat.next_down x \/ y = x \/ y = PrimFloat.next_up x.

(** A [log2] that is right at the two arguments the example needs. *)
Definition log2_of_the_example (x : float) : float :=
  if PrimFloat.ltb x 1 then (-0x1.637e623d2ba02p+2)%float else 0x1.637e623d2ba02p+2%float.

(** A coherent intent cache: every cached entry is the intent computed
    from its name. *)
Definition cache_coherent (self : Validation.SemanticValidator) : Prop :=
  forall name d,
    Validation._intent_cache self !! name = Some d -> d = Validation.compute_intent name.

(** The word a pattern made of literal characters matches, and the words
    of an alternation of such patterns. *)
Fixpoint literal_word (r : Re.regex) : option (list ascii) :=
  match r with
  | Re.RChar c => Some [c]
  | Re.RSeq (Re.RChar c) r' => option_map (cons c) (literal_word r')
  | _ => None
  end.

Fixpoint literal_alternatives (r : Re.regex) : option (list (list ascii)) :=
  match r with
  | Re.RAlt r1 r2 =>
      match literal_word r1, literal_alternatives r2 with
      | Some w, Some ws => Some (w :: ws)
      | _, _ => None
      end
  | _ => option_map (fun w => [w]) (literal_word r)
  end.

(** The words of a pattern of the form [\b(w1|...|wn)\b]. *)
Definition word_alternatives (p : Re.pattern) : option (list (list ascii)) :=
  match Re.expr p with
  | Re.RSeq Re.RWordBoundary (Re.RSeq (Re.RGroup 1 alts) Re.RWordBoundary) =>
      literal_alternatives alts
  | _ => None
  end.

Definition words_of (p : Re.pattern) : list string :=
  match word_alternatives p with
  | Some ws => map Str.of_chars ws
  | None => []
  end.

(** The words of the negative patterns of the validator. *)
Definition negative_words : list string :=
  flat_map (fun pn : Re.pattern * Re.pattern => words_of (snd pn)) Validation.compiled_oppositions.

(** The value the validator stores under an intent key: [False] for the
    words of the negative patterns, [True] for every other key. *)
Definition polarity (key : string) : bool := negb (Str.mem key negative_words).

Definition no_upper (w : list ascii) : bool := forallb (fun c => negb (Str.is_upper c)) w.

(** What the proof about intent keys needs of the pattern table: every
    pattern is a word alternation in lower case, no word of a positive
    pattern is a word of a negative one, and neither is the key of an
    assertion pattern. *)
Definition oppositions_checked : bool :=
  forallb
    (fun pn : Re.pattern * Re.pattern =>
       match word_alternatives (fst pn), word_alternatives (snd pn) with
       | Some pw, Some nw =>
           forallb (fun w => no_upper w && polarity (Str.of_chars w)) pw &&
           forallb no_upper nw
       | _, _ => false
       end)
    Validation.compiled_oppositions &&
  forallb (fun kp : string * string => polarity (fst kp)) Validation.assertion_patterns.

(** A cursor [n] characters further on. *)
Definition advanced (cu cu' : Re.cursor) (t : list ascii) : Prop :=
  exists rest,
    Re.ahead cu = (t ++ rest)%list /\ Re.ahead cu' = rest /\
    Re.pos cu' = (Re.pos cu + length t)%nat.

(** Every entry of an intent dictionary stores the polarity of its key. *)
Definition polarized (d : Validation.intent) : Prop :=
  forall key v, In (key, v) d -> v = polarity key.

(** * Properties *)

(** ** The patterns of the program *)

(** Each of them is in the syntax the parser covers, so [Re.compile] never
    falls back to the pattern that matches nothing. *)
Lemma program_patterns_parse :
  forallb (fun p => match Re.parse p with Some _ => true | None => false end)
          program_patterns = true.
Proof. vm_compute. reflexivity. Qed.

(** ** Test-name extraction *)

(** C1. On ["tests/Unit/AuthTest.php"] the code returns ["AuthTest"], not
    ["Auth"]: the greedy first group of the file-name pattern takes the
    [Test] suffix before the optional [(?:Test)?] is tried.  On
    ["UserTest::testCanLogin"] it returns ["testCanLogin"], and on the
    empty string it returns [None]. *)
Theorem extract_test_name_examples :
  Tokenizer.extract_test_name "tests/Unit/AuthTest.php" = Some "AuthTest" /\
  Tokenizer.extract_test_name "UserTest::testCanLogin" = Some "testCanLogin" /\
  Tokenizer.extract_test_name "" = None.
Proof. vm_compute. repeat split; reflexivity. Qed.

(** ** Opposing intents *)

(** C2. With the default configuration the validator answers
    [(False, "")] for ["test_login_success"] against
    ["test_login_failure"]: the underscore is a word character, so
    [\b(success)\b] and [\b(fail|failure|error|exception)\b] find nothing
    in snake_case names.  For ["test_login_success"] against
    ["test_registration_success"] the answer is [(False, "")] as well. *)
Theorem opposing_intents_examples :
  fst (Validation.tests_have_opposing_intents (Validation.init None)
         "test_login_success" "test_login_failure") = (false, "") /\
  fst (Validation.tests_have_opposing_intents (Validation.init None)
         "test_login_success" "test_registration_success") = (false, "").
Proof. vm_compute. split; reflexivity. Qed.

(** ** The tokenizer *)

Lemma mem_In (x : string) (l : list string) : Str.mem x l = true <-> In x l.
Proof.
  unfold Str.mem. rewrite existsb_exists. split.
  - intros [y [Hy Heq]]. apply String.eqb_eq in Heq. subst. exact Hy.
  - intros H. exists x. split; [exact H | apply String.eqb_refl].
Qed.

Lemma tokenize_drops_stop_words (text : string) (lowercase : bool) (w : string) :
  In w Tokenizer.stop_words -> ~ In w (Tokenizer.tokenize text lowercase).
Proof.
  intros Hw Hin. unfold Tokenizer.tokenize in Hin.
  apply filter_In in Hin. destruct Hin as [_ Hneg].
  apply mem_In in Hw. rewrite Hw in Hneg. discriminate.
Qed.

(** C3, the claim as stated fails: ["can"] is a stop word, so it is not
    among the tokens of the quoted identifier. *)
Lemma tokenize_quoted_identifier_lacks_can :
  ~ (In "test" (Tokenizer.tokenize quoted_identifier true) /\
     In "user" (Tokenizer.tokenize quoted_identifier true) /\
     In "can" (Tokenizer.tokenize quoted_identifier true) /\
     In "create" (Tokenizer.tokenize quoted_identifier true) /\
     In "post" (Tokenizer.tokenize quoted_identifier true)).
Proof.
  intros (_ & _ & Hcan & _).
  revert Hcan. apply tokenize_drops_stop_words. vm_compute. tauto.
Qed.

(** C3, amended. No stop word (["the"], ["is"], ["and"], ["can"] among
    them) is ever a token of [tokenize] with lowercasing on; the tokens of
    the quoted identifier contain ["test"], ["user"], ["create"] and
    ["post"] and not ["can"]; the empty text has no tokens. *)
Theorem tokenize_stop_words_and_examples :
  (forall text w, In w Tokenizer.stop_words -> ~ In w (Tokenizer.tokenize text true)) /\
  In "the" Tokenizer.stop_words /\ In "is" Tokenizer.stop_words /\
  In "and" Tokenizer.stop_words /\ In "can" Tokenizer.stop_words /\
  In "test" (Tokenizer.tokenize quoted_identifier true) /\
  In "user" (Tokenizer.tokenize quoted_identifier true) /\
  In "create" (Tokenizer.tokenize quoted_identifier true) /\
  In "post" (Tokenizer.tokenize quoted_identifier true) /\
  ~ In "can" (Tokenizer.tokenize quoted_identifier true) /\
  Tokenizer.tokenize "" true = [].
Proof.
  split; [intros text w; apply tokenize_drops_stop_words |].
  assert (Htok : Tokenizer.tokenize quoted_identifier true =
                 ["test"; "test"; "test"; "test_user_can_create_post";
                  "test_user_can_create_post"; "test"; "user"; "create"; "post"])
    by (vm_compute; reflexivity).
  rewrite Htok.
  repeat split; try (vm_compute; tauto).
  intros H. vm_compute in H. intuition discriminate.
Qed.

Lemma tokenize_stop_words_and_examples_witness :
  ~ In "can" (Tokenizer.tokenize "we can test" true).
Proof.
  apply (proj1 tokenize_stop_words_and_examples "we can test" "can").
  vm_compute. tauto.
Defined.

(** ** Redundancy classification *)

Local Open Scope R_scope.

Lemma Rleb_true (x y : R) : Np.Rleb x y = true <-> x <= y.
Proof. unfold Np.Rleb. destruct (Rle_dec x y); split; auto; discriminate. Qed.

Lemma Rleb_false (x y : R) : Np.Rleb x y = false <-> y < x.
Proof.
  unfold Np.Rleb. destruct (Rle_dec x y); split; try discriminate; auto; lra.
Qed.

Lemma Rltb_true (x y : R) : Np.Rltb x y = true <-> x < y.
Proof. unfold Np.Rltb. destruct (Rlt_dec x y); split; auto; discriminate. Qed.

Lemma Rltb_false (x y : R) : Np.Rltb x y = false <-> y <= x.
Proof.
  unfold Np.Rltb. destruct (Rlt_dec x y); split; try discriminate; auto; lra.
Qed.

Lemma Reqb_true (x y : R) : Np.Reqb x y = true <-> x = y.
Proof. unfold Np.Reqb. destruct (Req_dec_T x y); split; auto; discriminate. Qed.

Lemma Reqb_false (x y : R) : Np.Reqb x y = false <-> x <> y.
Proof.
  unfold Np.Reqb. destruct (Req_dec_T x y); split; try discriminate; auto; congruence.
Qed.

(** Case analysis on every float comparison of a goal. *)
Ltac float_cases :=
  repeat match goal with
    | |- context [Np.Rleb ?x ?y] =>
        let E := fresh "E" in
        destruct (Np.Rleb x y) eqn:E;
        [apply Rleb_true in E | apply Rleb_false in E]
    | |- context [Np.Rltb ?x ?y] =>
        let E := fresh "E" in
        destruct (Np.Rltb x y) eqn:E;
        [apply Rltb_true in E | apply Rltb_false in E]
    | |- context [Np.Reqb ?x ?y] =>
        let E := fresh "E" in
        destruct (Np.Reqb x y) eqn:E;
        [apply Reqb_true in E | apply Reqb_false in E]
    end.

(** C4. With the default thresholds a score of exactly 0.25 is moderate,
    0.24999 is low, 0.60 is very high and every score below 0.15 is none;
    whatever the thresholds, a score that reaches [very_high] is very
    high, since that threshold is tested first. *)
Theorem classify_redundancy_default_boundaries :
  Redundancy.classify_redundancy Redundancy.default_thresholds (25 / 100) = Redundancy.MODERATE /\
  Redundancy.classify_redundancy Redundancy.default_thresholds (24999 / 100000) = Redundancy.LOW /\
  Redundancy.classify_redundancy Redundancy.default_thresholds (60 / 100) = Redundancy.VERY_HIGH /\
  (forall s, s < 15 / 100 ->
     Redundancy.classify_redundancy Redundancy.default_thresholds s = Redundancy.NONE) /\
  (forall thresholds s, Redundancy.very_high thresholds <= s ->
     Redundancy.classify_redundancy thresholds s = Redundancy.VERY_HIGH).
Proof.
  unfold Redundancy.classify_redundancy. cbn [Redundancy.low Redundancy.moderate
    Redundancy.high Redundancy.very_high Redundancy.default_thresholds].
  repeat split; intros; float_cases; try reflexivity; lra.
Qed.

Lemma classify_redundancy_default_boundaries_witness :
  Redundancy.classify_redundancy Redundancy.default_thresholds (1 / 10) = Redundancy.NONE /\
  Redundancy.classify_redundancy Redundancy.default_thresholds 1 = Redundancy.VERY_HIGH.
Proof.
  destruct classify_redundancy_default_boundaries as (_ & _ & _ & Hnone & Hvh).
  split.
  - apply Hnone. lra.
  - apply Hvh. cbn. lra.
Defined.

(** C10. [classify_redundancy] is monotone: for every threshold
    configuration, a larger score never gets a lower level. *)
Theorem classify_redundancy_monotone (thresholds : Redundancy.RedundancyThresholds) (s1 s2 : R) :
  s1 <= s2 ->
  (Redundancy.rank (Redundancy.classify_redundancy thresholds s1) <=
   Redundancy.rank (Redundancy.classify_redundancy thresholds s2))%nat.
Proof.
  intros Hle. unfold Redundancy.classify_redundancy.
  float_cases; cbn; try lia; lra.
Qed.

Lemma classify_redundancy_monotone_witness :
  (Redundancy.rank (Redundancy.classify_redundancy Redundancy.default_thresholds (2 / 10)) <=
   Redundancy.rank (Redundancy.classify_redundancy Redundancy.default_thresholds (5 / 10)))%nat.
Proof.
  apply (classify_redundancy_monotone Redundancy.default_thresholds (2 / 10) (5 / 10)). lra.
Defined.

(** ** Cosine and combined similarity *)

Lemma sum_squares_nonneg (v : Np.ndarray) : 0 <= Np.sum (map (fun x => x * x) v).
Proof.
  induction v as [|x v IH]; cbn; [lra |].
  pose proof (Rle_0_sqr x) as Hx. unfold Rsqr in Hx. lra.
Qed.

Lemma norm_nonneg (v : Np.ndarray) : 0 <= Np.norm v.
Proof. unfold Np.norm. apply sqrt_pos. Qed.

Lemma norm_zeros (n : nat) : Np.norm (Np.zeros n) = 0.
Proof.
  unfold Np.norm, Np.zeros.
  replace (Np.sum (map (fun x => x * x) (repeat 0 n))) with 0; [apply sqrt_0 |].
  induction n as [|n IH]; cbn; [reflexivity | rewrite <- IH; lra].
Qed.

Lemma cosine_similarity_defined (v1 v2 : Np.ndarray) :
  length v1 = length v2 ->
  Normalization.cosine_similarity v1 v2 =
    Ok (if Np.Reqb (Np.norm v1) 0 || Np.Reqb (Np.norm v2) 0 then 0
        else Np.sum (zip_with Rmult v1 v2) / (Np.norm v1 * Np.norm v2)).
Proof.
  intros Hlen. unfold Normalization.cosine_similarity, Np.dot.
  apply Nat.eqb_eq in Hlen. rewrite Hlen. cbn.
  destruct (Np.Reqb (Np.norm v1) 0 || Np.Reqb (Np.norm v2) 0); reflexivity.
Qed.

Lemma cosine_similarity_zero_norm (v1 v2 : Np.ndarray) :
  length v1 = length v2 ->
  Np.norm v1 = 0 \/ Np.norm v2 = 0 ->
  Normalization.cosine_similarity v1 v2 = Ok 0.
Proof.
  intros Hlen Hz. rewrite (cosine_similarity_defined _ _ Hlen).
  destruct Hz as [Hz | Hz]; apply Reqb_true in Hz; rewrite Hz;
    [reflexivity | rewrite orb_true_r; reflexivity].
Qed.

Lemma sum_products (v1 v2 : list R) : Np.sum (zip_with Rmult v1 v2) = dot_product v1 v2.
Proof.
  revert v2. induction v1 as [|x v1 IH]; intros [|y v2]; cbn; try reflexivity.
  rewrite IH. reflexivity.
Qed.

Lemma norm_euclidean (v : list R) : Np.norm v = euclidean_norm v.
Proof.
  unfold Np.norm, euclidean_norm. f_equal.
  induction v as [|x v IH]; cbn; [reflexivity | rewrite IH; reflexivity].
Qed.

Lemma cosine_similarity_cosine (v1 v2 : list R) :
  length v1 = length v2 -> Normalization.cosine_similarity v1 v2 = Ok (cosine v1 v2).
Proof.
  intros Hlen. rewrite (cosine_similarity_defined _ _ Hlen). f_equal.
  rewrite sum_products, !norm_euclidean. unfold cosine, Np.Reqb.
  destruct (Req_dec_T (euclidean_norm v1) 0); [reflexivity |].
  destruct (Req_dec_T (euclidean_norm v2) 0); reflexivity.
Qed.

(** The claim says "for all vectors"; two vectors of different lengths
    have no cosine: [np.dot] raises, and so does [combined_similarity]. *)
Lemma combined_similarity_length_mismatch :
  Normalization.combined_similarity [1; 0; 0] [1; 0] [0; 1; 0] [0; 0; 1]
      Normalization.default_semantic_weight Normalization.default_coverage_weight =
    Err Np.dot_error.
Proof. reflexivity. Qed.

(** C5, amended. For semantic vectors of one length and coverage vectors
    of one length, and any weights, [combined_similarity] returns the
    record of the cosine of the semantic vectors, the cosine of the
    coverage vectors, and their weighted sum, where the cosine is the dot
    product over the product of the norms, and 0 for a pair with a vector
    of norm zero; for [1,0,0], [1,0,0], [0,1,0], [0,0,1] with weights 0.7
    and 0.3 the three fields are 1, 0 and 0.7. *)
Theorem combined_similarity_fields :
  (forall sem1 sem2 cov1 cov2 w_s w_c,
     length sem1 = length sem2 -> length cov1 = length cov2 ->
     Normalization.combined_similarity sem1 sem2 cov1 cov2 w_s w_c =
       Ok {| Normalization.semantic_similarity := cosine sem1 sem2;
             Normalization.coverage_similarity := cosine cov1 cov2;
             Normalization.combined := w_s * cosine sem1 sem2 + w_c * cosine cov1 cov2 |}) /\
  (forall v1 v2, euclidean_norm v1 = 0 \/ euclidean_norm v2 = 0 ->
     cosine v1 v2 = 0 /\
     (length v1 = length v2 -> Normalization.cosine_similarity v1 v2 = Ok 0)) /\
  Normalization.combined_similarity [1; 0; 0] [1; 0; 0] [0; 1; 0] [0; 0; 1]
      Normalization.default_semantic_weight Normalization.default_coverage_weight =
    Ok {| Normalization.semantic_similarity := 1;
          Normalization.coverage_similarity := 0;
          Normalization.combined := 7 / 10 |}.
Proof.
  split; [| split].
  - intros sem1 sem2 cov1 cov2 w_s w_c Hs Hc.
    unfold Normalization.combined_similarity.
    rewrite (cosine_similarity_cosine _ _ Hs), (cosine_similarity_cosine _ _ Hc).
    reflexivity.
  - intros v1 v2 Hz.
    assert (H0 : cosine v1 v2 = 0).
    { unfold cosine.
      destruct (Req_dec_T (euclidean_norm v1) 0); [reflexivity |].
      destruct (Req_dec_T (euclidean_norm v2) 0); [reflexivity | tauto]. }
    split; [exact H0 |].
    intros Hlen. rewrite (cosine_similarity_cosine _ _ Hlen), H0. reflexivity.
  - assert (Hn : forall v, Np.sum (map (fun x => x * x) v) = 1 -> Np.norm v = 1)
      by (intros v Hv; unfold Np.norm; rewrite Hv; apply sqrt_1).
    assert (H1 : Np.norm [1; 0; 0] = 1) by (apply Hn; cbn; lra).
    assert (H2 : Np.norm [0; 1; 0] = 1) by (apply Hn; cbn; lra).
    assert (H3 : Np.norm [0; 0; 1] = 1) by (apply Hn; cbn; lra).
    assert (Hne : Np.Reqb 1 0 = false) by (apply Reqb_false; lra).
    unfold Normalization.combined_similarity, Normalization.cosine_similarity, Np.dot.
    cbn [length Nat.eqb mbind result_bind]. rewrite H1, H2, H3, Hne. cbn.
    unfold Normalization.default_semantic_weight, Normalization.default_coverage_weight.
    f_equal. f_equal; lra.
Qed.

Lemma combined_similarity_fields_witness :
  Normalization.combined_similarity [3; 4] [4; 3] [0; 0] [1; 2] (7 / 10) (3 / 10) =
    Ok {| Normalization.semantic_similarity := cosine [3; 4] [4; 3];
          Normalization.coverage_similarity := cosine [0; 0] [1; 2];
          Normalization.combined :=
            7 / 10 * cosine [3; 4] [4; 3] + 3 / 10 * cosine [0; 0] [1; 2] |}.
Proof.
  apply (proj1 combined_similarity_fields [3; 4] [4; 3] [0; 0] [1; 2] (7 / 10) (3 / 10));
    reflexivity.
Defined.

(** ** Fingerprint similarity *)

Lemma elementwise_same_length (f : R -> R -> R) (a b : Np.ndarray) :
  length a = length b -> Np.elementwise f a b = Ok (zip_with f a b).
Proof.
  intros H. unfold Np.elementwise. apply Nat.eqb_eq in H. rewrite H. reflexivity.
Qed.

Lemma zip_with_comm (f : R -> R -> R) (a b : Np.ndarray) :
  (forall x y, f x y = f y x) -> zip_with f a b = zip_with f b a.
Proof.
  intros Hf. revert b. induction a as [|x a IH]; intros [|y b]; cbn; try reflexivity.
  rewrite Hf, IH. reflexivity.
Qed.

Lemma binary_repeat (x : R) (n : nat) : x = 0 \/ x = 1 -> binary (repeat x n).
Proof. intros Hx. induction n; cbn; constructor; assumption. Qed.

Lemma binary_sum_nonneg (v : Np.ndarray) : binary v -> 0 <= Np.sum v.
Proof. induction 1 as [|x v [-> | ->] _ IH]; cbn; lra. Qed.

Lemma binary_products_le_maxima (a b : Np.ndarray) :
  binary a -> binary b ->
  0 <= Np.sum (zip_with Rmult a b) <= Np.sum (zip_with Rmax a b).
Proof.
  intros Ha. revert b. induction Ha as [|x a Hx _ IH]; intros b Hb.
  - cbn. lra.
  - destruct Hb as [|y b Hy Hb]; cbn; [lra |].
    specialize (IH b Hb).
    assert (0 <= x * y <= Rmax x y).
    { destruct Hx as [-> | ->], Hy as [-> | ->]; unfold Rmax;
        destruct (Rle_dec _ _); lra. }
    lra.
Qed.

Lemma binary_self_product (a : Np.ndarray) : binary a -> zip_with Rmult a a = a.
Proof.
  induction 1 as [|x a Hx _ IH]; cbn; [reflexivity |].
  rewrite IH. f_equal. destruct Hx as [-> | ->]; lra.
Qed.

Lemma self_maximum (a : Np.ndarray) : zip_with Rmax a a = a.
Proof.
  induction a as [|x a IH]; cbn; [reflexivity |].
  rewrite IH. f_equal. unfold Rmax. destruct (Rle_dec x x); reflexivity.
Qed.

Lemma binary_nonzero_sum (a : Np.ndarray) :
  binary a -> (exists x, In x a /\ x <> 0) -> 0 < Np.sum a.
Proof.
  intros Ha [x [Hin Hx]]. induction Ha as [|y a Hy Ha IH]; [destruct Hin |].
  pose proof (binary_sum_nonneg a Ha). cbn.
  destruct Hin as [-> | Hin].
  - destruct Hy as [-> | ->]; [congruence | lra].
  - specialize (IH Hin). destruct Hy as [-> | ->]; lra.
Qed.

Lemma estimate_similarity_binary (a b : Np.ndarray) :
  length a = length b -> binary a -> binary b ->
  exists r,
    Fingerprints.estimate_similarity a b = Ok r /\
    Fingerprints.estimate_similarity b a = Ok r /\
    0 <= r <= 1 /\
    (Np.sum (zip_with Rmax a b) = 0 -> r = 0) /\
    ((exists x, In x a /\ x <> 0) -> Fingerprints.estimate_similarity a a = Ok 1).
Proof.
  intros Hlen Ha Hb.
  unfold Fingerprints.estimate_similarity.
  rewrite !(elementwise_same_length _ a b Hlen), !(elementwise_same_length _ b a (eq_sym Hlen)),
    !(elementwise_same_length _ a a eq_refl).
  cbn [mbind result_bind].
  rewrite (zip_with_comm Rmult b a Rmult_comm), (zip_with_comm Rmax b a Rmax_comm).
  pose proof (binary_products_le_maxima a b Ha Hb) as Hbound.
  exists (if Np.Reqb (Np.sum (zip_with Rmax a b)) 0 then 0
          else Np.sum (zip_with Rmult a b) / Np.sum (zip_with Rmax a b)).
  split; [destruct (Np.Reqb _ 0); reflexivity |].
  split; [destruct (Np.Reqb _ 0); reflexivity |].
  split; [| split].
  - float_cases; [lra |].
    assert (0 < Np.sum (zip_with Rmax a b)) by lra.
    split.
    + apply Rmult_le_pos; [lra | left; apply Rinv_0_lt_compat; assumption].
    + apply (Rmult_le_reg_r (Np.sum (zip_with Rmax a b))); [assumption |].
      unfold Rdiv. rewrite Rmult_assoc, Rinv_l by lra. lra.
  - intros Hz. apply Reqb_true in Hz. rewrite Hz. reflexivity.
  - intros Hnz. rewrite (binary_self_product a Ha), self_maximum.
    pose proof (binary_nonzero_sum a Ha Hnz) as Hpos.
    float_cases; [lra |]. f_equal. field. lra.
Qed.

(** C7. For 512-dimensional 0/1 fingerprints [a] and [b],
    [estimate_similarity a b] and [estimate_similarity b a] are the same
    number, it lies between 0 and 1, it is 0 when the element-wise maximum
    sums to zero, and [estimate_similarity a a] is 1 when [a] has a
    nonzero entry. *)
Theorem estimate_similarity_symmetric_bounded (a b : Np.ndarray) :
  length a = 512%nat -> length b = 512%nat -> binary a -> binary b ->
  exists r,
    Fingerprints.estimate_similarity a b = Ok r /\
    Fingerprints.estimate_similarity b a = Ok r /\
    0 <= r <= 1 /\
    (Np.sum (zip_with Rmax a b) = 0 -> r = 0) /\
    ((exists x, In x a /\ x <> 0) -> Fingerprints.estimate_similarity a a = Ok 1).
Proof.
  intros Ha Hb. apply estimate_similarity_binary. congruence.
Qed.

Lemma estimate_similarity_symmetric_bounded_witness :
  exists r,
    Fingerprints.estimate_similarity (repeat 1 512) (repeat 0 512) = Ok r /\
    Fingerprints.estimate_similarity (repeat 0 512) (repeat 1 512) = Ok r /\
    0 <= r <= 1 /\
    (Np.sum (zip_with Rmax (repeat 1 512) (repeat 0 512)) = 0 -> r = 0) /\
    ((exists x, In x (repeat 1 512) /\ x <> 0) ->
     Fingerprints.estimate_similarity (repeat 1 512) (repeat 1 512) = Ok 1).
Proof.
  apply (estimate_similarity_symmetric_bounded (repeat 1 512) (repeat 0 512)).
  - apply repeat_length.
  - apply repeat_length.
  - apply binary_repeat. right. reflexivity.
  - apply binary_repeat. left. reflexivity.
Defined.

(** ** Shannon entropy *)

Lemma ln_le_minus_1 (x : R) : 0 < x -> ln x <= x - 1.
Proof.
  intros Hx. pose proof (exp_ineq1_le (x - 1)) as H.
  replace (1 + (x - 1)) with x in H by lra.
  destruct H as [H | H].
  - apply ln_increasing in H; [| assumption]. rewrite ln_exp in H. lra.
  - rewrite H at 1. rewrite ln_exp. lra.
Qed.

Lemma ln_2_pos : 0 < ln 2.
Proof. rewrite <- ln_1. apply ln_increasing; lra. Qed.

Lemma log2_2 : Np.log2 2 = 1.
Proof. unfold Np.log2. field. pose proof ln_2_pos. lra. Qed.

(** One term of Gibbs' inequality. *)
Lemma gibbs_term (q n : R) : 0 < q -> 0 < n -> - (q * ln q) - q * ln n <= / n - q.
Proof.
  intros Hq Hn.
  assert (Hnq : 0 < n * q) by (apply Rmult_lt_0_compat; assumption).
  pose proof (ln_le_minus_1 (/ (n * q)) (Rinv_0_lt_compat _ Hnq)) as H.
  rewrite ln_Rinv, ln_mult in H by assumption.
  apply (Rmult_le_compat_l q) in H; [| lra].
  replace (q * (/ (n * q) - 1)) with (/ n - q) in H by (field; lra).
  lra.
Qed.

Lemma gibbs_sum (qs : list R) (n : R) :
  Forall (fun q => 0 < q) qs -> 0 < n ->
  - Np.sum (map (fun q => q * ln q) qs) - ln n * Np.sum qs <= INR (length qs) / n - Np.sum qs.
Proof.
  intros Hqs Hn. induction Hqs as [|q qs Hq _ IH].
  - cbn. lra.
  - cbn [map Np.sum length]. rewrite S_INR.
    pose proof (gibbs_term q n Hq Hn).
    replace ((INR (length qs) + 1) / n) with (INR (length qs) / n + / n) by (field; lra).
    lra.
Qed.

Lemma positive_term_le_sum (qs : list R) (q : R) :
  Forall (fun q => 0 < q) qs -> In q qs -> q <= Np.sum qs.
Proof.
  intros Hqs. induction Hqs as [|p qs Hp Hqs IH]; [intros [] |].
  assert (0 <= Np.sum qs).
  { clear IH. induction Hqs; cbn; lra. }
  intros [-> | Hin]; cbn; [lra | specialize (IH Hin); lra].
Qed.

Lemma sum_log2 (qs : list R) :
  Np.sum (map (fun p => p * Np.log2 p) qs) = Np.sum (map (fun q => q * ln q) qs) / ln 2.
Proof.
  pose proof ln_2_pos.
  induction qs as [|q qs IH]; cbn; [lra |].
  rewrite IH. unfold Np.log2. field. lra.
Qed.

(** The entropy of a distribution is not negative ... *)
Lemma distribution_entropy_nonneg (qs : list R) :
  Forall (fun q => 0 < q) qs -> Np.sum qs = 1 ->
  0 <= - Np.sum (map (fun p => p * Np.log2 p) qs).
Proof.
  intros Hqs Hsum.
  assert (Hle : Forall (fun q => 0 < q <= 1) qs).
  { apply List.Forall_forall. intros q Hin. split.
    - exact (proj1 (List.Forall_forall _ _) Hqs q Hin).
    - rewrite <- Hsum. apply positive_term_le_sum; assumption. }
  clear Hqs Hsum. pose proof ln_2_pos as H2.
  enough (Np.sum (map (fun p => p * Np.log2 p) qs) <= 0) by lra.
  induction Hle as [|q qs [Hq Hq1] _ IH]; cbn; [lra |].
  assert (ln q <= 0).
  { destruct Hq1 as [Hq1 | ->]; [| rewrite ln_1; lra].
    rewrite <- ln_1. left. apply ln_increasing; assumption. }
  assert (q * Np.log2 q <= 0).
  { unfold Np.log2, Rdiv. rewrite <- Rmult_assoc.
    assert (0 <= / ln 2) by (left; apply Rinv_0_lt_compat; assumption).
    assert (q * ln q <= 0) by nra. nra. }
  lra.
Qed.

(** ... and at most the logarithm of the number of outcomes. *)
Lemma distribution_entropy_le_log2 (qs : list R) (n : nat) :
  Forall (fun q => 0 < q) qs -> Np.sum qs = 1 -> (length qs <= n)%nat -> (1 <= n)%nat ->
  - Np.sum (map (fun p => p * Np.log2 p) qs) <= Np.log2 (INR n).
Proof.
  intros Hqs Hsum Hlen Hn.
  assert (HnR : 0 < INR n) by (apply lt_0_INR; lia).
  pose proof (gibbs_sum qs (INR n) Hqs HnR) as HG.
  rewrite Hsum in HG.
  assert (INR (length qs) / INR n <= 1).
  { apply le_INR in Hlen. apply (Rmult_le_reg_r (INR n)); [assumption |].
    unfold Rdiv. rewrite Rmult_assoc, Rinv_l by lra. lra. }
  rewrite sum_log2. unfold Np.log2. pose proof ln_2_pos as H2.
  assert (- Np.sum (map (fun q => q * ln q) qs) <= ln (INR n)) by lra.
  unfold Rdiv. rewrite Ropp_mult_distr_l.
  apply Rmult_le_compat_r; [left; apply Rinv_0_lt_compat; assumption | assumption].
Qed.

Lemma binary_sum_le_length (v : Np.ndarray) : binary v -> Np.sum v <= INR (length v).
Proof.
  induction 1 as [|x v [-> | ->] _ IH]; cbn [Np.sum length]; [cbn; lra | |];
    rewrite S_INR; lra.
Qed.

Lemma sum_repeat (x : R) (n : nat) : Np.sum (repeat x n) = INR n * x.
Proof.
  induction n as [|n IH]; [cbn; lra |].
  cbn [repeat Np.sum]. rewrite S_INR, IH. lra.
Qed.



Lemma binary_entropy_bounds (v : Np.ndarray) :
  binary v -> 0 <= Entropy.calculate_shannon_entropy v true <= 1.
Proof.
  intros Hb. unfold Entropy.calculate_shannon_entropy.
  destruct v as [|x0 v0] eqn:Ev; [cbn; lra |]. rewrite <- Ev in *.
  assert (Hlen : 0 < INR (length v)) by (subst v; apply lt_0_INR; cbn; lia).
  replace (length v =? 0)%nat with false by (subst v; reflexivity).
  pose proof (binary_sum_nonneg v Hb) as H0.
  pose proof (binary_sum_le_length v Hb) as Hn.
  set (n := INR (length v)) in *. set (k := Np.sum v) in *.
  float_cases; cbn [orb]; try lra.
  assert (Hp1 : 0 < k / n) by (apply Rdiv_lt_0_compat; lra).
  assert (Hp0 : 0 < (n - k) / n) by (apply Rdiv_lt_0_compat; lra).
  assert (Hs : Np.sum [k / n; (n - k) / n] = 1) by (cbn; field; lra).
  assert (Hpos : Forall (fun q => 0 < q) [k / n; (n - k) / n]) by (repeat constructor; assumption).
  pose proof (distribution_entropy_nonneg _ Hpos Hs) as Hlo.
  pose proof (distribution_entropy_le_log2 _ 2 Hpos Hs ltac:(cbn; lia) ltac:(lia)) as Hhi.
  change (INR 2) with (1 + 1) in Hhi. replace (1 + 1) with 2 in Hhi by lra.
  rewrite log2_2 in Hhi. cbn [map Np.sum] in Hlo, Hhi. lra.
Qed.

Lemma sum_filter_positive (ps : list R) :
  Forall (fun p => 0 <= p) ps -> Np.sum (List.filter (fun p => Np.Rltb 0 p) ps) = Np.sum ps.
Proof.
  induction 1 as [|p ps Hp _ IH]; [reflexivity |].
  cbn [List.filter]. destruct (Np.Rltb 0 p) eqn:Ep; cbn [Np.sum]; rewrite IH;
    [reflexivity |]. apply Rltb_false in Ep. lra.
Qed.

Lemma continuous_entropy_bounds (v : Np.ndarray) :
  0 <= Entropy.calculate_shannon_entropy v false <= 1.
Proof.
  unfold Entropy.calculate_shannon_entropy.
  destruct (length v =? 0)%nat eqn:En; [lra |].
  apply Nat.eqb_neq in En.
  set (S := Np.sum (map Rabs v)).
  assert (HS0 : 0 <= S).
  { subst S. clear En. induction v as [|x v IH]; cbn; [lra |].
    pose proof (Rabs_pos x). lra. }
  float_cases; try lra.
  assert (HS : 0 < S) by lra.
  set (ps := map (fun x => x / S) (map Rabs v)).
  assert (Hps0 : Forall (fun p => 0 <= p) ps).
  { subst ps. apply List.Forall_forall. intros p Hin.
    apply in_map_iff in Hin. destruct Hin as [a [<- Hin]].
    apply in_map_iff in Hin. destruct Hin as [x [<- _]].
    apply Rmult_le_pos; [apply Rabs_pos | left; apply Rinv_0_lt_compat; assumption]. }
  assert (Hsum : Np.sum ps = 1).
  { subst ps. fold S.
    assert (Hd : forall l, Np.sum (map (fun x => x / S) l) = Np.sum l / S).
    { induction l as [|x l IH]; cbn; [lra | rewrite IH; field; lra]. }
    rewrite Hd. fold S. field. lra. }
  set (qs := List.filter (fun p => Np.Rltb 0 p) ps).
  assert (Hqpos : Forall (fun q => 0 < q) qs).
  { apply List.Forall_forall. intros q Hin. subst qs.
    apply filter_In in Hin. destruct Hin as [_ Hq]. apply Rltb_true in Hq. exact Hq. }
  assert (Hqsum : Np.sum qs = 1).
  { rewrite <- Hsum. subst qs. apply sum_filter_positive. exact Hps0. }
  assert (Hqlen : (length qs <= length v)%nat).
  { subst qs. etransitivity; [apply filter_length_le |]. subst ps.
    rewrite !length_map. lia. }
  pose proof (distribution_entropy_nonneg qs Hqpos Hqsum) as Hlo.
  pose proof (distribution_entropy_le_log2 qs (length v) Hqpos Hqsum Hqlen ltac:(lia)) as Hhi.
  set (H := - Np.sum (map (fun p => p * Np.log2 p) qs)) in *.
  split.
  - apply Rmult_le_pos; [assumption | left; apply Rinv_0_lt_compat; assumption].
  - apply (Rmult_le_reg_r (Np.log2 (INR (length v)))); [assumption |].
    unfold Rdiv. rewrite Rmult_assoc, Rinv_l by lra. lra.
Qed.

Lemma sum_constant (c : R) (v : Np.ndarray) :
  Forall (fun x => x = c) v -> Np.sum v = INR (length v) * c.
Proof.
  induction 1 as [|x v -> _ IH]; [cbn; lra |].
  cbn [Np.sum length]. rewrite S_INR, IH. lra.
Qed.





(** C8. On [float64] numbers the continuous entropy leaves the interval
    [0, 1] its docstring promises: for [np.ones(47)] the code returns a
    number above 1, whenever [np.log2] is within one unit in the last
    place of the correctly rounded logarithm at the two arguments it is
    given, 47 and the [float64] quotient 1/47 (each of the 47
    probabilities). *)
Theorem shannon_entropy_float64_above_one (log2 : float -> float) :
  within_one_ulp (log2 47%float) 0x1.637e623d2ba02p+2%float ->
  within_one_ulp (log2 (1 / 47)%float) (-0x1.637e623d2ba02p+2)%float ->
  PrimFloat.ltb 1 (Float64.calculate_shannon_entropy log2 (repeat 1%float 47) false) = true.
Proof.
  intros H47 Hp. unfold within_one_ulp in H47, Hp.
  vm_compute in H47. vm_compute in Hp. vm_compute.
  destruct H47 as [H47 | [H47 | H47]], Hp as [Hp | [Hp | Hp]];
    rewrite ?H47, ?Hp; vm_compute; reflexivity.
Qed.

Lemma shannon_entropy_float64_above_one_witness :
  PrimFloat.ltb 1 (Float64.calculate_shannon_entropy log2_of_the_example (repeat 1%float 47) false)
  = true.
Proof.
  apply (shannon_entropy_float64_above_one log2_of_the_example);
    right; left; vm_compute; reflexivity.
Defined.

(** ** Feature combination *)

Lemma combine_one_cases (self : Features.FeatureCombiner)
    (semantic_vectors coverage_vectors : gmap string Np.ndarray) (test_name : string) :
  let semantic_vec :=
    default (Np.zeros (Features.semantic_dim self)) (semantic_vectors !! test_name) in
  let coverage_vec :=
    default (Np.zeros (Features.coverage_dim self)) (coverage_vectors !! test_name) in
  (length semantic_vec = Features.semantic_dim self /\
   length coverage_vec = Features.coverage_dim self /\
   Features.combine_one self semantic_vectors coverage_vectors test_name =
     Ok (if Features.normalize self
         then Normalization.l2_normalize (semantic_vec ++ coverage_vec)%list
                Normalization.default_epsilon
         else (semantic_vec ++ coverage_vec)%list)) \/
  ((length semantic_vec <> Features.semantic_dim self \/
    length coverage_vec <> Features.coverage_dim self) /\
   exists msg,
     Features.combine_one self semantic_vectors coverage_vectors test_name =
       Err (InvalidInput msg)).
Proof.
  intros semantic_vec coverage_vec. unfold Features.combine_one.
  fold semantic_vec coverage_vec.
  destruct (length semantic_vec =? Features.semantic_dim self)%nat eqn:Es; cbn [negb].
  - apply Nat.eqb_eq in Es.
    destruct (length coverage_vec =? Features.coverage_dim self)%nat eqn:Ec; cbn [negb].
    + apply Nat.eqb_eq in Ec. left. auto.
    + apply Nat.eqb_neq in Ec. right. split; [right; exact Ec |].
      unfold Features.wrong_dimension. eexists. reflexivity.
  - apply Nat.eqb_neq in Es. right. split; [left; exact Es |].
    unfold Features.wrong_dimension. eexists. reflexivity.
Qed.

Lemma combine_loop_ok (self : Features.FeatureCombiner)
    (semantic_vectors coverage_vectors : gmap string Np.ndarray)
    (g : string -> Np.ndarray) (tests : list string) (acc : gmap string Np.ndarray) :
  (forall name, name ∈ tests ->
     Features.combine_one self semantic_vectors coverage_vectors name = Ok (g name)) ->
  exists combined,
    Features.combine_loop self semantic_vectors coverage_vectors tests acc = Ok combined /\
    forall name,
      combined !! name = if decide (name ∈ tests) then Some (g name) else acc !! name.
Proof.
  revert acc. induction tests as [|t tests IH]; intros acc Hok.
  - exists acc. split; [reflexivity |]. intros name.
    destruct (decide (name ∈ [])) as [Hin | _]; [inversion Hin | reflexivity].
  - cbn [Features.combine_loop]. rewrite (Hok t) by (left).
    cbn [mbind result_bind].
    destruct (IH (<[t := g t]> acc)) as [combined [Hrun Hlook]].
    { intros name Hin. apply Hok. right. exact Hin. }
    exists combined. split; [exact Hrun |]. intros name. rewrite Hlook.
    destruct (decide (name ∈ tests)) as [Hin | Hnin].
    + rewrite decide_True by (right; exact Hin). reflexivity.
    + destruct (decide (name = t)) as [-> | Hne].
      * rewrite decide_True by left. apply lookup_insert_eq.
      * rewrite decide_False; [apply lookup_insert_ne; congruence |].
        intros Hin. apply elem_of_cons in Hin. tauto.
Qed.

Lemma combine_loop_err (self : Features.FeatureCombiner)
    (semantic_vectors coverage_vectors : gmap string Np.ndarray)
    (tests : list string) (acc : gmap string Np.ndarray) :
  (exists name msg, name ∈ tests /\
     Features.combine_one self semantic_vectors coverage_vectors name = Err (InvalidInput msg)) ->
  exists msg,
    Features.combine_loop self semantic_vectors coverage_vectors tests acc = Err (InvalidInput msg).
Proof.
  revert acc. induction tests as [|t tests IH]; intros acc (name & msg & Hin & Herr).
  - inversion Hin.
  - cbn [Features.combine_loop].
    destruct (combine_one_cases self semantic_vectors coverage_vectors t)
      as [(_ & _ & Hok) | (_ & msg' & Hbad)].
    + rewrite Hok. cbn [mbind result_bind]. apply IH.
      exists name, msg. split; [| exact Herr].
      apply elem_of_cons in Hin. destruct Hin as [-> | Hin]; [| exact Hin].
      rewrite Hok in Herr. discriminate.
    + rewrite Hbad. exists msg'. reflexivity.
Qed.

Lemma split_features_app (self : Features.FeatureCombiner) (sem cov : Np.ndarray) :
  length sem = Features.semantic_dim self -> length cov = Features.coverage_dim self ->
  Features.split_features self (sem ++ cov)%list = Ok (sem, cov).
Proof.
  intros Hs Hc. unfold Features.split_features, Features.total_dim.
  rewrite length_app, Hs, Hc, Nat.eqb_refl. cbn [negb].
  rewrite <- Hs, take_app_length, drop_app_length. reflexivity.
Qed.

(** C6. With normalization disabled, combining maps whose semantic vectors
    all have dimension 128 and whose coverage vectors all have dimension
    512 succeeds, each combined vector has dimension 640, and
    [split_features] gives back the semantic and the coverage vector it
    was made of (the all-zero vector for a test missing from one map);
    and whenever some semantic vector is not 128-dimensional or some
    coverage vector is not 512-dimensional, [combine_features] raises
    InvalidInput. *)
Theorem combine_split_round_trip :
  (forall semantic_vectors coverage_vectors : gmap string Np.ndarray,
     (forall name v, semantic_vectors !! name = Some v -> length v = 128%nat) ->
     (forall name v, coverage_vectors !! name = Some v -> length v = 512%nat) ->
     exists combined,
       Features.combine_features (Features.init false) semantic_vectors coverage_vectors =
         Ok combined /\
       forall name,
         is_Some (semantic_vectors !! name) \/ is_Some (coverage_vectors !! name) ->
         exists c,
           combined !! name = Some c /\ length c = 640%nat /\
           Features.split_features (Features.init false) c =
             Ok (default (Np.zeros 128) (semantic_vectors !! name),
                 default (Np.zeros 512) (coverage_vectors !! name))) /\
  (forall normalize (semantic_vectors coverage_vectors : gmap string Np.ndarray),
     (exists name v, semantic_vectors !! name = Some v /\ length v <> 128%nat) \/
     (exists name v, coverage_vectors !! name = Some v /\ length v <> 512%nat) ->
     exists msg,
       Features.combine_features (Features.init normalize) semantic_vectors coverage_vectors =
         Err (InvalidInput msg)).
Proof.
  split.
  - intros semantic_vectors coverage_vectors Hsem Hcov.
    set (g := fun name => (default (Np.zeros 128) (semantic_vectors !! name) ++
                           default (Np.zeros 512) (coverage_vectors !! name))%list).
    assert (Hdims : forall name,
              length (default (Np.zeros 128) (semantic_vectors !! name)) = 128%nat /\
              length (default (Np.zeros 512) (coverage_vectors !! name)) = 512%nat).
    { intros name. split.
      - destruct (semantic_vectors !! name) eqn:E; cbn [default];
          [eauto | apply repeat_length].
      - destruct (coverage_vectors !! name) eqn:E; cbn [default];
          [eauto | apply repeat_length]. }
    unfold Features.combine_features.
    destruct (combine_loop_ok (Features.init false) semantic_vectors coverage_vectors g
                (elements (dom semantic_vectors ∪ dom coverage_vectors)) ∅)
      as [combined [Hrun Hlook]].
    { intros name _.
      destruct (combine_one_cases (Features.init false) semantic_vectors coverage_vectors name)
        as [(_ & _ & Hok) | ([Hbad | Hbad] & _)].
      - exact Hok.
      - destruct (Hdims name) as [Hd _]. cbn in Hbad. contradiction.
      - destruct (Hdims name) as [_ Hd]. cbn in Hbad. contradiction. }
    exists combined. split; [exact Hrun |].
    intros name Hin. exists (g name). rewrite Hlook.
    destruct (Hdims name) as [Hs Hc].
    split; [| split].
    + apply decide_True. apply elem_of_elements, elem_of_union.
      rewrite !elem_of_dom. exact Hin.
    + unfold g. rewrite length_app, Hs, Hc. reflexivity.
    + unfold g. apply split_features_app; assumption.
  - intros normalize semantic_vectors coverage_vectors Hbad.
    unfold Features.combine_features. apply combine_loop_err.
    assert (Hname : exists name,
              (is_Some (semantic_vectors !! name) \/ is_Some (coverage_vectors !! name)) /\
              (length (default (Np.zeros 128) (semantic_vectors !! name)) <> 128%nat \/
               length (default (Np.zeros 512) (coverage_vectors !! name)) <> 512%nat)).
    { unfold Np.ndarray in *.
      destruct Hbad as [(name & v & Hv & Hlen) | (name & v & Hv & Hlen)];
        exists name; rewrite Hv; cbn [default]; eauto. }
    destruct Hname as (name & Hin & Hlen).
    destruct (combine_one_cases (Features.init normalize) semantic_vectors coverage_vectors name)
      as [(Hs & Hc & _) | (_ & msg & Herr)].
    + cbn in Hs, Hc. tauto.
    + exists name, msg. split; [| exact Herr].
      apply elem_of_elements, elem_of_union. rewrite !elem_of_dom. exact Hin.
Qed.

Lemma combine_split_round_trip_witness :
  exists combined,
    Features.combine_features (Features.init false)
      {[ "t" := repeat 1%R 128 ]} {[ "t" := repeat 0%R 512 ]} = Ok combined /\
    forall name,
      is_Some (({[ "t" := repeat 1%R 128 ]} : gmap string Np.ndarray) !! name) \/
      is_Some (({[ "t" := repeat 0%R 512 ]} : gmap string Np.ndarray) !! name) ->
      exists c,
        combined !! name = Some c /\ length c = 640%nat /\
        Features.split_features (Features.init false) c =
          Ok (default (Np.zeros 128) (({[ "t" := repeat 1%R 128 ]} : gmap string Np.ndarray) !! name),
              default (Np.zeros 512) (({[ "t" := repeat 0%R 512 ]} : gmap string Np.ndarray) !! name)).
Proof.
  apply (proj1 combine_split_round_trip).
  - intros name v Hv. apply lookup_singleton_Some in Hv. destruct Hv as [_ <-].
    apply repeat_length.
  - intros name v Hv. apply lookup_singleton_Some in Hv. destruct Hv as [_ <-].
    apply repeat_length.
Defined.

(** ** Vectorizers: fit before transform *)

(** A fitted TF-IDF state is coherent: the vocabulary's column indices are
    below the number of columns, and the IDF weights, when used, are as many
    as the columns. *)
Lemma enumerate_index_bound {A : Type} (l : list A) (i : nat) (x : A) :
  In (i, x) (Vectorizers.enumerate l) -> (i < length l)%nat.
Proof.
  unfold Vectorizers.enumerate. intros Hin.
  apply in_combine_l in Hin. apply in_seq in Hin. lia.
Qed.

Lemma vocabulary_get_In (token : string) (voc : Vectorizers.vocabulary) (idx : nat) :
  Vectorizers.vocabulary_get token voc = Some idx -> exists t, In (t, idx) voc.
Proof.
  induction voc as [|[t i] voc IH]; cbn; [discriminate |].
  destruct (String.eqb t token).
  - intros [= ->]. exists t. left. reflexivity.
  - intros H. destruct (IH H) as [t' Hin]. exists t'. right. exact Hin.
Qed.

Lemma fit_vocabulary (self : Vectorizers.TFIDFVectorizer) (documents : list string) :
  exists tokens,
    Vectorizers.vocabulary_ (Vectorizers.fit self documents) =
      Some (map (fun it : nat * string => (snd it, fst it)) (Vectorizers.enumerate tokens)) /\
    (Vectorizers.use_idf self = true ->
     exists idf,
       Vectorizers.idf_ (Vectorizers.fit self documents) = Some idf /\
       length idf = length tokens) /\
    Vectorizers.use_idf (Vectorizers.fit self documents) = Vectorizers.use_idf self.
Proof.
  unfold Vectorizers.fit. cbv zeta. cbn [Vectorizers.vocabulary_ Vectorizers.idf_ Vectorizers.use_idf].
  eexists. split; [reflexivity |]. split; [| reflexivity].
  intros ->. eexists. split; [reflexivity |].
  rewrite !length_map. unfold Vectorizers.enumerate.
  rewrite length_combine, length_seq. lia.
Qed.

Lemma row_entries_ok (self : Vectorizers.TFIDFVectorizer) (voc : Vectorizers.vocabulary)
    (tf_dict : Vectorizers.Counter) :
  (forall token idx, Vectorizers.vocabulary_get token voc = Some idx -> (idx < length voc)%nat) ->
  (Vectorizers.use_idf self = true ->
   exists idf, Vectorizers.idf_ self = Some idf /\ length idf = length voc) ->
  exists entries, Vectorizers.row_entries self voc tf_dict = Ok entries.
Proof.
  intros Hidx Hidf. induction tf_dict as [|[token n] tf_dict [entries IH]].
  - eexists. reflexivity.
  - cbn [Vectorizers.row_entries].
    destruct (Vectorizers.vocabulary_get token voc) as [feature_idx |] eqn:Eg;
      [| eexists; exact IH].
    rewrite IH. destruct (Vectorizers.use_idf self) eqn:Eu.
    + destruct (Hidf eq_refl) as (idf & -> & Hlen). unfold Np.ndarray in *.
      destruct (lookup_lt_is_Some_2 idf feature_idx) as [w ->].
      { rewrite Hlen. eapply Hidx. exact Eg. }
      eexists. reflexivity.
    + eexists. reflexivity.
Qed.

Lemma transform_fitted_ok (self : Vectorizers.TFIDFVectorizer) (voc : Vectorizers.vocabulary)
    (documents : list string) :
  Vectorizers.vocabulary_ self = Some voc ->
  (forall token idx, Vectorizers.vocabulary_get token voc = Some idx -> (idx < length voc)%nat) ->
  (Vectorizers.use_idf self = true ->
   exists idf, Vectorizers.idf_ self = Some idf /\ length idf = length voc) ->
  exists rows,
    Vectorizers.transform self documents =
      Ok {| Np.n_rows := length documents; Np.n_cols := length voc; Np.rows := rows |} /\
    length rows = length documents.
Proof.
  intros Hvoc Hidx Hidf. unfold Vectorizers.transform. rewrite Hvoc.
  assert (Hrows : exists rows,
             Vectorizers.transform_rows self voc documents = Ok rows /\
             length rows = length documents).
  { induction documents as [|doc documents (rows & IH & Hlen)].
    - exists []. split; reflexivity.
    - cbn [Vectorizers.transform_rows].
      destruct (row_entries_ok self voc
                  (Vectorizers.count_tokens (Vectorizers.tokenize doc)) Hidx Hidf)
        as [entries ->].
      rewrite IH. eexists. split; [reflexivity |]. cbn. rewrite Hlen. reflexivity. }
  destruct Hrows as (rows & -> & Hlen). exists rows. split; [reflexivity | exact Hlen].
Qed.

Lemma transform_after_fit (self : Vectorizers.TFIDFVectorizer) (fitted documents : list string) :
  exists m,
    Vectorizers.transform (Vectorizers.fit self fitted) documents = Ok m /\
    Np.n_rows m = length documents /\
    length (Np.rows m) = length documents /\
    Some (Np.n_cols m) = length <$> Vectorizers.vocabulary_ (Vectorizers.fit self fitted).
Proof.
  destruct (fit_vocabulary self fitted) as (tokens & Hvoc & Hidf & Huse).
  destruct (transform_fitted_ok (Vectorizers.fit self fitted) _ documents Hvoc)
    as (rows & Hrun & Hlen).
  - intros token idx Hget. apply vocabulary_get_In in Hget. destruct Hget as [t Hin].
    apply in_map_iff in Hin. destruct Hin as [[i x] [[= <- <-] Hin]].
    rewrite length_map. unfold Vectorizers.enumerate at 1.
    rewrite length_combine, length_seq, Nat.min_id.
    eapply enumerate_index_bound. exact Hin.
  - rewrite Huse. intros Hu. destruct (Hidf Hu) as (idf & Hi & Hlen).
    exists idf. split; [exact Hi |]. rewrite Hlen, length_map.
    unfold Vectorizers.enumerate. rewrite length_combine, length_seq. lia.
  - eexists. split; [exact Hrun |]. cbn [Np.n_rows Np.rows Np.n_cols].
    rewrite Hvoc. cbn. auto.
Qed.

(** C9. [transform] of a TF-IDF vectorizer or of a semantic vectorizer on
    which [fit] was never called fails with NotFitted, whatever the
    documents; after [fit] (or inside [fit_transform]) [transform] does not
    fail with NotFitted. *)
Theorem transform_requires_fit :
  (forall max_features min_df max_df use_idf sublinear_tf documents,
     exists msg,
       Vectorizers.transform
         (Vectorizers.init max_features min_df max_df use_idf sublinear_tf) documents =
       Err (NotFitted msg)) /\
  (forall uninitialized output_dim max_features test_sources,
     exists msg,
       Vectorizers.sv_transform uninitialized
         (Vectorizers.sv_init output_dim max_features) test_sources =
       Err (NotFitted msg)) /\
  (forall self fitted documents msg,
     Vectorizers.transform (Vectorizers.fit self fitted) documents <> Err (NotFitted msg) /\
     snd (Vectorizers.fit_transform self fitted) <> Err (NotFitted msg)) /\
  (forall randn uninitialized self fitted self' test_sources msg,
     Vectorizers.sv_fit randn self fitted = Ok self' ->
     Vectorizers.sv_transform uninitialized self' test_sources <> Err (NotFitted msg)).
Proof.
  split; [| split; [| split]].
  - intros. eexists. reflexivity.
  - intros. eexists. reflexivity.
  - intros self fitted documents msg. split.
    + destruct (transform_after_fit self fitted documents) as (m & -> & _). discriminate.
    + unfold Vectorizers.fit_transform. cbn [snd].
      destruct (transform_after_fit self fitted fitted) as (m & -> & _). discriminate.
  - intros randn uninitialized self fitted self' test_sources msg Hfit.
    unfold Vectorizers.sv_fit in Hfit. unfold Vectorizers.fit_transform in Hfit.
    destruct (transform_after_fit (Vectorizers.tfidf_vectorizer self) (map snd fitted)
                (map snd fitted)) as (m & Hm & _).
    rewrite Hm in Hfit. cbn [mbind result_bind] in Hfit. injection Hfit as <-.
    unfold Vectorizers.sv_transform.
    cbn [Vectorizers.projection_matrix_ Vectorizers.tfidf_vectorizer].
    destruct (transform_after_fit (Vectorizers.tfidf_vectorizer self) (map snd fitted)
                (map snd test_sources)) as (m' & -> & _).
    cbn [mbind result_bind]. unfold Np.matmul.
    destruct (Np.n_cols m' =? _)%nat; cbn [mbind result_bind]; discriminate.
Qed.

Lemma transform_requires_fit_witness :
  Vectorizers.sv_transform (fun _ _ => 0)
    {| Vectorizers.output_dim := 2; Vectorizers.sv_max_features := 10;
       Vectorizers.tfidf_vectorizer :=
         Vectorizers.fit (Vectorizers.init 10 (1 / 100) (95 / 100) true true) [];
       Vectorizers.projection_matrix_ := Some (Np.eye 0 2) |} [] <>
  Err (NotFitted "").
Proof.
  apply (proj2 (proj2 (proj2 transform_requires_fit)) (fun n m => Np.eye n m) (fun _ _ => 0)
           (Vectorizers.sv_init 2 10) []).
  reflexivity.
Defined.

(** ** More on the similarity measures *)

Lemma norm_sqr (v : Np.ndarray) : Np.norm v * Np.norm v = Np.sum (map (fun x => x * x) v).
Proof. unfold Np.norm. apply sqrt_sqrt. apply sum_squares_nonneg. Qed.

Lemma norm_zero_iff (v : Np.ndarray) : Np.norm v = 0 <-> Forall (fun x => x = 0) v.
Proof.
  split.
  - intros Hn. pose proof (norm_sqr v) as Hs. rewrite Hn in Hs.
    replace (0 * 0) with 0 in Hs by lra. clear Hn.
    induction v as [|x v IH]; [constructor |].
    cbn in Hs. pose proof (sum_squares_nonneg v). pose proof (Rle_0_sqr x) as Hx.
    unfold Rsqr in Hx.
    constructor; [nra | apply IH; lra].
  - intros Hz. unfold Np.norm.
    replace (Np.sum (map (fun x => x * x) v)) with 0; [apply sqrt_0 |].
    induction Hz as [|x v -> _ IH]; cbn; [reflexivity | rewrite <- IH; lra].
Qed.

(** The Cauchy-Schwarz inequality on arrays. *)
Lemma cauchy_schwarz (a b : Np.ndarray) :
  Np.sum (zip_with Rmult a b) * Np.sum (zip_with Rmult a b) <=
  Np.sum (map (fun x => x * x) a) * Np.sum (map (fun x => x * x) b).
Proof.
  revert b. induction a as [|x a IH]; intros b.
  - cbn. pose proof (sum_squares_nonneg b). lra.
  - destruct b as [|y b].
    + cbn. pose proof (sum_squares_nonneg a). pose proof (Rle_0_sqr x) as Hx.
      unfold Rsqr in Hx. nra.
    + cbn [zip_with map Np.sum]. specialize (IH b).
      pose proof (sum_squares_nonneg a) as HA. pose proof (sum_squares_nonneg b) as HB.
      set (D := Np.sum (zip_with Rmult a b)) in *.
      set (A := Np.sum (map (fun x => x * x) a)) in *.
      set (B := Np.sum (map (fun x => x * x) b)) in *.
      assert (Hm : 2 * (x * y * D) <= x * x * B + y * y * A).
      { set (u := x * x * B). set (v := y * y * A). set (w := x * y * D).
        assert (Hu : 0 <= u) by (subst u; pose proof (Rle_0_sqr x) as Hx; unfold Rsqr in Hx; nra).
        assert (Hv : 0 <= v) by (subst v; pose proof (Rle_0_sqr y) as Hy; unfold Rsqr in Hy; nra).
        assert (Hw : w * w <= u * v).
        { subst u v w.
          replace (x * y * D * (x * y * D)) with ((x * x) * (y * y) * (D * D)) by ring.
          replace (x * x * B * (y * y * A)) with ((x * x) * (y * y) * (A * B)) by ring.
          apply Rmult_le_compat_l; [| exact IH].
          pose proof (Rle_0_sqr x) as Hx. pose proof (Rle_0_sqr y) as Hy.
          unfold Rsqr in *. nra. }
        destruct (Rle_dec (2 * w) (u + v)) as [Hle | Hgt]; [exact Hle | exfalso].
        assert (0 <= (u - v) * (u - v)) by (pose proof (Rle_0_sqr (u - v)) as H; exact H).
        nra. }
      nra.
Qed.

Lemma cosine_bounds (v1 v2 : Np.ndarray) :
  Np.norm v1 <> 0 -> Np.norm v2 <> 0 ->
  -1 <= Np.sum (zip_with Rmult v1 v2) / (Np.norm v1 * Np.norm v2) <= 1.
Proof.
  intros H1 H2.
  pose proof (norm_nonneg v1) as P1. pose proof (norm_nonneg v2) as P2.
  pose proof (cauchy_schwarz v1 v2) as HCS.
  rewrite <- !norm_sqr in HCS.
  set (d := Np.sum (zip_with Rmult v1 v2)) in *.
  set (n := Np.norm v1 * Np.norm v2).
  assert (Hn : 0 < n) by (subst n; apply Rmult_lt_0_compat; lra).
  assert (Hd : d * d <= n * n) by (subst n; nra).
  assert (Hdn : - n <= d <= n) by (split; nra).
  split.
  - apply (Rmult_le_reg_r n); [exact Hn |].
    unfold Rdiv. rewrite Rmult_assoc, Rinv_l by lra. lra.
  - apply (Rmult_le_reg_r n); [exact Hn |].
    unfold Rdiv. rewrite Rmult_assoc, Rinv_l by lra. lra.
Qed.

Lemma cosine_symmetric_and_bounded (v1 v2 : Np.ndarray) :
  length v1 = length v2 ->
  exists c,
    Normalization.cosine_similarity v1 v2 = Ok c /\
    Normalization.cosine_similarity v2 v1 = Ok c /\
    -1 <= c <= 1.
Proof.
  intros Hlen.
  rewrite (cosine_similarity_defined v1 v2 Hlen), (cosine_similarity_defined v2 v1 (eq_sym Hlen)).
  rewrite (zip_with_comm Rmult v2 v1 Rmult_comm), (Rmult_comm (Np.norm v2)), (orb_comm (Np.Reqb (Np.norm v2) 0)).
  eexists. split; [reflexivity |]. split; [reflexivity |].
  float_cases; cbn [orb]; try lra.
  apply cosine_bounds; assumption.
Qed.

(** X1. [cosine_similarity] of two vectors of the same length is defined,
    does not depend on the order of its arguments and, in exact
    arithmetic, lies between -1 and 1, as its docstring says. *)
Theorem cosine_similarity_symmetric_bounded (v1 v2 : Np.ndarray) :
  length v1 = length v2 ->
  exists c,
    Normalization.cosine_similarity v1 v2 = Ok c /\
    Normalization.cosine_similarity v2 v1 = Ok c /\
    -1 <= c <= 1.
Proof. apply cosine_symmetric_and_bounded. Qed.

Lemma cosine_similarity_symmetric_bounded_witness :
  exists c,
    Normalization.cosine_similarity [1; 2] [3; -4] = Ok c /\
    Normalization.cosine_similarity [3; -4] [1; 2] = Ok c /\
    -1 <= c <= 1.
Proof. apply (cosine_similarity_symmetric_bounded [1; 2] [3; -4]). reflexivity. Defined.

(** X2. In exact arithmetic, where nothing is rounded, the cosine
    similarity of a vector with itself is 1 unless the vector is all
    zeros, in which case it is 0; vectors of different lengths make
    [cosine_similarity] (and so [combined_similarity]) raise instead of
    returning a score. *)
Theorem cosine_similarity_self_and_mismatch :
  (forall v, (exists x, In x v /\ x <> 0) -> Normalization.cosine_similarity v v = Ok 1) /\
  (forall v, Forall (fun x => x = 0) v -> Normalization.cosine_similarity v v = Ok 0) /\
  (forall v1 v2, length v1 <> length v2 ->
     exists e, Normalization.cosine_similarity v1 v2 = Err e /\
               forall c1 c2 w_s w_c,
                 Normalization.combined_similarity v1 v2 c1 c2 w_s w_c = Err e).
Proof.
  split; [| split].
  - intros v (x & Hin & Hx).
    rewrite (cosine_similarity_defined v v eq_refl).
    assert (Hn : Np.norm v <> 0).
    { intros Hz. apply norm_zero_iff in Hz.
      apply (proj1 (List.Forall_forall _ _) Hz) in Hin. contradiction. }
    apply Reqb_false in Hn. rewrite Hn. cbn [orb]. f_equal.
    apply Reqb_false in Hn.
    replace (Np.sum (zip_with Rmult v v)) with (Np.norm v * Np.norm v); [field; exact Hn |].
    rewrite norm_sqr. clear. induction v as [|y v IH]; cbn; [reflexivity | rewrite IH; reflexivity].
  - intros v Hz. apply cosine_similarity_zero_norm; [reflexivity |].
    left. apply norm_zero_iff. exact Hz.
  - intros v1 v2 Hlen. unfold Normalization.combined_similarity, Normalization.cosine_similarity, Np.dot.
    apply Nat.eqb_neq in Hlen. rewrite Hlen. eexists. split; reflexivity.
Qed.

Lemma cosine_similarity_self_and_mismatch_witness :
  Normalization.cosine_similarity [0; 2] [0; 2] = Ok 1 /\
  Normalization.cosine_similarity [0; 0] [0; 0] = Ok 0 /\
  exists e, Normalization.cosine_similarity [1] [1; 2] = Err e.
Proof.
  destruct cosine_similarity_self_and_mismatch as (Hs & Hz & Hm).
  split; [| split].
  - apply Hs. exists 2. split; [right; left; reflexivity | lra].
  - apply Hz. repeat apply List.Forall_cons; try reflexivity. apply List.Forall_nil.
  - destruct (Hm [1] [1; 2]) as (e & He & _); [cbn; lia |]. exists e. exact He.
Defined.

(** ** Normalization *)

Lemma sum_squares_scaled (v : Np.ndarray) (c : R) :
  c <> 0 ->
  Np.sum (map (fun x => x * x) (map (fun x => x / c) v)) =
  Np.sum (map (fun x => x * x) v) / (c * c).
Proof.
  intros Hc. induction v as [|x v IH]; cbn [map Np.sum]; [field; exact Hc |].
  rewrite IH. field. exact Hc.
Qed.

Lemma norm_scaled (v : Np.ndarray) (c : R) :
  0 < c -> Np.norm (map (fun x => x / c) v) = Np.norm v / c.
Proof.
  intros Hc. unfold Np.norm. rewrite sum_squares_scaled by lra.
  rewrite sqrt_div_alt by nra. rewrite sqrt_square by lra. reflexivity.
Qed.

(** X3. For a positive [epsilon], [l2_normalize] keeps the length of the
    vector and maps an all-zero vector to itself instead of dividing by
    zero; in exact arithmetic, where nothing is rounded, it returns a
    vector of norm at most 1, and of norm exactly 1 when the input's norm
    is at least [epsilon]. *)
Theorem l2_normalize_unit_norm (v : Np.ndarray) (epsilon : R) :
  0 < epsilon ->
  length (Normalization.l2_normalize v epsilon) = length v /\
  Np.norm (Normalization.l2_normalize v epsilon) <= 1 /\
  (epsilon <= Np.norm v -> Np.norm (Normalization.l2_normalize v epsilon) = 1) /\
  (Forall (fun x => x = 0) v -> Normalization.l2_normalize v epsilon = v).
Proof.
  intros Heps. unfold Normalization.l2_normalize.
  pose proof (norm_nonneg v) as Hn.
  assert (Hmax : 0 < Rmax (Np.norm v) epsilon).
  { unfold Rmax. destruct (Rle_dec _ _); lra. }
  split; [apply length_map |].
  rewrite norm_scaled by exact Hmax.
  split; [| split].
  - apply (Rmult_le_reg_r (Rmax (Np.norm v) epsilon)); [exact Hmax |].
    unfold Rdiv. rewrite Rmult_assoc, Rinv_l by lra.
    pose proof (Rmax_l (Np.norm v) epsilon). lra.
  - intros Hle. rewrite Rmax_left by exact Hle. field. lra.
  - intros Hz. generalize (Rmax (Np.norm v) epsilon). intros c. clear Hn Hmax.
    induction Hz as [|x v' -> _ IH]; [reflexivity |].
    cbn [map]. rewrite IH. f_equal. unfold Rdiv. apply Rmult_0_l.
Qed.

Lemma l2_normalize_unit_norm_witness :
  length (Normalization.l2_normalize [3; 4] Normalization.default_epsilon) = 2%nat /\
  Np.norm (Normalization.l2_normalize [3; 4] Normalization.default_epsilon) <= 1 /\
  (Normalization.default_epsilon <= Np.norm [3; 4] ->
   Np.norm (Normalization.l2_normalize [3; 4] Normalization.default_epsilon) = 1) /\
  (Forall (fun x => x = 0) [3; 4] ->
   Normalization.l2_normalize [3; 4] Normalization.default_epsilon = [3; 4]).
Proof.
  apply (l2_normalize_unit_norm [3; 4] Normalization.default_epsilon).
  unfold Normalization.default_epsilon. apply Rinv_0_lt_compat. apply pow_lt. lra.
Defined.

Lemma fold_min_le (v : Np.ndarray) (x : R) :
  fold_left Rmin v x <= x /\ Forall (fun y => fold_left Rmin v x <= y) v.
Proof.
  revert x. induction v as [|y v IH]; intros x; cbn [fold_left]; [split; [lra | constructor] |].
  destruct (IH (Rmin x y)) as [H1 H2].
  pose proof (Rmin_l x y). pose proof (Rmin_r x y).
  split; [lra |]. constructor; [lra | exact H2].
Qed.

Lemma fold_max_ge (v : Np.ndarray) (x : R) :
  x <= fold_left Rmax v x /\ Forall (fun y => y <= fold_left Rmax v x) v.
Proof.
  revert x. induction v as [|y v IH]; intros x; cbn [fold_left]; [split; [lra | constructor] |].
  destruct (IH (Rmax x y)) as [H1 H2].
  pose proof (Rmax_l x y). pose proof (Rmax_r x y).
  split; [lra |]. constructor; [lra | exact H2].
Qed.

(** X4. [min_max_normalize] raises on an empty array; on a non-empty one,
    with a feature range [(lo, hi)], [lo <= hi], it returns an array of the
    same length, and an array whose entries are all equal is mapped to
    [lo] everywhere (the zero range is replaced by 1 instead of dividing
    by zero); in exact arithmetic, where nothing is rounded, the entries
    of the result all lie between [lo] and [hi]. *)
Theorem min_max_normalize_range :
  (forall feature_range, exists e, Normalization.min_max_normalize [] feature_range = Err e) /\
  (forall v lo hi, v <> [] -> lo <= hi ->
     exists out,
       Normalization.min_max_normalize v (lo, hi) = Ok out /\
       length out = length v /\
       Forall (fun y => lo <= y <= hi) out /\
       ((exists c, Forall (fun x => x = c) v) -> Forall (fun y => y = lo) out)).
Proof.
  split; [intros; eexists; reflexivity |].
  intros v lo hi Hne Hle. destruct v as [|x0 v0]; [congruence |].
  unfold Normalization.min_max_normalize.
  cbn [Np.amin Np.amax mbind result_bind fst snd].
  set (v := x0 :: v0). set (mn := fold_left Rmin v0 x0). set (mx := fold_left Rmax v0 x0).
  assert (Hmn : Forall (fun y => mn <= y) v).
  { destruct (fold_min_le v0 x0) as [H1 H2]. constructor; assumption. }
  assert (Hmx : Forall (fun y => y <= mx) v).
  { destruct (fold_max_ge v0 x0) as [H1 H2]. constructor; assumption. }
  assert (Hbetween : Forall (fun y => mn <= y <= mx) v).
  { apply List.Forall_forall. intros y Hy. split.
    - exact (proj1 (List.Forall_forall _ _) Hmn y Hy).
    - exact (proj1 (List.Forall_forall _ _) Hmx y Hy). }
  assert (Hrange : mn <= mx).
  { inversion Hbetween; subst. lra. }
  eexists. split; [reflexivity |]. rewrite !length_map.
  split; [reflexivity |]. split.
  - apply List.Forall_forall. intros y Hy.
    apply in_map_iff in Hy. destruct Hy as (t & <- & Ht).
    apply in_map_iff in Ht. destruct Ht as (x & <- & Hx).
    apply (proj1 (List.Forall_forall _ _) Hbetween) in Hx.
    float_cases.
    + replace (x - mn) with 0 by lra. unfold Rdiv. rewrite Rmult_0_l, Rmult_0_l. lra.
    + assert (Hr : 0 < mx - mn) by lra.
      assert (Ht : 0 <= (x - mn) / (mx - mn) <= 1).
      { split.
        - apply Rmult_le_pos; [lra | left; apply Rinv_0_lt_compat; exact Hr].
        - apply (Rmult_le_reg_r (mx - mn)); [exact Hr |].
          unfold Rdiv. rewrite Rmult_assoc, Rinv_l by lra. lra. }
      nra.
  - intros [c Hc]. apply List.Forall_forall. intros y Hy.
    apply in_map_iff in Hy. destruct Hy as (t & <- & Ht).
    apply in_map_iff in Ht. destruct Ht as (x & <- & Hx).
    assert (Hall : forall z, In z v -> z = c) by (apply List.Forall_forall; exact Hc).
    assert (Hx0 : x0 = c) by (apply Hall; left; reflexivity).
    assert (Hxc : x = c) by (apply Hall; exact Hx).
    assert (Hmnc : mn = c).
    { subst mn. clear -Hall Hx0. subst x0.
      assert (Hv0 : forall z, In z v0 -> z = c) by (intros z Hz; apply Hall; right; exact Hz).
      clear Hall. induction v0 as [|z v0 IH]; [reflexivity |]. cbn [fold_left].
      rewrite (Hv0 z) by (left; reflexivity). rewrite Rmin_left by lra.
      apply IH. intros w Hw. apply Hv0. right. exact Hw. }
    replace (x - mn) with 0 by lra. unfold Rdiv.
    destruct (Np.Reqb (mx - mn) 0); rewrite Rmult_0_l, Rmult_0_l; lra.
Qed.

Lemma min_max_normalize_range_witness :
  exists out,
    Normalization.min_max_normalize [2; 5; 3] (0, 1) = Ok out /\
    length out = 3%nat /\
    Forall (fun y => 0 <= y <= 1) out /\
    ((exists c, Forall (fun x => x = c) [2; 5; 3]) -> Forall (fun y => y = 0) out).
Proof.
  apply (proj2 min_max_normalize_range [2; 5; 3] 0 1); [discriminate | lra].
Defined.

Lemma sum_map_affine (v : Np.ndarray) (m s : R) :
  Np.sum (map (fun x => (x - m) / s) v) = (Np.sum v - INR (length v) * m) / s.
Proof.
  induction v as [|x v IH]; [cbn; unfold Rdiv; lra |].
  cbn [map Np.sum length]. rewrite S_INR, IH. unfold Rdiv. lra.
Qed.

(** X5. [standardize] keeps the length of the vector.  In exact
    arithmetic, where nothing is rounded, it returns on a non-empty vector
    a vector whose mean is zero, for every [epsilon], and for a constant
    vector (standard deviation zero) the positive [epsilon] replaces the
    deviation and the result is all zeros. *)
Theorem standardize_zero_mean (v : Np.ndarray) (epsilon : R) :
  v <> [] ->
  length (Normalization.standardize v epsilon) = length v /\
  Np.mean (Normalization.standardize v epsilon) = 0 /\
  (0 < epsilon -> (exists c, Forall (fun x => x = c) v) ->
   Forall (fun y => y = 0) (Normalization.standardize v epsilon)).
Proof.
  intros Hne. unfold Normalization.standardize.
  assert (Hlen : 0 < INR (length v)).
  { destruct v; [congruence |]. apply lt_0_INR. cbn. lia. }
  split; [apply length_map |]. split.
  - unfold Np.mean at 1. rewrite sum_map_affine, length_map.
    unfold Np.mean.
    replace (Np.sum v - INR (length v) * (Np.sum v / INR (length v))) with 0 by (field; lra).
    unfold Rdiv. rewrite !Rmult_0_l. reflexivity.
  - intros Heps [c Hc].
    assert (Hmean : Np.mean v = c).
    { unfold Np.mean. rewrite (sum_constant c v Hc). field. lra. }
    rewrite Hmean. apply List.Forall_forall. intros y Hy.
    apply in_map_iff in Hy. destruct Hy as (x & <- & Hx).
    apply (proj1 (List.Forall_forall _ _) Hc) in Hx. subst x.
    replace (c - c) with 0 by lra. unfold Rdiv. apply Rmult_0_l.
Qed.

Lemma standardize_zero_mean_witness :
  length (Normalization.standardize [1; 2; 6] Normalization.default_epsilon) = 3%nat /\
  Np.mean (Normalization.standardize [1; 2; 6] Normalization.default_epsilon) = 0 /\
  (0 < Normalization.default_epsilon -> (exists c, Forall (fun x => x = c) [1; 2; 6]) ->
   Forall (fun y => y = 0) (Normalization.standardize [1; 2; 6] Normalization.default_epsilon)).
Proof. apply (standardize_zero_mean [1; 2; 6]). discriminate. Defined.

Lemma sum_squares_diff_comm (a b : Np.ndarray) :
  Np.sum (map (fun x => x * x) (zip_with Rminus a b)) =
  Np.sum (map (fun x => x * x) (zip_with Rminus b a)).
Proof.
  revert b. induction a as [|x a IH]; intros [|y b]; cbn; try reflexivity.
  rewrite IH. ring.
Qed.

(** X6. [euclidean_distance] between vectors of the same length is
    defined, symmetric and not negative, and zero for equal vectors; in
    exact arithmetic, where nothing is rounded and nothing underflows, it
    is zero only for equal vectors; and two vectors of different lengths,
    neither of length one, make it raise (numpy cannot broadcast them). *)
Theorem euclidean_distance_metric :
  (forall v1 v2, length v1 = length v2 ->
     exists d,
       Normalization.euclidean_distance v1 v2 = Ok d /\
       Normalization.euclidean_distance v2 v1 = Ok d /\
       0 <= d /\ (d = 0 <-> v1 = v2)) /\
  (forall v1 v2, length v1 <> length v2 -> length v1 <> 1%nat -> length v2 <> 1%nat ->
     exists e, Normalization.euclidean_distance v1 v2 = Err e).
Proof.
  split.
  - intros v1 v2 Hlen. unfold Normalization.euclidean_distance.
    rewrite (elementwise_same_length _ v1 v2 Hlen),
      (elementwise_same_length _ v2 v1 (eq_sym Hlen)).
    cbn [mbind result_bind].
    exists (Np.norm (zip_with Rminus v1 v2)).
    split; [reflexivity |]. split.
    + unfold Np.norm. rewrite (sum_squares_diff_comm v2 v1). reflexivity.
    + split; [apply norm_nonneg |].
      rewrite norm_zero_iff. clear -Hlen.
      revert v2 Hlen. induction v1 as [|x v1 IH]; intros [|y v2] Hlen; try discriminate.
      * split; [reflexivity | constructor].
      * cbn [zip_with]. injection Hlen as Hlen. specialize (IH v2 Hlen). split.
        -- intros H. inversion H as [|? ? Hxy Hrest]; subst.
           f_equal; [lra | apply IH; exact Hrest].
        -- intros [= -> ->]. constructor; [lra | apply IH; reflexivity].
  - intros v1 v2 Hlen H1 H2. unfold Normalization.euclidean_distance, Np.elementwise.
    apply Nat.eqb_neq in Hlen. rewrite Hlen.
    destruct v1 as [|x [|x' v1]]; destruct v2 as [|y [|y' v2]];
      cbn in H1, H2; try congruence; eexists; reflexivity.
Qed.

Lemma euclidean_distance_metric_witness :
  (exists d,
     Normalization.euclidean_distance [0; 3] [4; 0] = Ok d /\
     Normalization.euclidean_distance [4; 0] [0; 3] = Ok d /\
     0 <= d /\ (d = 0 <-> [0; 3] = [4; 0])) /\
  (exists e, Normalization.euclidean_distance [1; 2] [1; 2; 3] = Err e).
Proof.
  split.
  - apply (proj1 euclidean_distance_metric [0; 3] [4; 0]). reflexivity.
  - apply (proj2 euclidean_distance_metric [1; 2] [1; 2; 3]); cbn; lia.
Defined.

Lemma combined_symmetric_and_bounded (sem1 sem2 cov1 cov2 : Np.ndarray) (w_s w_c : R) :
  length sem1 = length sem2 -> length cov1 = length cov2 ->
  exists scores,
    Normalization.combined_similarity sem1 sem2 cov1 cov2 w_s w_c = Ok scores /\
    Normalization.combined_similarity sem2 sem1 cov2 cov1 w_s w_c = Ok scores /\
    (0 <= w_s -> 0 <= w_c -> w_s + w_c = 1 -> -1 <= Normalization.combined scores <= 1).
Proof.
  intros Hs Hc.
  destruct (cosine_symmetric_and_bounded sem1 sem2 Hs) as (s & Hs1 & Hs2 & Hsb).
  destruct (cosine_symmetric_and_bounded cov1 cov2 Hc) as (c & Hc1 & Hc2 & Hcb).
  unfold Normalization.combined_similarity. rewrite Hs1, Hs2, Hc1, Hc2.
  cbn [mbind result_bind]. eexists. split; [reflexivity |]. split; [reflexivity |].
  cbn [Normalization.combined]. intros Hws Hwc Hsum. nra.
Qed.

(** X7. For semantic vectors of one length and coverage vectors of one
    length, [combined_similarity] gives the same scores when the two tests
    are exchanged; in exact arithmetic, where nothing is rounded, the
    combined score lies between -1 and 1 when the two weights are not
    negative and sum to 1 (as the defaults 0.7 and 0.3 do). *)
Theorem combined_similarity_symmetric_bounded
    (sem1 sem2 cov1 cov2 : Np.ndarray) (w_s w_c : R) :
  length sem1 = length sem2 -> length cov1 = length cov2 ->
  exists scores,
    Normalization.combined_similarity sem1 sem2 cov1 cov2 w_s w_c = Ok scores /\
    Normalization.combined_similarity sem2 sem1 cov2 cov1 w_s w_c = Ok scores /\
    (0 <= w_s -> 0 <= w_c -> w_s + w_c = 1 -> -1 <= Normalization.combined scores <= 1).
Proof. apply combined_symmetric_and_bounded. Qed.

Lemma combined_similarity_symmetric_bounded_witness :
  exists scores,
    Normalization.combined_similarity [1; 0] [1; 1] [0; 1] [1; 1]
      Normalization.default_semantic_weight Normalization.default_coverage_weight = Ok scores /\
    Normalization.combined_similarity [1; 1] [1; 0] [1; 1] [0; 1]
      Normalization.default_semantic_weight Normalization.default_coverage_weight = Ok scores /\
    (0 <= Normalization.default_semantic_weight -> 0 <= Normalization.default_coverage_weight ->
     Normalization.default_semantic_weight + Normalization.default_coverage_weight = 1 ->
     -1 <= Normalization.combined scores <= 1).
Proof.
  apply (combined_similarity_symmetric_bounded [1; 0] [1; 1] [0; 1] [1; 1]); reflexivity.
Defined.

(** ** Feature vectors and matrices *)

(** X8. [split_features] raises InvalidInput exactly when the vector's
    length is not [semantic_dim + coverage_dim]; otherwise it returns two
    vectors of lengths [semantic_dim] and [coverage_dim] whose
    concatenation is the vector it was given. *)
Theorem split_features_inverse (self : Features.FeatureCombiner) (combined : Np.ndarray) :
  (length combined <> Features.total_dim self ->
   exists msg, Features.split_features self combined = Err (InvalidInput msg)) /\
  (length combined = Features.total_dim self ->
   exists sem cov,
     Features.split_features self combined = Ok (sem, cov) /\
     length sem = Features.semantic_dim self /\
     length cov = Features.coverage_dim self /\
     (sem ++ cov)%list = combined).
Proof.
  unfold Features.split_features. split; intros Hlen.
  - apply Nat.eqb_neq in Hlen. rewrite Hlen. cbn [negb]. eexists. reflexivity.
  - pose proof Hlen as Hlen'. apply Nat.eqb_eq in Hlen'. rewrite Hlen'. cbn [negb].
    eexists. eexists. split; [reflexivity |].
    unfold Features.total_dim in Hlen.
    split; [rewrite length_take; lia |].
    split; [rewrite length_drop; lia | apply take_drop].
Qed.

Lemma split_features_inverse_witness :
  (exists msg, Features.split_features (Features.init true) [1; 2; 3] = Err (InvalidInput msg)) /\
  (exists sem cov,
     Features.split_features
       {| Features.semantic_dim := 1; Features.coverage_dim := 2; Features.normalize := true |}
       [1; 2; 3] = Ok (sem, cov) /\
     length sem = 1%nat /\ length cov = 2%nat /\ (sem ++ cov)%list = [1; 2; 3]).
Proof.
  split.
  - apply (proj1 (split_features_inverse (Features.init true) [1; 2; 3])). cbn. lia.
  - apply (proj2 (split_features_inverse
                    {| Features.semantic_dim := 1; Features.coverage_dim := 2;
                       Features.normalize := true |} [1; 2; 3])).
    reflexivity.
Defined.

Lemma insert_sorted_Permutation (x : string) (l : list string) :
  Permutation (Vectorizers.insert_sorted x l) (x :: l).
Proof.
  induction l as [|y l IH]; cbn; [reflexivity |].
  destruct (String.leb x y); [reflexivity |].
  rewrite IH. apply perm_swap.
Qed.

Lemma sorted_Permutation (l : list string) : Permutation (Vectorizers.sorted l) l.
Proof.
  induction l as [|x l IH]; cbn; [reflexivity |].
  rewrite insert_sorted_Permutation, IH. reflexivity.
Qed.

Lemma vectors_to_dict_lookup (vectors acc : gmap string Np.ndarray) (names : list string) :
  forall name,
    fold_left (fun (d : gmap string Np.ndarray) (nr : string * Np.ndarray) =>
                 <[fst nr := snd nr]> d)
      (zip names (map (fun test => default [] (vectors !! test)) names)) acc !! name =
    if decide (name ∈ names) then Some (default [] (vectors !! name)) else acc !! name.
Proof.
  revert acc. induction names as [|t names IH]; intros acc name.
  - cbn. destruct (decide (name ∈ [])) as [Hin | _]; [inversion Hin | reflexivity].
  - cbn [map zip zip_with fold_left fst snd]. rewrite IH.
    destruct (decide (name ∈ names)) as [Hin | Hnin].
    + rewrite decide_True by (right; exact Hin). reflexivity.
    + destruct (decide (name = t)) as [-> | Hne].
      * rewrite decide_True by left. apply lookup_insert_eq.
      * rewrite decide_False; [apply lookup_insert_ne; congruence |].
        intros Hin. apply elem_of_cons in Hin. tauto.
Qed.

(** X9. A non-empty map of vectors that all have the same length survives
    the round trip through a matrix: [prepare_matrix] with the default
    order succeeds, has one row per test, and [vectors_to_dict] of its
    matrix and names is the original map.  A requested order that names a
    test without a vector raises InvalidInput, and so does
    [vectors_to_dict] when the numbers of rows and names differ. *)
Theorem prepare_matrix_round_trip :
  (forall (vectors : gmap string Np.ndarray) (n : nat),
     vectors <> ∅ ->
     (forall name v, vectors !! name = Some v -> length v = n) ->
     exists matrix names,
       FeatureMatrix.prepare_matrix vectors None = Ok (matrix, names) /\
       length matrix = size vectors /\
       Features.vectors_to_dict matrix names = Ok vectors) /\
  (forall (vectors : gmap string Np.ndarray) order name,
     In name order -> vectors !! name = None ->
     exists msg, FeatureMatrix.prepare_matrix vectors (Some order) = Err (InvalidInput msg)) /\
  (forall matrix names, length matrix <> length names ->
     exists msg, Features.vectors_to_dict matrix names = Err (InvalidInput msg)).
Proof.
  split; [| split].
  - intros vectors n Hne Hlen. unfold FeatureMatrix.prepare_matrix.
    unfold Np.ndarray in *.
    set (names := Vectorizers.sorted (elements (dom vectors))).
    assert (Hperm : Permutation names (elements (dom vectors))) by apply sorted_Permutation.
    assert (Hin : forall t, t ∈ names <-> is_Some (vectors !! t)).
    { intros t. rewrite Hperm, elem_of_elements, elem_of_dom. reflexivity. }
    assert (Hmissing :
              List.filter (fun test => match vectors !! test with Some _ => false | None => true end)
                          names = []).
    { assert (Hall : forall t, In t names -> is_Some (vectors !! t)).
      { intros t Ht. apply Hin. apply list_elem_of_In. exact Ht. }
      clear -Hall. induction names as [|t names IH]; [reflexivity |].
      cbn [List.filter]. destruct (Hall t (or_introl eq_refl)) as [v ->].
      apply IH. intros t' Ht'. apply Hall. right. exact Ht'. }
    rewrite Hmissing.
    set (rows := map (fun test => default [] (vectors !! test)) names).
    assert (Hrows : Forall (fun r => length r = n) rows).
    { apply List.Forall_forall. intros r Hr. apply in_map_iff in Hr.
      destruct Hr as (t & <- & Ht). apply list_elem_of_In, Hin in Ht.
      destruct Ht as [v Hv]. rewrite Hv. cbn. eauto. }
    assert (Hsize : length rows = size vectors).
    { subst rows. rewrite length_map, (Permutation_length Hperm).
      rewrite <- size_dom. reflexivity. }
    assert (Hstack : FeatureMatrix.vstack rows = Ok rows).
    { unfold FeatureMatrix.vstack. destruct rows as [|r rows'] eqn:Er.
      - exfalso. apply Hne. apply map_size_empty_inv. cbn in Hsize. lia.
      - inversion Hrows as [|? ? Hr Hrest]; subst.
        replace (forallb (fun r0 => (length r0 =? length r)%nat) rows') with true; [reflexivity |].
        symmetry. apply forallb_forall. intros r' Hr'.
        apply (proj1 (List.Forall_forall _ _) Hrest) in Hr'. rewrite Hr'. apply Nat.eqb_refl. }
    rewrite Hstack. cbn [mbind result_bind].
    exists rows, names. split; [reflexivity |]. split; [exact Hsize |].
    unfold Features.vectors_to_dict. unfold Np.ndarray.
    replace (length rows =? length names)%nat with true
      by (symmetry; apply Nat.eqb_eq; subst rows; apply length_map).
    cbn [negb]. f_equal. apply map_eq. intros name.
    subst rows. pose proof (vectors_to_dict_lookup vectors ∅ names name) as Hl.
    unfold Np.ndarray in Hl. rewrite Hl.
    destruct (decide (name ∈ names)) as [Hn | Hn].
    + apply Hin in Hn. destruct Hn as [v Hv]. rewrite Hv. reflexivity.
    + rewrite lookup_empty. symmetry. apply eq_None_not_Some. rewrite <- Hin. exact Hn.
  - intros vectors order name Hin Hnone. unfold FeatureMatrix.prepare_matrix.
    destruct (List.filter _ order) as [|t l] eqn:Ef; [| eexists; reflexivity].
    exfalso.
    assert (Hf : In name (List.filter
                (fun test => match vectors !! test with Some _ => false | None => true end) order)).
    { apply filter_In. split; [exact Hin |]. rewrite Hnone. reflexivity. }
    rewrite Ef in Hf. destruct Hf.
  - intros matrix names Hlen. unfold Features.vectors_to_dict.
    apply Nat.eqb_neq in Hlen. rewrite Hlen. cbn [negb]. eexists. reflexivity.
Qed.

Lemma prepare_matrix_round_trip_witness :
  exists matrix names,
    FeatureMatrix.prepare_matrix {[ "b" := [1; 2]; "a" := [3; 4] ]} None = Ok (matrix, names) /\
    length matrix = size ({[ "b" := [1; 2]; "a" := [3; 4] ]} : gmap string Np.ndarray) /\
    Features.vectors_to_dict matrix names = Ok {[ "b" := [1; 2]; "a" := [3; 4] ]}.
Proof.
  apply (proj1 prepare_matrix_round_trip {[ "b" := [1; 2]; "a" := [3; 4] ]} 2%nat).
  - intros H. apply (f_equal (fun m : gmap string Np.ndarray => m !! "b")) in H.
    rewrite lookup_insert_eq, lookup_empty in H. discriminate.
  - intros name v Hv.
    apply lookup_insert_Some in Hv. destruct Hv as [[_ <-] | [_ Hv]]; [reflexivity |].
    apply lookup_singleton_Some in Hv. destruct Hv as [_ <-]. reflexivity.
Defined.

(** ** Coverage fingerprints *)

Lemma lookup_repeat {A : Type} (x : A) (n i : nat) :
  (i < n)%nat -> repeat x n !! i = Some x.
Proof.
  revert i. induction n as [|n IH]; intros i Hi; [lia |].
  destruct i as [|i]; [reflexivity |]. cbn. apply IH. lia.
Qed.

Section FingerprintProperties.

Variable hash_value : string -> nat -> nat -> nat.
Variable self : Fingerprints.CoverageFingerprintGenerator.

(** What the two loops compute when nothing is raised. *)
Let positions (line : string) : list nat :=
  map (fun i => (hash_value line (Fingerprints.seed self) i mod Fingerprints.fingerprint_size self)%nat)
      (seq 0 (Fingerprints.num_hashes self)).
Let generate (lines : list string) : list R :=
  fold_left (fun (fp : list R) (line : string) => Fingerprints.set_bits (positions line) fp)
            lines (Np.zeros (Fingerprints.fingerprint_size self)).

Lemma hash_positions_ok (line : string) (hashes : list nat) :
  (0 < Fingerprints.fingerprint_size self)%nat ->
  Fingerprints.hash_positions hash_value self line hashes =
    Ok (map (fun i => (hash_value line (Fingerprints.seed self) i
                       mod Fingerprints.fingerprint_size self)%nat) hashes).
Proof.
  intros Hsize. induction hashes as [|i hashes IH]; [reflexivity |].
  cbn [Fingerprints.hash_positions map]. unfold Fingerprints.position_of.
  destruct (Nat.eqb_spec (Fingerprints.fingerprint_size self) 0%nat) as [Hz | _]; [lia |].
  cbn [mbind result_bind]. rewrite IH. reflexivity.
Qed.

Lemma get_hash_positions_ok (line : string) :
  (0 < Fingerprints.fingerprint_size self)%nat ->
  Fingerprints._get_hash_positions hash_value self line = Ok (positions line).
Proof. intros Hsize. apply hash_positions_ok. exact Hsize. Qed.

Lemma get_hash_positions_zero_size (line : string) :
  Fingerprints.fingerprint_size self = 0%nat -> (0 < Fingerprints.num_hashes self)%nat ->
  Fingerprints._get_hash_positions hash_value self line =
    Err (ZeroDivisionError "integer modulo by zero").
Proof.
  intros Hz Hk. unfold Fingerprints._get_hash_positions.
  destruct (Fingerprints.num_hashes self) as [|k]; [lia |].
  cbn [seq Fingerprints.hash_positions]. unfold Fingerprints.position_of.
  rewrite Hz. reflexivity.
Qed.

Lemma get_hash_positions_no_hash (line : string) :
  Fingerprints.num_hashes self = 0%nat ->
  Fingerprints._get_hash_positions hash_value self line = Ok [].
Proof. intros Hk. unfold Fingerprints._get_hash_positions. rewrite Hk. reflexivity. Qed.

Lemma generate_loop_ok (lines : list string) (fp : list R) :
  (0 < Fingerprints.fingerprint_size self)%nat ->
  Fingerprints.generate_loop hash_value self lines fp =
    Ok (fold_left (fun (fp : list R) (line : string) =>
                     Fingerprints.set_bits (positions line) fp) lines fp).
Proof.
  intros Hsize. revert fp. induction lines as [|line lines IH]; intros fp; [reflexivity |].
  cbn [Fingerprints.generate_loop fold_left]. rewrite (get_hash_positions_ok line Hsize).
  cbn [mbind result_bind]. apply IH.
Qed.

Lemma generate_fingerprint_ok (lines : list string) :
  (0 < Fingerprints.fingerprint_size self)%nat ->
  Fingerprints.generate_fingerprint hash_value self lines = Ok (generate lines).
Proof. intros Hsize. apply generate_loop_ok. exact Hsize. Qed.

Lemma generate_loop_no_hash (lines : list string) (fp : list R) :
  Fingerprints.num_hashes self = 0%nat ->
  Fingerprints.generate_loop hash_value self lines fp = Ok fp.
Proof.
  intros Hk. revert fp. induction lines as [|line lines IH]; intros fp; [reflexivity |].
  cbn [Fingerprints.generate_loop]. rewrite (get_hash_positions_no_hash line Hk).
  cbn [mbind result_bind]. apply IH.
Qed.

Lemma generate_fingerprint_zero_size (lines : list string) :
  Fingerprints.fingerprint_size self = 0%nat -> (0 < Fingerprints.num_hashes self)%nat ->
  lines <> [] ->
  Fingerprints.generate_fingerprint hash_value self lines =
    Err (ZeroDivisionError "integer modulo by zero").
Proof.
  intros Hz Hk Hne. destruct lines as [|line lines]; [congruence |].
  unfold Fingerprints.generate_fingerprint. cbn [Fingerprints.generate_loop].
  rewrite (get_hash_positions_zero_size line Hz Hk). reflexivity.
Qed.

Lemma set_bits_length (ps : list nat) (fp : list R) :
  length (Fingerprints.set_bits ps fp) = length fp.
Proof.
  revert fp. induction ps as [|p ps IH]; intros fp; [reflexivity |].
  unfold Fingerprints.set_bits, Np.ndarray in *. cbn [fold_left]. rewrite IH.
  apply length_insert.
Qed.

Lemma set_bits_lookup (ps : list nat) (fp : list R) (p : nat) :
  (p < length fp)%nat ->
  Fingerprints.set_bits ps fp !! p = if decide (p ∈ ps) then Some 1 else fp !! p.
Proof.
  revert fp. induction ps as [|q ps IH]; intros fp Hp.
  - cbn. destruct (decide (p ∈ [])) as [Hin | _]; [inversion Hin | reflexivity].
  - unfold Fingerprints.set_bits, Np.ndarray in *. cbn [fold_left].
    rewrite IH by (rewrite length_insert; exact Hp).
    destruct (decide (p ∈ ps)) as [Hin | Hnin].
    + rewrite decide_True by (right; exact Hin). reflexivity.
    + destruct (decide (p = q)) as [-> | Hne].
      * rewrite decide_True by left. apply list_lookup_insert_eq. exact Hp.
      * rewrite decide_False; [apply list_lookup_insert_ne; congruence |].
        intros Hin. apply elem_of_cons in Hin. tauto.
Qed.

Lemma generate_from_length (lines : list string) (fp : list R) :
  length (fold_left (fun (fp : list R) (line : string) =>
                       Fingerprints.set_bits (positions line) fp) lines fp) = length fp.
Proof.
  revert fp. induction lines as [|line lines IH]; intros fp; [reflexivity |].
  cbn [fold_left]. rewrite IH. apply set_bits_length.
Qed.

Lemma generate_from_lookup (lines : list string) (fp : list R) (p : nat) :
  (p < length fp)%nat ->
  fold_left (fun (fp : list R) (line : string) =>
               Fingerprints.set_bits (positions line) fp) lines fp !! p =
  if decide (Exists (fun line => p ∈ positions line) lines) then Some 1 else fp !! p.
Proof.
  revert fp. induction lines as [|line lines IH]; intros fp Hp.
  - cbn. destruct (decide (Exists _ [])) as [Hex | _]; [inversion Hex | reflexivity].
  - cbn [fold_left]. rewrite IH by (rewrite set_bits_length; exact Hp).
    destruct (decide (Exists (fun line => p ∈ positions line) lines)) as [Hex | Hnex].
    + rewrite decide_True by (apply Exists_cons_tl; exact Hex). reflexivity.
    + rewrite set_bits_lookup by exact Hp.
      destruct (decide (p ∈ positions line)) as [Hin | Hnin].
      * rewrite decide_True by (apply Exists_cons_hd; exact Hin). reflexivity.
      * rewrite decide_False; [reflexivity |].
        intros Hex. inversion Hex; subst; contradiction.
Qed.

Lemma generate_length (lines : list string) :
  length (generate lines) = Fingerprints.fingerprint_size self.
Proof.
  unfold generate. rewrite generate_from_length. apply repeat_length.
Qed.

Lemma generate_lookup (lines : list string) (p : nat) :
  (p < Fingerprints.fingerprint_size self)%nat ->
  generate lines !! p =
    Some (if decide (Exists (fun line => p ∈ positions line) lines) then 1 else 0).
Proof.
  intros Hp. unfold generate.
  rewrite generate_from_lookup by (unfold Np.zeros; rewrite repeat_length; exact Hp).
  destruct (decide _); [reflexivity |].
  unfold Np.zeros. apply lookup_repeat. exact Hp.
Qed.

Lemma positions_in_range (line : string) (p : nat) :
  (0 < Fingerprints.fingerprint_size self)%nat -> p ∈ positions line ->
  (p < Fingerprints.fingerprint_size self)%nat.
Proof.
  intros Hsize Hin. unfold positions in Hin.
  apply list_elem_of_In, in_map_iff in Hin. destruct Hin as (i & <- & _).
  apply Nat.mod_upper_bound. lia.
Qed.

Lemma generate_binary (lines : list string) : binary (generate lines).
Proof.
  apply List.Forall_forall. intros x Hx.
  apply list_elem_of_In, list_elem_of_lookup in Hx. destruct Hx as [p Hp].
  assert (Hlt : (p < Fingerprints.fingerprint_size self)%nat).
  { rewrite <- (generate_length lines). eapply lookup_lt_Some. exact Hp. }
  rewrite (generate_lookup lines p Hlt) in Hp. injection Hp as <-.
  destruct (decide _); [right | left]; reflexivity.
Qed.

Lemma generate_ext (lines lines' : list string) :
  (forall line, In line lines <-> In line lines') -> generate lines = generate lines'.
Proof.
  intros Hsame. apply list_eq. intros p.
  destruct (decide (p < Fingerprints.fingerprint_size self)%nat) as [Hp | Hp].
  - rewrite !generate_lookup by exact Hp. f_equal.
    assert (Hiff : Exists (fun line => p ∈ positions line) lines <->
                   Exists (fun line => p ∈ positions line) lines').
    { rewrite !List.Exists_exists. split; intros (l & Hl & Hpl); exists l; split;
        try exact Hpl; apply Hsame; exact Hl. }
    destruct (decide (Exists _ lines)), (decide (Exists _ lines')); tauto.
  - rewrite !lookup_ge_None_2; [reflexivity | |]; rewrite generate_length; lia.
Qed.

(** The fingerprint of a generator whose size is not zero, with the facts
    about it that the theorems below share. *)
Lemma generate_fingerprint_spec (lines : list string) :
  (0 < Fingerprints.fingerprint_size self)%nat ->
  exists fp : list R,
    Fingerprints.generate_fingerprint hash_value self lines = Ok fp /\
    length fp = Fingerprints.fingerprint_size self /\
    binary fp /\
    (forall line ps p,
       In line lines -> Fingerprints._get_hash_positions hash_value self line = Ok ps ->
       In p ps -> fp !! p = Some 1) /\
    (forall p, fp !! p = Some 1 ->
       exists line ps, In line lines /\
                       Fingerprints._get_hash_positions hash_value self line = Ok ps /\ In p ps).
Proof.
  intros Hsize. exists (generate lines).
  split; [apply generate_fingerprint_ok; exact Hsize |].
  split; [apply generate_length |]. split; [apply generate_binary |]. split.
  - intros line ps p Hline Hps Hp.
    rewrite (get_hash_positions_ok line Hsize) in Hps. injection Hps as <-.
    rewrite generate_lookup
      by (eapply positions_in_range; [exact Hsize | apply list_elem_of_In; exact Hp]).
    rewrite decide_True; [reflexivity |].
    apply List.Exists_exists. exists line. split; [exact Hline | apply list_elem_of_In; exact Hp].
  - intros p Hp.
    assert (Hlt : (p < Fingerprints.fingerprint_size self)%nat).
    { rewrite <- (generate_length lines). eapply lookup_lt_Some. exact Hp. }
    rewrite (generate_lookup _ _ Hlt) in Hp. injection Hp as Hp.
    destruct (decide _) as [Hex | _]; [| lra].
    apply List.Exists_exists in Hex. destruct Hex as (line & Hline & Hin).
    exists line, (positions line).
    split; [exact Hline |]. split; [apply get_hash_positions_ok; exact Hsize |].
    apply list_elem_of_In. exact Hin.
Qed.

Lemma generate_fingerprint_ext (lines lines' : list string) :
  (forall line, In line lines <-> In line lines') ->
  Fingerprints.generate_fingerprint hash_value self lines =
  Fingerprints.generate_fingerprint hash_value self lines'.
Proof.
  intros Hsame.
  destruct (Nat.eq_dec (Fingerprints.fingerprint_size self) 0%nat) as [Hz | Hnz].
  - destruct (Nat.eq_dec (Fingerprints.num_hashes self) 0%nat) as [Hk | Hk].
    + unfold Fingerprints.generate_fingerprint. rewrite !generate_loop_no_hash by exact Hk.
      reflexivity.
    + destruct lines as [|l1 lines], lines' as [|l2 lines'].
      * reflexivity.
      * exfalso. apply (proj2 (Hsame l2)). left. reflexivity.
      * exfalso. apply (proj1 (Hsame l1)). left. reflexivity.
      * rewrite !generate_fingerprint_zero_size; try exact Hz; try lia; try discriminate.
        reflexivity.
  - rewrite !generate_fingerprint_ok by lia. f_equal. apply generate_ext. exact Hsame.
Qed.

End FingerprintProperties.

(** X10. A generator whose fingerprint size is not zero always produces a
    fingerprint: it has [fingerprint_size] entries, each 0 or 1; every
    hash position of every covered line holds 1 (a covered line is never
    lost), and an entry holds 1 only if some covered line hashes to it.
    With a size of zero, a hash function and a covered line, the modulo
    raises [ZeroDivisionError] and no fingerprint is produced. *)
Theorem generate_fingerprint_bits hash_value self (covered_lines : list string) :
  ((0 < Fingerprints.fingerprint_size self)%nat ->
   exists fp : list R,
     Fingerprints.generate_fingerprint hash_value self covered_lines = Ok fp /\
     length fp = Fingerprints.fingerprint_size self /\
     binary fp /\
     (forall line ps p,
        In line covered_lines ->
        Fingerprints._get_hash_positions hash_value self line = Ok ps ->
        In p ps -> fp !! p = Some 1) /\
     (forall p, fp !! p = Some 1 ->
        exists line ps,
          In line covered_lines /\
          Fingerprints._get_hash_positions hash_value self line = Ok ps /\ In p ps)) /\
  (Fingerprints.fingerprint_size self = 0%nat -> (0 < Fingerprints.num_hashes self)%nat ->
   covered_lines <> [] ->
   Fingerprints.generate_fingerprint hash_value self covered_lines =
     Err (ZeroDivisionError "integer modulo by zero")).
Proof.
  split.
  - apply generate_fingerprint_spec.
  - apply generate_fingerprint_zero_size.
Qed.

Lemma generate_fingerprint_bits_witness :
  let self := {| Fingerprints.fingerprint_size := 8; Fingerprints.num_hashes := 2;
                 Fingerprints.seed := 42 |} in
  let hash_value := fun (line : string) (seed i : nat) => (String.length line + seed + i)%nat in
  exists fp : list R,
    Fingerprints.generate_fingerprint hash_value self ["a.php:1"; "b.php:22"] = Ok fp /\
    fp !! 1%nat = Some 1.
Proof.
  intros self hash_value.
  destruct (proj1 (generate_fingerprint_bits hash_value self ["a.php:1"; "b.php:22"])
              ltac:(cbn; lia)) as (fp & Hfp & _ & _ & Hset & _).
  exists fp. split; [exact Hfp |].
  apply (Hset "a.php:1" [1; 2]%nat 1%nat).
  - cbn. tauto.
  - reflexivity.
  - cbn. tauto.
Defined.

(** X11. The fingerprint depends only on the set of covered lines: two
    lists with the same members, in any order and with any repetitions,
    give the same fingerprint (so walking the Python set in any order
    gives the same result), or raise the same error. *)
Theorem generate_fingerprint_set_semantics hash_value self (lines lines' : list string) :
  (forall line, In line lines <-> In line lines') ->
  Fingerprints.generate_fingerprint hash_value self lines =
  Fingerprints.generate_fingerprint hash_value self lines'.
Proof. apply generate_fingerprint_ext. Qed.

Lemma generate_fingerprint_set_semantics_witness :
  Fingerprints.generate_fingerprint (fun line seed i => (String.length line + seed + i)%nat)
    {| Fingerprints.fingerprint_size := 8; Fingerprints.num_hashes := 2; Fingerprints.seed := 42 |}
    ["a.php:1"; "b.php:22"] =
  Fingerprints.generate_fingerprint (fun line seed i => (String.length line + seed + i)%nat)
    {| Fingerprints.fingerprint_size := 8; Fingerprints.num_hashes := 2; Fingerprints.seed := 42 |}
    ["b.php:22"; "a.php:1"; "b.php:22"].
Proof.
  apply generate_fingerprint_set_semantics. intros line. cbn. tauto.
Defined.

(** X12. For a generator whose fingerprint size is not zero, a fingerprint
    is generated and its coverage density lies between 0 and 1, and is 0
    when no line is covered. *)
Theorem coverage_density_bounds hash_value self (covered_lines : list string) :
  (0 < Fingerprints.fingerprint_size self)%nat ->
  exists fp,
    Fingerprints.generate_fingerprint hash_value self covered_lines = Ok fp /\
    0 <= Fingerprints.get_coverage_density self fp <= 1 /\
    (covered_lines = [] -> Fingerprints.get_coverage_density self fp = 0).
Proof.
  intros Hsize.
  destruct (generate_fingerprint_spec hash_value self covered_lines Hsize)
    as (fp & Hfp & Hl & Hb & _).
  exists fp. split; [exact Hfp |]. unfold Fingerprints.get_coverage_density.
  pose proof (binary_sum_nonneg fp Hb) as H0.
  pose proof (binary_sum_le_length fp Hb) as H1. rewrite Hl in H1.
  assert (Hn : 0 < INR (Fingerprints.fingerprint_size self)) by (apply lt_0_INR; exact Hsize).
  split; [split |].
  - apply Rmult_le_pos; [exact H0 | left; apply Rinv_0_lt_compat; exact Hn].
  - apply (Rmult_le_reg_r (INR (Fingerprints.fingerprint_size self))); [exact Hn |].
    unfold Rdiv. rewrite Rmult_assoc, Rinv_l by lra. lra.
  - intros ->. unfold Fingerprints.generate_fingerprint in Hfp. cbn in Hfp.
    injection Hfp as <-.
    unfold Np.zeros. rewrite sum_repeat. unfold Rdiv. rewrite Rmult_0_r, Rmult_0_l. reflexivity.
Qed.

Lemma coverage_density_bounds_witness :
  let self := {| Fingerprints.fingerprint_size := 8; Fingerprints.num_hashes := 2;
                 Fingerprints.seed := 42 |} in
  exists fp,
    Fingerprints.generate_fingerprint
      (fun line seed i => (String.length line + seed + i)%nat) self ["a.php:1"] = Ok fp /\
    0 <= Fingerprints.get_coverage_density self fp <= 1 /\
    (["a.php:1"] = [] -> Fingerprints.get_coverage_density self fp = 0).
Proof.
  intros self.
  apply (coverage_density_bounds (fun line seed i => (String.length line + seed + i)%nat) self
           ["a.php:1"]).
  cbn. lia.
Defined.

(** X13. For a generator whose fingerprint size is not zero, the
    estimated similarity of two fingerprints it produces is always
    defined, symmetric and between 0 and 1; two tests covering the same
    set of lines have similarity 1 (provided a line is covered and the
    generator has a hash function), and two tests covering nothing have
    similarity 0. *)
Theorem generated_fingerprints_similarity hash_value self (lines1 lines2 : list string) :
  (0 < Fingerprints.fingerprint_size self)%nat ->
  exists fp1 fp2,
    Fingerprints.generate_fingerprint hash_value self lines1 = Ok fp1 /\
    Fingerprints.generate_fingerprint hash_value self lines2 = Ok fp2 /\
    (exists r,
       Fingerprints.estimate_similarity fp1 fp2 = Ok r /\
       Fingerprints.estimate_similarity fp2 fp1 = Ok r /\ 0 <= r <= 1) /\
    ((forall line, In line lines1 <-> In line lines2) ->
     lines1 <> [] -> (0 < Fingerprints.num_hashes self)%nat ->
     Fingerprints.estimate_similarity fp1 fp2 = Ok 1) /\
    (lines1 = [] -> lines2 = [] -> Fingerprints.estimate_similarity fp1 fp2 = Ok 0).
Proof.
  intros Hsize.
  destruct (generate_fingerprint_spec hash_value self lines1 Hsize)
    as (fp1 & Hfp1 & Hl1 & Hb1 & Hset1 & _).
  destruct (generate_fingerprint_spec hash_value self lines2 Hsize)
    as (fp2 & Hfp2 & Hl2 & Hb2 & _).
  exists fp1, fp2. split; [exact Hfp1 |]. split; [exact Hfp2 |].
  assert (Hlen : length fp1 = length fp2) by congruence.
  split; [| split].
  - destruct (estimate_similarity_binary fp1 fp2 Hlen Hb1 Hb2) as (r & H1 & H2 & Hr & _).
    exists r. auto.
  - intros Hsame Hne Hk.
    assert (Heq : fp2 = fp1).
    { rewrite (generate_fingerprint_ext hash_value self lines1 lines2 Hsame) in Hfp1.
      congruence. }
    rewrite Heq.
    destruct (estimate_similarity_binary fp1 fp1 eq_refl Hb1 Hb1) as (r & _ & _ & _ & _ & Hself).
    apply Hself. exists 1. split; [| lra].
    destruct lines1 as [|line lines1]; [congruence |].
    destruct (Fingerprints._get_hash_positions hash_value self line) as [ps | e] eqn:Hps;
      [| rewrite get_hash_positions_ok in Hps by exact Hsize; discriminate].
    pose proof Hps as Hps'. rewrite get_hash_positions_ok in Hps' by exact Hsize.
    injection Hps' as Hps'.
    set (p := (hash_value line (Fingerprints.seed self) 0 mod Fingerprints.fingerprint_size self)%nat).
    assert (Hp : In p ps).
    { rewrite <- Hps'. apply in_map_iff. exists 0%nat.
      split; [reflexivity |]. apply in_seq. lia. }
    pose proof (Hset1 line ps p (or_introl eq_refl) Hps Hp) as Hone.
    apply list_elem_of_In. eapply list_elem_of_lookup_2. exact Hone.
  - intros -> ->. unfold Fingerprints.generate_fingerprint in Hfp1, Hfp2.
    cbn in Hfp1, Hfp2. injection Hfp1 as <-. injection Hfp2 as <-.
    unfold Fingerprints.estimate_similarity. rewrite !(elementwise_same_length _ _ _ eq_refl).
    cbn [mbind result_bind].
    replace (Np.sum (zip_with Rmax (Np.zeros (Fingerprints.fingerprint_size self))
                       (Np.zeros (Fingerprints.fingerprint_size self)))) with 0.
    + replace (Np.Reqb 0 0) with true by (symmetry; apply Reqb_true; reflexivity). reflexivity.
    + rewrite self_maximum. unfold Np.zeros. rewrite sum_repeat. lra.
Qed.

Lemma generated_fingerprints_similarity_witness :
  let self := {| Fingerprints.fingerprint_size := 8; Fingerprints.num_hashes := 2;
                 Fingerprints.seed := 42 |} in
  let hash_value := fun (line : string) (seed i : nat) => (String.length line + seed + i)%nat in
  exists fp1 fp2,
    Fingerprints.generate_fingerprint hash_value self ["a.php:1"; "b.php:22"] = Ok fp1 /\
    Fingerprints.generate_fingerprint hash_value self ["b.php:22"; "a.php:1"] = Ok fp2 /\
    Fingerprints.estimate_similarity fp1 fp2 = Ok 1.
Proof.
  intros self hash_value.
  destruct (generated_fingerprints_similarity hash_value self
              ["a.php:1"; "b.php:22"] ["b.php:22"; "a.php:1"] ltac:(cbn; lia))
    as (fp1 & fp2 & H1 & H2 & _ & Hsame & _).
  exists fp1, fp2. split; [exact H1 |]. split; [exact H2 |].
  apply Hsame.
  - intros line. cbn. tauto.
  - discriminate.
  - cbn. lia.
Defined.

(** ** Tokens *)

Lemma of_chars_length (l : list ascii) : String.length (Str.of_chars l) = length l.
Proof.
  unfold Str.of_chars. induction l as [|c l IH]; cbn; [reflexivity | rewrite IH; reflexivity].
Qed.

Lemma chars_length (s : string) : length (Str.chars s) = String.length s.
Proof.
  unfold Str.chars. induction s as [|c s IH]; cbn; [reflexivity | rewrite IH; reflexivity].
Qed.

Lemma chars_of_chars (l : list ascii) : Str.chars (Str.of_chars l) = l.
Proof. apply list_ascii_of_string_of_list_ascii. Qed.

Lemma lower_length (s : string) : String.length (Str.lower s) = String.length s.
Proof. unfold Str.lower. rewrite of_chars_length, length_map. apply chars_length. Qed.

Lemma lower_char_idempotent (c : ascii) : Str.lower_char (Str.lower_char c) = Str.lower_char c.
Proof. destruct c as [[] [] [] [] [] [] [] []]; reflexivity. Qed.

Lemma lower_char_not_upper (c : ascii) : Str.is_upper (Str.lower_char c) = false.
Proof. destruct c as [[] [] [] [] [] [] [] []]; reflexivity. Qed.

Lemma lower_idempotent (s : string) : Str.lower (Str.lower s) = Str.lower s.
Proof.
  unfold Str.lower. rewrite chars_of_chars, map_map. f_equal.
  apply map_ext. intros c. apply lower_char_idempotent.
Qed.

(** X14. Every token [tokenize] returns has at least two characters; and
    with lowercasing on, no token contains an upper-case letter (it is its
    own lower-case form). *)
Theorem tokenize_tokens_shape (text : string) (lowercase : bool) (token : string) :
  In token (Tokenizer.tokenize text lowercase) ->
  (2 <= String.length token)%nat /\
  (lowercase = true ->
   Str.lower token = token /\
   Forall (fun c => Str.is_upper c = false) (Str.chars token)).
Proof.
  unfold Tokenizer.tokenize. intros Hin.
  apply filter_In in Hin. destruct Hin as [Hin _].
  assert (Hraw : forall t, In t (Tokenizer._extract_tokens (Tokenizer._remove_comments text)) ->
                           (2 <= String.length t)%nat).
  { intros t Ht. unfold Tokenizer._extract_tokens in Ht.
    apply filter_In in Ht. destruct Ht as [_ Ht]. apply Nat.ltb_lt in Ht. lia. }
  destruct lowercase.
  - apply in_map_iff in Hin. destruct Hin as (t & <- & Ht).
    split; [rewrite lower_length; apply Hraw; exact Ht |].
    intros _. split; [apply lower_idempotent |].
    unfold Str.lower. rewrite chars_of_chars. apply List.Forall_forall.
    intros c Hc. apply in_map_iff in Hc. destruct Hc as (c' & <- & _).
    apply lower_char_not_upper.
  - split; [apply Hraw; exact Hin | discriminate].
Qed.

Lemma tokenize_tokens_shape_witness :
  (2 <= String.length "user")%nat /\
  (true = true ->
   Str.lower "user" = "user" /\ Forall (fun c => Str.is_upper c = false) (Str.chars "user")).
Proof.
  apply (tokenize_tokens_shape "function testUserLogin() {}" true "user").
  vm_compute. tauto.
Defined.

(** ** The fitted TF-IDF vocabulary *)

Lemma insert_sorted_Sorted (x : string) (l : list string) :
  Sorted (fun a b => String.leb a b = true) l ->
  Sorted (fun a b => String.leb a b = true) (Vectorizers.insert_sorted x l).
Proof.
  induction 1 as [|y l Hs IH Hhd]; cbn.
  - repeat constructor.
  - destruct (String.leb x y) eqn:E.
    + constructor; [constructor; assumption | constructor; exact E].
    + constructor; [exact IH |].
      assert (Hyx : String.leb y x = true).
      { destruct (String.leb_total x y) as [H | H]; [congruence | exact H]. }
      destruct l as [|z l]; cbn; [constructor; exact Hyx |].
      destruct (String.leb x z); constructor; [exact Hyx |].
      inversion Hhd; assumption.
Qed.

Lemma sorted_Sorted (l : list string) :
  Sorted (fun a b => String.leb a b = true) (Vectorizers.sorted l).
Proof.
  induction l as [|x l IH]; cbn; [constructor | apply insert_sorted_Sorted; exact IH].
Qed.

Lemma insert_desc_length (key : string -> nat) (x : string) (l : list string) :
  length (Vectorizers.insert_desc key x l) = S (length l).
Proof.
  induction l as [|y l IH]; [reflexivity |].
  cbn [Vectorizers.insert_desc].
  destruct (key y <? key x)%nat; cbn [length]; [reflexivity | rewrite IH; reflexivity].
Qed.

Lemma sorted_desc_length (key : string -> nat) (l : list string) :
  length (Vectorizers.sorted_desc key l) = length l.
Proof.
  unfold Vectorizers.sorted_desc.
  assert (H : forall acc, length (fold_left (fun acc x => Vectorizers.insert_desc key x acc) l acc)
                          = (length acc + length l)%nat).
  { induction l as [|x l IH]; intros acc; cbn [fold_left length]; [lia |].
    rewrite IH, insert_desc_length. lia. }
  rewrite H. reflexivity.
Qed.

(** The vocabulary of a fitted vectorizer: sorted tokens, no more than
    [max_features], numbered from zero in that order. *)
Lemma fit_vocabulary_tokens (self : Vectorizers.TFIDFVectorizer) (documents : list string) :
  exists tokens,
    Vectorizers.vocabulary_ (Vectorizers.fit self documents) =
      Some (map (fun it : nat * string => (snd it, fst it)) (Vectorizers.enumerate tokens)) /\
    (length tokens <= Vectorizers.max_features self)%nat /\
    Sorted (fun a b => String.leb a b = true) tokens.
Proof.
  unfold Vectorizers.fit. cbv zeta. cbn [Vectorizers.vocabulary_].
  eexists. split; [reflexivity |]. split; [| apply sorted_Sorted].
  rewrite (Permutation_length (sorted_Permutation _)).
  match goal with |- context [(Vectorizers.max_features self <? ?n)%nat] =>
    destruct (Vectorizers.max_features self <? n)%nat eqn:E end.
  - rewrite length_take. lia.
  - apply Nat.ltb_ge in E. exact E.
Qed.

Lemma dense_row_length (n : nat) (entries : list (nat * R)) :
  length (Vectorizers.dense_row n entries) = n.
Proof.
  unfold Vectorizers.dense_row, Np.ndarray.
  assert (H : forall row : list R,
             length (fold_left (fun (row : list R) (e : nat * R) => <[fst e := snd e]> row)
                               entries row) = length row).
  { induction entries as [|e entries IH]; intros row; cbn [fold_left]; [reflexivity |].
    rewrite IH. apply length_insert. }
  rewrite H. apply repeat_length.
Qed.

Lemma transform_rows_lengths (self : Vectorizers.TFIDFVectorizer) (voc : Vectorizers.vocabulary)
    (documents : list string) (rows : list Np.ndarray) :
  Vectorizers.transform_rows self voc documents = Ok rows ->
  length rows = length documents /\ Forall (fun row => length row = length voc) rows.
Proof.
  revert rows. induction documents as [|doc documents IH]; intros rows Hrun.
  - cbn in Hrun. injection Hrun as <-. split; [reflexivity | constructor].
  - cbn [Vectorizers.transform_rows] in Hrun.
    destruct (Vectorizers.row_entries self voc _) as [entries | e]; [| discriminate].
    cbn [mbind result_bind] in Hrun.
    destruct (Vectorizers.transform_rows self voc documents) as [rest | e]; [| discriminate].
    cbn [mbind result_bind] in Hrun. injection Hrun as <-.
    destruct (IH rest eq_refl) as [Hlen Hall].
    split; [cbn; rewrite Hlen; reflexivity |].
    constructor; [apply dense_row_length | exact Hall].
Qed.

(** X15. After [fit], [transform] always succeeds: it returns a matrix
    with one row per document and one column per vocabulary entry, every
    row being that wide, and the vocabulary never has more than
    [max_features] entries. *)
Theorem transform_after_fit_shape (self : Vectorizers.TFIDFVectorizer)
    (fitted documents : list string) :
  exists voc m,
    Vectorizers.vocabulary_ (Vectorizers.fit self fitted) = Some voc /\
    (length voc <= Vectorizers.max_features self)%nat /\
    Vectorizers.transform (Vectorizers.fit self fitted) documents = Ok m /\
    Np.n_rows m = length documents /\
    Np.n_cols m = length voc /\
    length (Np.rows m) = length documents /\
    Forall (fun row => length row = length voc) (Np.rows m).
Proof.
  destruct (fit_vocabulary_tokens self fitted) as (tokens & Hvoc & Hmax & _).
  destruct (transform_after_fit self fitted documents) as (m & Hrun & Hrows & Hlen & Hcols).
  eexists. exists m. split; [exact Hvoc |].
  rewrite Hvoc in Hcols. cbn in Hcols. injection Hcols as Hcols.
  split.
  { rewrite length_map. unfold Vectorizers.enumerate.
    rewrite length_combine, length_seq. lia. }
  split; [exact Hrun |]. split; [exact Hrows |]. split; [exact Hcols |].
  split; [exact Hlen |].
  unfold Vectorizers.transform in Hrun. rewrite Hvoc in Hrun.
  destruct (Vectorizers.transform_rows _ _ documents) as [rows | e] eqn:Er; [| discriminate].
  cbn [mbind result_bind] in Hrun. injection Hrun as <-. cbn [Np.rows].
  apply transform_rows_lengths in Er. exact (proj2 Er).
Qed.

Lemma feature_names_of_enumerate (tokens : list string) (k : nat) (acc : list string) :
  length acc = (k + length tokens)%nat ->
  fold_left (fun (features : list string) (ti : string * nat) => <[snd ti := fst ti]> features)
            (map (fun it : nat * string => (snd it, fst it)) (combine (seq k (length tokens)) tokens))
            acc =
  (take k acc ++ tokens)%list.
Proof.
  revert k acc. induction tokens as [|t tokens IH]; intros k acc Hlen.
  - cbn. cbn in Hlen. rewrite take_ge by lia. symmetry. apply app_nil_r.
  - cbn [length seq combine map fold_left fst snd].
    rewrite (IH (S k)) by (rewrite length_insert; cbn in Hlen; lia).
    cbn in Hlen.
    rewrite (take_S_r _ _ t) by (apply list_lookup_insert_eq; lia).
    rewrite take_insert_ge by lia. rewrite <- app_assoc. reflexivity.
Qed.

Lemma in_enumerate_from {A : Type} (l : list A) (k i : nat) (x : A) :
  In (i, x) (combine (seq k (length l)) l) <-> (k <= i)%nat /\ l !! (i - k)%nat = Some x.
Proof.
  revert k. induction l as [|y l IH]; intros k; cbn [length seq combine In].
  - split; [tauto | intros [_ H]; discriminate].
  - rewrite IH. split.
    + intros [[= <- <-] | [Hle Hl]].
      * split; [lia |]. rewrite Nat.sub_diag. reflexivity.
      * split; [lia |]. replace (i - k)%nat with (S (i - S k)) by lia. exact Hl.
    + intros [Hle Hl]. destruct (decide (i = k)) as [-> | Hne].
      * left. rewrite Nat.sub_diag in Hl. cbn in Hl. congruence.
      * right. split; [lia |]. replace (i - k)%nat with (S (i - S k)) in Hl by lia. exact Hl.
Qed.

(** X16. [get_feature_names] raises NotFitted before [fit]; after [fit] it
    returns the vocabulary's tokens in column order: the list is sorted,
    has at most [max_features] names, and the vocabulary maps the name at
    position [i] to column [i]. *)
Theorem get_feature_names_sorted :
  (forall max_features min_df max_df use_idf sublinear_tf,
     exists msg,
       Vectorizers.get_feature_names
         (Vectorizers.init max_features min_df max_df use_idf sublinear_tf) =
       Err (NotFitted msg)) /\
  (forall self documents,
     exists names voc,
       Vectorizers.get_feature_names (Vectorizers.fit self documents) = Ok names /\
       Vectorizers.vocabulary_ (Vectorizers.fit self documents) = Some voc /\
       (length names <= Vectorizers.max_features self)%nat /\
       Sorted (fun a b => String.leb a b = true) names /\
       (forall i name, In (name, i) voc <-> names !! i = Some name)).
Proof.
  split; [intros; eexists; reflexivity |].
  intros self documents.
  destruct (fit_vocabulary_tokens self documents) as (tokens & Hvoc & Hmax & Hsorted).
  exists tokens. eexists. unfold Vectorizers.get_feature_names. rewrite Hvoc.
  split; [| split; [reflexivity | split; [exact Hmax | split; [exact Hsorted |]]]].
  - f_equal. unfold Vectorizers.enumerate. rewrite length_map, length_combine, length_seq, Nat.min_id.
    rewrite (feature_names_of_enumerate tokens 0) by (rewrite repeat_length; lia).
    reflexivity.
  - intros i name. unfold Vectorizers.enumerate. rewrite in_map_iff. split.
    + intros ([j t] & [= <- <-] & Hin). apply in_enumerate_from in Hin.
      destruct Hin as [_ Hin]. rewrite Nat.sub_0_r in Hin. exact Hin.
    + intros Hl. exists (i, name). split; [reflexivity |].
      apply in_enumerate_from. rewrite Nat.sub_0_r. split; [lia | exact Hl].
Qed.

(** ** The intent cache *)

Lemma extract_test_intent_coherent (self : Validation.SemanticValidator) (name : string) :
  cache_coherent self ->
  fst (Validation.extract_test_intent self name) = Validation.compute_intent name /\
  cache_coherent (snd (Validation.extract_test_intent self name)) /\
  Validation.config (snd (Validation.extract_test_intent self name)) = Validation.config self /\
  Validation._intent_cache (snd (Validation.extract_test_intent self name)) !! name =
    Some (Validation.compute_intent name).
Proof.
  intros Hc. unfold Validation.extract_test_intent.
  destruct (Validation._intent_cache self !! name) as [d |] eqn:E; cbn [fst snd].
  - rewrite (Hc name d E). split; [reflexivity |]. split; [exact Hc |]. split; [reflexivity |].
    rewrite E. f_equal. apply Hc. exact E.
  - split; [reflexivity |]. split; [| split; [reflexivity |]];
      cbn [Validation._intent_cache Validation.config].
    + intros n d Hd. cbn [Validation._intent_cache] in Hd. apply lookup_insert_Some in Hd.
      destruct Hd as [[<- <-] | [_ Hd]]; [reflexivity | apply Hc; exact Hd].
    + apply lookup_insert_eq.
Qed.

(** X17. The intent cache never changes an answer: starting from a
    coherent cache (the empty cache of a new validator is one),
    [tests_have_opposing_intents] answers as a validator with the same
    configuration and an empty cache would, leaves the cache coherent and
    the configuration untouched, and has both names cached afterwards. *)
Theorem intent_cache_transparent (self : Validation.SemanticValidator) (test1 test2 : string) :
  cache_coherent self ->
  let fresh := {| Validation.config := Validation.config self;
                  Validation._intent_cache := ∅ |} in
  let after := snd (Validation.tests_have_opposing_intents self test1 test2) in
  fst (Validation.tests_have_opposing_intents self test1 test2) =
    fst (Validation.tests_have_opposing_intents fresh test1 test2) /\
  cache_coherent after /\
  Validation.config after = Validation.config self /\
  Validation._intent_cache after !! test1 = Some (Validation.compute_intent test1) /\
  Validation._intent_cache after !! test2 = Some (Validation.compute_intent test2).
Proof.
  intros Hc fresh after.
  assert (Hfresh : cache_coherent fresh).
  { intros n d Hd. cbn in Hd. rewrite lookup_empty in Hd. discriminate. }
  assert (Hrun : forall s, cache_coherent s ->
            let s1 := snd (Validation.extract_test_intent s test1) in
            let s2 := snd (Validation.extract_test_intent s1 test2) in
            Validation.tests_have_opposing_intents s test1 test2 =
              (fst (Validation.tests_have_opposing_intents
                      {| Validation.config := Validation.config s;
                         Validation._intent_cache := ∅ |} test1 test2), s2) /\
            cache_coherent s2 /\ Validation.config s2 = Validation.config s /\
            Validation._intent_cache s2 !! test1 = Some (Validation.compute_intent test1) /\
            Validation._intent_cache s2 !! test2 = Some (Validation.compute_intent test2)).
  { intros s Hs s1 s2.
    destruct (extract_test_intent_coherent s test1 Hs) as (Hi1 & Hc1 & Hcfg1 & Hl1).
    fold s1 in Hc1, Hcfg1, Hl1.
    destruct (extract_test_intent_coherent s1 test2 Hc1) as (Hi2 & Hc2 & Hcfg2 & Hl2).
    fold s2 in Hc2, Hcfg2, Hl2.
    assert (Hkeep : Validation._intent_cache s2 !! test1 = Some (Validation.compute_intent test1)).
    { subst s2. unfold Validation.extract_test_intent.
      destruct (Validation._intent_cache s1 !! test2) as [d |] eqn:E; cbn [snd]; [exact Hl1 |].
      cbn [Validation._intent_cache]. destruct (decide (test2 = test1)) as [-> | Hne].
      - rewrite lookup_insert_eq. reflexivity.
      - rewrite lookup_insert_ne by exact Hne. exact Hl1. }
    split; [| split; [exact Hc2 | split; [congruence | split; [exact Hkeep | exact Hl2]]]].
    set (f := {| Validation.config := Validation.config s; Validation._intent_cache := ∅ |}).
    assert (Hf : cache_coherent f).
    { intros n d Hd. cbn in Hd. rewrite lookup_empty in Hd. discriminate. }
    destruct (extract_test_intent_coherent f test1 Hf) as (Hj1 & Hd1 & Hfg1 & _).
    destruct (extract_test_intent_coherent (snd (Validation.extract_test_intent f test1))
                test2 Hd1) as (Hj2 & _ & Hfg2 & _).
    unfold Validation.tests_have_opposing_intents.
    destruct (Validation.extract_test_intent s test1) as [i1 t1] eqn:E1.
    destruct (Validation.extract_test_intent f test1) as [j1 u1] eqn:F1.
    cbn [fst snd] in *. subst s1.
    destruct (Validation.extract_test_intent t1 test2) as [i2 t2] eqn:E2.
    destruct (Validation.extract_test_intent u1 test2) as [j2 u2] eqn:F2.
    cbn [fst snd] in *. subst s2. subst i1 i2 j1 j2.
    rewrite Hcfg2, Hcfg1, Hfg2, Hfg1. reflexivity. }
  destruct (Hrun self Hc) as (Heq & Hc2 & Hcfg & Hl1 & Hl2).
  subst after. rewrite Heq. cbn [fst snd]. auto.
Qed.

Lemma intent_cache_transparent_witness :
  fst (Validation.tests_have_opposing_intents
         (snd (Validation.extract_test_intent (Validation.init None) "test_min_value"))
         "test_min_value" "test_max_value") =
  fst (Validation.tests_have_opposing_intents
         {| Validation.config := Validation.default_config; Validation._intent_cache := ∅ |}
         "test_min_value" "test_max_value").
Proof.
  apply (intent_cache_transparent
           (snd (Validation.extract_test_intent (Validation.init None) "test_min_value"))
           "test_min_value" "test_max_value").
  apply extract_test_intent_coherent.
  intros n d Hd. cbn in Hd. rewrite lookup_empty in Hd. discriminate.
Defined.

(** ** Vector quality *)

(** X18. With positive entropy thresholds and non-negative weights, the
    quality scores of [analyze_vector_quality] for any semantic vector and
    any 0/1 coverage vector (empty vectors included) lie between 0 and 1,
    and the overall quality lies between 0 and the sum of the two weights
    (1 with the default configuration). *)
Theorem vector_quality_bounds (config : Entropy.EntropyConfig)
    (semantic_vector coverage_vector : Np.ndarray) :
  0 < Entropy.semantic_threshold config -> 0 < Entropy.coverage_threshold config ->
  0 <= Entropy.semantic_weight config -> 0 <= Entropy.coverage_weight config ->
  binary coverage_vector ->
  let q := Entropy.analyze_vector_quality config semantic_vector coverage_vector in
  0 <= Entropy.semantic_quality q <= 1 /\
  0 <= Entropy.coverage_quality q <= 1 /\
  0 <= Entropy.overall_quality q <=
    Entropy.semantic_weight config + Entropy.coverage_weight config.
Proof.
  intros Hts Htc Hws Hwc Hb q. subst q. unfold Entropy.analyze_vector_quality.
  cbn [Entropy.semantic_quality Entropy.coverage_quality Entropy.overall_quality].
  pose proof (continuous_entropy_bounds semantic_vector) as Hs.
  pose proof (binary_entropy_bounds coverage_vector Hb) as Hc.
  set (es := Entropy.calculate_shannon_entropy semantic_vector false) in *.
  set (ec := Entropy.calculate_shannon_entropy coverage_vector true) in *.
  assert (Hq : forall e th, 0 < th -> 0 <= e ->
                 0 <= (if Np.Rleb th e then 1 else e / th) <= 1).
  { intros e th Hth He. float_cases; [lra |]. split.
    - apply Rmult_le_pos; [exact He | left; apply Rinv_0_lt_compat; exact Hth].
    - apply (Rmult_le_reg_r th); [exact Hth |].
      unfold Rdiv. rewrite Rmult_assoc, Rinv_l by lra. lra. }
  pose proof (Hq es _ Hts (proj1 Hs)) as Hqs.
  pose proof (Hq ec _ Htc (proj1 Hc)) as Hqc.
  split; [exact Hqs |]. split; [exact Hqc |]. nra.
Qed.

Lemma vector_quality_bounds_witness :
  let q := Entropy.analyze_vector_quality Entropy.default_config [1; -2; 3] [1; 0; 0; 1] in
  0 <= Entropy.semantic_quality q <= 1 /\
  0 <= Entropy.coverage_quality q <= 1 /\
  0 <= Entropy.overall_quality q <=
    Entropy.semantic_weight Entropy.default_config + Entropy.coverage_weight Entropy.default_config.
Proof.
  apply (vector_quality_bounds Entropy.default_config [1; -2; 3] [1; 0; 0; 1]);
    try (cbn; lra).
  repeat first [apply List.Forall_nil
               | apply List.Forall_cons; [first [left; reflexivity | right; reflexivity] |]].
Defined.

(** ** Cluster analysis *)

Lemma pairs_length {A : Type} (l : list A) :
  (2 * length (Redundancy.pairs l) = length l * (length l - 1))%nat.
Proof.
  induction l as [|x l IH]; [reflexivity |].
  cbn [Redundancy.pairs length]. rewrite length_app, length_map.
  replace (S (length l) - 1)%nat with (length l) by lia.
  destruct (length l) as [|n] eqn:E; [lia |].
  replace (S n - 1)%nat with n in IH by lia. nia.
Qed.

Lemma pair_similarity_defined (self : Redundancy.RedundancyAnalyzer)
    (semantic_vectors coverage_vectors : gmap string Np.ndarray) (t1 t2 : string) :
  (forall name v, semantic_vectors !! name = Some v -> length v = 128%nat) ->
  (forall name v, coverage_vectors !! name = Some v -> length v = 512%nat) ->
  exists s,
    Redundancy.pair_similarity self semantic_vectors coverage_vectors t1 t2 = Ok s /\
    Redundancy.pair_similarity self semantic_vectors coverage_vectors t2 t1 = Ok s /\
    (0 <= Redundancy.semantic_weight self -> 0 <= Redundancy.coverage_weight self ->
     Redundancy.semantic_weight self + Redundancy.coverage_weight self = 1 -> -1 <= s <= 1).
Proof.
  intros Hsem Hcov. unfold Redundancy.pair_similarity.
  assert (Hs : forall t, length (default (Np.zeros 128) (semantic_vectors !! t)) = 128%nat).
  { intros t. destruct (semantic_vectors !! t) eqn:E; cbn [default];
      [eauto | apply repeat_length]. }
  assert (Hc : forall t, length (default (Np.zeros 512) (coverage_vectors !! t)) = 512%nat).
  { intros t. destruct (coverage_vectors !! t) eqn:E; cbn [default];
      [eauto | apply repeat_length]. }
  destruct (combined_symmetric_and_bounded
              (default (Np.zeros 128) (semantic_vectors !! t1))
              (default (Np.zeros 128) (semantic_vectors !! t2))
              (default (Np.zeros 512) (coverage_vectors !! t1))
              (default (Np.zeros 512) (coverage_vectors !! t2))
              (Redundancy.semantic_weight self) (Redundancy.coverage_weight self))
    as (scores & H1 & H2 & Hb); [rewrite !Hs; reflexivity | rewrite !Hc; reflexivity |].
  rewrite H1, H2. cbn [mbind result_bind]. exists (Normalization.combined scores). auto.
Qed.

Lemma analyze_pairs_defined (self : Redundancy.RedundancyAnalyzer)
    (semantic_vectors coverage_vectors : gmap string Np.ndarray) (ps : list (string * string)) :
  (forall name v, semantic_vectors !! name = Some v -> length v = 128%nat) ->
  (forall name v, coverage_vectors !! name = Some v -> length v = 512%nat) ->
  exists sims reds,
    Redundancy.analyze_pairs self semantic_vectors coverage_vectors ps = Ok (sims, reds) /\
    length sims = length ps /\
    (length reds <= length ps)%nat /\
    Forall (fun p =>
              In (Redundancy.test1 p, Redundancy.test2 p) ps /\
              Redundancy.pair_similarity self semantic_vectors coverage_vectors
                (Redundancy.test1 p) (Redundancy.test2 p) = Ok (Redundancy.similarity p) /\
              Redundancy.level p =
                Redundancy.value (Redundancy.classify_redundancy (Redundancy.thresholds self)
                                    (Redundancy.similarity p)) /\
              (2 <= Redundancy.rank (Redundancy.classify_redundancy
                                       (Redundancy.thresholds self)
                                       (Redundancy.similarity p)))%nat) reds /\
    (0 <= Redundancy.semantic_weight self -> 0 <= Redundancy.coverage_weight self ->
     Redundancy.semantic_weight self + Redundancy.coverage_weight self = 1 ->
     Forall (fun s => -1 <= s <= 1) sims).
Proof.
  intros Hsem Hcov. induction ps as [|[t1 t2] ps (sims & reds & IH & Hls & Hlr & Hreds & Hb)].
  - exists [], []. cbn. repeat split; constructor.
  - cbn [Redundancy.analyze_pairs].
    destruct (pair_similarity_defined self semantic_vectors coverage_vectors t1 t2 Hsem Hcov)
      as (s & Hs & _ & Hsb).
    rewrite Hs, IH. cbn [mbind result_bind fst snd].
    eexists. eexists. split; [reflexivity |].
    split; [cbn; rewrite Hls; reflexivity |].
    assert (Hreds' : Forall (fun p =>
              In (Redundancy.test1 p, Redundancy.test2 p) ((t1, t2) :: ps) /\
              Redundancy.pair_similarity self semantic_vectors coverage_vectors
                (Redundancy.test1 p) (Redundancy.test2 p) = Ok (Redundancy.similarity p) /\
              Redundancy.level p =
                Redundancy.value (Redundancy.classify_redundancy (Redundancy.thresholds self)
                                    (Redundancy.similarity p)) /\
              (2 <= Redundancy.rank (Redundancy.classify_redundancy
                                       (Redundancy.thresholds self)
                                       (Redundancy.similarity p)))%nat) reds).
    { eapply List.Forall_impl; [| exact Hreds]. intros p (Hin & Hrest). split; [right; exact Hin | exact Hrest]. }
    split; [| split].
    + destruct (Redundancy.classify_redundancy _ s); cbn [length]; lia.
    + destruct (Redundancy.classify_redundancy (Redundancy.thresholds self) s) eqn:El;
        try exact Hreds'; constructor; try exact Hreds';
        cbn [Redundancy.test1 Redundancy.test2 Redundancy.similarity Redundancy.level];
        rewrite El; (split; [left; reflexivity | split; [exact Hs | split; [reflexivity | cbn; lia]]]).
    + intros H1 H2 H3. constructor; [apply Hsb; assumption | apply Hb; assumption].
Qed.

Lemma mean_bounds (v : Np.ndarray) (lo hi : R) :
  v <> [] -> Forall (fun x => lo <= x <= hi) v -> lo <= Np.mean v <= hi.
Proof.
  intros Hne Hall. unfold Np.mean.
  assert (Hn : 0 < INR (length v)).
  { destruct v; [congruence |]. apply lt_0_INR. cbn. lia. }
  assert (Hs : INR (length v) * lo <= Np.sum v <= INR (length v) * hi).
  { clear Hne Hn. induction Hall as [|x v Hx _ IH]; [cbn; lra |].
    cbn [Np.sum length]. rewrite S_INR. lra. }
  split.
  - apply (Rmult_le_reg_r (INR (length v))); [exact Hn |].
    unfold Rdiv. rewrite Rmult_assoc, Rinv_l by lra. lra.
  - apply (Rmult_le_reg_r (INR (length v))); [exact Hn |].
    unfold Rdiv. rewrite Rmult_assoc, Rinv_l by lra. lra.
Qed.

(** X19. [analyze_cluster] never fails when every semantic vector has 128
    entries and every coverage vector 512 (tests without a vector
    included).  Its [size] is the number of tests; a cluster of fewer than
    two tests is reported as "none" with average 0 and no pairs;
    otherwise [n_redundant_pairs] is the number of redundant pairs and the
    cluster's level is the level of the average similarity.
    Every redundant pair is a pair of the cluster, carries its combined
    similarity and has a level of moderate or higher; there are at most
    n(n-1)/2 of them. *)
Theorem analyze_cluster_well_shaped (self : Redundancy.RedundancyAnalyzer)
    (test_names : list string) (semantic_vectors coverage_vectors : gmap string Np.ndarray) :
  (forall name v, semantic_vectors !! name = Some v -> length v = 128%nat) ->
  (forall name v, coverage_vectors !! name = Some v -> length v = 512%nat) ->
  exists a,
    Redundancy.analyze_cluster self test_names semantic_vectors coverage_vectors = Ok a /\
    Redundancy.size a = length test_names /\
    ((length test_names < 2)%nat ->
     Redundancy.redundancy_level a = "none" /\ Redundancy.avg_similarity a = 0 /\
     Redundancy.redundant_pairs a = []) /\
    ((2 <= length test_names)%nat ->
     Redundancy.n_redundant_pairs a = Some (length (Redundancy.redundant_pairs a)) /\
     Redundancy.redundancy_level a =
       Redundancy.value (Redundancy.classify_redundancy (Redundancy.thresholds self)
                           (Redundancy.avg_similarity a))) /\
    (2 * length (Redundancy.redundant_pairs a) <= length test_names * (length test_names - 1))%nat /\
    Forall (fun p =>
              In (Redundancy.test1 p, Redundancy.test2 p) (Redundancy.pairs test_names) /\
              Redundancy.pair_similarity self semantic_vectors coverage_vectors
                (Redundancy.test1 p) (Redundancy.test2 p) = Ok (Redundancy.similarity p) /\
              Redundancy.level p =
                Redundancy.value (Redundancy.classify_redundancy (Redundancy.thresholds self)
                                    (Redundancy.similarity p)) /\
              (2 <= Redundancy.rank (Redundancy.classify_redundancy
                                       (Redundancy.thresholds self)
                                       (Redundancy.similarity p)))%nat)
           (Redundancy.redundant_pairs a).
Proof.
  intros Hsem Hcov. unfold Redundancy.analyze_cluster.
  destruct (length test_names <? 2)%nat eqn:En.
  - apply Nat.ltb_lt in En. eexists. split; [reflexivity |].
    cbn [Redundancy.size Redundancy.redundancy_level Redundancy.avg_similarity
         Redundancy.redundant_pairs Redundancy.n_redundant_pairs length].
    split; [reflexivity |]. split; [intros _; repeat split |].
    split; [intros H; lia |]. split; [lia | constructor].
  - apply Nat.ltb_ge in En.
    destruct (analyze_pairs_defined self semantic_vectors coverage_vectors
                (Redundancy.pairs test_names) Hsem Hcov)
      as (sims & reds & Hrun & Hls & Hlr & Hreds & Hb).
    rewrite Hrun. cbn [mbind result_bind fst snd]. eexists. split; [reflexivity |].
    cbn [Redundancy.size Redundancy.redundancy_level Redundancy.avg_similarity
         Redundancy.redundant_pairs Redundancy.n_redundant_pairs].
    split; [reflexivity |]. split; [intros H; lia |].
    pose proof (pairs_length test_names) as Hpl.
    split; [| split; [lia | exact Hreds]].
    intros _. split; reflexivity.
Qed.

Lemma analyze_cluster_well_shaped_witness :
  exists a,
    Redundancy.analyze_cluster (Redundancy.init None) ["a"; "b"]
      {[ "a" := repeat 1 128 ]} {[ "b" := repeat 1 512 ]} = Ok a /\
    Redundancy.size a = 2%nat.
Proof.
  destruct (analyze_cluster_well_shaped (Redundancy.init None) ["a"; "b"]
              {[ "a" := repeat 1 128 ]} {[ "b" := repeat 1 512 ]}) as (a & Ha & Hsize & _).
  - intros name v Hv. apply lookup_singleton_Some in Hv. destruct Hv as [_ <-].
    apply repeat_length.
  - intros name v Hv. apply lookup_singleton_Some in Hv. destruct Hv as [_ <-].
    apply repeat_length.
  - exists a. split; [exact Ha | exact Hsize].
Defined.

Lemma count_level_partition (statuses : list Redundancy.RedundancyLevel) :
  (Redundancy.count_level Redundancy.NONE statuses +
   Redundancy.count_level Redundancy.LOW statuses +
   Redundancy.count_level Redundancy.MODERATE statuses +
   Redundancy.count_level Redundancy.HIGH statuses +
   Redundancy.count_level Redundancy.VERY_HIGH statuses = length statuses)%nat.
Proof.
  unfold Redundancy.count_level.
  induction statuses as [|s statuses IH]; [reflexivity |].
  destruct s; cbn [List.filter Redundancy.rank Nat.eqb length] in *; lia.
Qed.

(** X20. In the summary of [summarize_redundancy] the five level counts
    add up to the number of records, the redundant tests are those of
    level moderate, high or very high and are no more than the total, the
    redundancy rate lies between 0 and 100, and an empty list of records
    gives rate 0 instead of dividing by zero. *)
Theorem summarize_redundancy_counts (statuses : list Redundancy.RedundancyLevel) :
  let s := Redundancy.summarize_redundancy statuses in
  Redundancy.total_tests s = length statuses /\
  (Redundancy.level_counts s Redundancy.NONE + Redundancy.level_counts s Redundancy.LOW +
   Redundancy.level_counts s Redundancy.MODERATE + Redundancy.level_counts s Redundancy.HIGH +
   Redundancy.level_counts s Redundancy.VERY_HIGH = Redundancy.total_tests s)%nat /\
  (Redundancy.redundant_tests s + Redundancy.level_counts s Redundancy.NONE +
   Redundancy.level_counts s Redundancy.LOW = Redundancy.total_tests s)%nat /\
  0 <= Redundancy.redundancy_rate s <= 100 /\
  (statuses = [] -> Redundancy.redundancy_rate s = 0).
Proof.
  intros s. subst s. unfold Redundancy.summarize_redundancy.
  cbn [Redundancy.total_tests Redundancy.level_counts Redundancy.redundant_tests
       Redundancy.redundancy_rate].
  pose proof (count_level_partition statuses) as Hp.
  split; [reflexivity |]. split; [exact Hp |]. split; [lia |].
  split.
  - destruct (0 <? length statuses)%nat eqn:E; [| lra].
    apply Nat.ltb_lt in E.
    set (r := (Redundancy.count_level Redundancy.MODERATE statuses +
               Redundancy.count_level Redundancy.HIGH statuses +
               Redundancy.count_level Redundancy.VERY_HIGH statuses)%nat) in *.
    assert (Hr : (r <= length statuses)%nat) by lia.
    apply le_INR in Hr. pose proof (pos_INR r) as Hr0.
    assert (Hn : 0 < INR (length statuses)) by (apply lt_0_INR; exact E).
    assert (Hq : 0 <= INR r / INR (length statuses) <= 1).
    { split.
      - apply Rmult_le_pos; [exact Hr0 | left; apply Rinv_0_lt_compat; exact Hn].
      - apply (Rmult_le_reg_r (INR (length statuses))); [exact Hn |].
        unfold Rdiv. rewrite Rmult_assoc, Rinv_l by lra. lra. }
    lra.
  - intros ->. reflexivity.
Qed.

Lemma summarize_redundancy_counts_witness :
  Redundancy.redundancy_rate (Redundancy.summarize_redundancy []) = 0.
Proof.
  apply (proj2 (proj2 (proj2 (proj2 (summarize_redundancy_counts []))))). reflexivity.
Defined.

(** ** Comment removal *)

Lemma chars_roundtrip (s : string) : Str.of_chars (Str.chars s) = s.
Proof. apply string_of_list_ascii_of_string. Qed.

(** A pattern that starts with a literal character, matched case
    sensitively, finds nothing in a text without that character. *)
Lemma search_needs_first_char (fl : Re.flags) (p : Re.pattern) (c : ascii) (r : Re.regex) :
  Re.expr p = Re.RSeq (Re.RChar c) r -> Re.ignorecase fl = false ->
  forall (l : list ascii) (n : nat) (b : option ascii),
    ~ In c l -> Re.search_at fl p n b l = None.
Proof.
  intros Hp Hfl l. induction l as [|x l IH]; intros n b Hnot.
  - cbn. unfold Re.match_at. rewrite Hp. reflexivity.
  - cbn [Re.search_at]. unfold Re.match_at at 1. rewrite Hp.
    cbn [Re.rmatch Re.one_char Re.ahead]. unfold Re.char_matches. rewrite Hfl.
    destruct (Ascii.eqb c x) eqn:E.
    + apply Ascii.eqb_eq in E. subst. exfalso. apply Hnot. left. reflexivity.
    + apply IH. intros Hin. apply Hnot. right. exact Hin.
Qed.

Lemma sub_without_first_char (fl : Re.flags) (p : Re.pattern) (c : ascii) (r : Re.regex)
    (repl text : string) :
  Re.expr p = Re.RSeq (Re.RChar c) r -> Re.ignorecase fl = false ->
  ~ In c (Str.chars text) -> Re.sub fl p repl text = text.
Proof.
  intros Hp Hfl Hnot. unfold Re.sub, Re.scan_all. cbn [Re.scan].
  unfold Re.search_from, Re.start_of. cbn [Re.pos Re.before Re.ahead].
  rewrite (search_needs_first_char fl p c r Hp Hfl _ _ _ Hnot).
  cbn. apply chars_roundtrip.
Qed.

(** X21. Comment removal leaves a text without any slash or hash
    character exactly as it is. *)
Theorem remove_comments_plain_text (text : string) :
  ~ In "/"%char (Str.chars text) -> ~ In "#"%char (Str.chars text) ->
  Tokenizer._remove_comments text = text.
Proof.
  intros Hslash Hhash. unfold Tokenizer._remove_comments.
  rewrite (sub_without_first_char Re.MULTILINE (Re.compile "//.*?$") "/"
             (Re.RSeq (Re.RChar "/") (Re.RSeq (Re.RStar false Re.RAny) Re.REol)))
    by (first [reflexivity | exact Hslash]).
  rewrite (sub_without_first_char Re.DOTALL (Re.compile "/\*.*?\*/") "/"
             (Re.RSeq (Re.RChar "*") (Re.RSeq (Re.RStar false Re.RAny)
                (Re.RSeq (Re.RChar "*") (Re.RChar "/")))))
    by (first [reflexivity | exact Hslash]).
  apply (sub_without_first_char Re.MULTILINE (Re.compile "#.*?$") "#"
           (Re.RSeq (Re.RStar false Re.RAny) Re.REol)); first [reflexivity | exact Hhash].
Qed.

Lemma remove_comments_plain_text_witness :
  Tokenizer._remove_comments "$user->login();" = "$user->login();".
Proof.
  apply remove_comments_plain_text; vm_compute; intuition discriminate.
Defined.

(** ** Intent keys *)

Lemma oppositions_checked_true : oppositions_checked = true.
Proof. vm_compute. reflexivity. Qed.

Lemma literal_word_match {A : Type} (fl : Re.flags) (r : Re.regex) (w : list ascii) :
  literal_word r = Some w ->
  forall (cu : Re.cursor) (cs : Re.captures) (k : Re.cursor -> Re.captures -> option A) (a : A),
    Re.rmatch fl r cu cs k = Some a ->
    exists t cu',
      advanced cu cu' t /\
      Forall2 (fun x c => Re.char_matches fl x c = true) w t /\
      k cu' cs = Some a.
Proof.
  revert w. induction r as [| c | | | r1 IH1 r2 IH2 | | | | | |]; intros w Hw; try discriminate.
  - injection Hw as <-. intros cu cs k a Hrun.
    cbn [Re.rmatch] in Hrun. unfold Re.one_char in Hrun.
    destruct (Re.ahead cu) as [|x tl] eqn:Ea; [discriminate |].
    destruct (Re.char_matches fl c x) eqn:Ec; [| discriminate].
    exists [x], (Re.step x tl cu). split; [| split; [| exact Hrun]].
    + exists tl. cbn. split; [exact Ea | split; [reflexivity | lia]].
    + constructor; [exact Ec | constructor].
  - destruct r1; try discriminate. cbn [literal_word] in Hw.
    destruct (literal_word r2) as [w2 |] eqn:E2; [| discriminate].
    injection Hw as <-. intros cu cs k a Hrun.
    cbn [Re.rmatch] in Hrun. unfold Re.one_char in Hrun.
    destruct (Re.ahead cu) as [|x tl] eqn:Ea; [discriminate |].
    destruct (Re.char_matches fl c x) eqn:Ec; [| discriminate].
    destruct (IH2 w2 eq_refl _ _ _ _ Hrun) as (t & cu' & (rest & Ht & Hrest & Hpos) & Hall & Hk).
    exists (x :: t), cu'. split; [| split; [| exact Hk]].
    + exists rest. cbn [Re.step Re.ahead Re.pos] in Ht, Hpos.
      split; [rewrite Ea, Ht; reflexivity | split; [exact Hrest | cbn; lia]].
    + constructor; assumption.
Qed.

Lemma literal_alternatives_match {A : Type} (fl : Re.flags) (r : Re.regex)
    (ws : list (list ascii)) :
  literal_alternatives r = Some ws ->
  forall (cu : Re.cursor) (cs : Re.captures) (k : Re.cursor -> Re.captures -> option A) (a : A),
    Re.rmatch fl r cu cs k = Some a ->
    exists w t cu',
      In w ws /\ advanced cu cu' t /\
      Forall2 (fun x c => Re.char_matches fl x c = true) w t /\
      k cu' cs = Some a.
Proof.
  assert (Hone : forall r ws, option_map (fun w => [w]) (literal_word r) = Some ws ->
            forall cu cs (k : Re.cursor -> Re.captures -> option A) a,
              Re.rmatch fl r cu cs k = Some a ->
              exists w t cu',
                In w ws /\ advanced cu cu' t /\
                Forall2 (fun x c => Re.char_matches fl x c = true) w t /\ k cu' cs = Some a).
  { intros r0 ws0 Hw cu cs k a Hrun.
    destruct (literal_word r0) as [w |] eqn:E; [| discriminate]. injection Hw as <-.
    destruct (literal_word_match fl r0 w E cu cs k a Hrun) as (t & cu' & H1 & H2 & H3).
    exists w, t, cu'. split; [left; reflexivity | auto]. }
  revert ws. induction r as [| | | | | r1 IH1 r2 IH2 | | | | |]; intros ws Hws;
    try (apply Hone; exact Hws).
  cbn [literal_alternatives] in Hws.
  destruct (literal_word r1) as [w1 |] eqn:E1; [| discriminate].
  destruct (literal_alternatives r2) as [ws2 |] eqn:E2; [| discriminate].
  injection Hws as <-. intros cu cs k a Hrun.
  cbn [Re.rmatch] in Hrun. unfold Re.or_else in Hrun.
  destruct (Re.rmatch fl r1 cu cs k) as [a1 |] eqn:Er1.
  - injection Hrun as <-.
    destruct (literal_word_match fl r1 w1 E1 cu cs k a1 Er1) as (t & cu' & H1 & H2 & H3).
    exists w1, t, cu'. split; [left; reflexivity | auto].
  - destruct (IH2 ws2 eq_refl cu cs k a Hrun) as (w & t & cu' & Hin & H1 & H2 & H3).
    exists w, t, cu'. split; [right; exact Hin | auto].
Qed.

Lemma word_alternatives_shape (p : Re.pattern) (ws : list (list ascii)) :
  word_alternatives p = Some ws ->
  exists alts,
    Re.expr p = Re.RSeq Re.RWordBoundary (Re.RSeq (Re.RGroup 1 alts) Re.RWordBoundary) /\
    literal_alternatives alts = Some ws.
Proof.
  unfold word_alternatives. intros H.
  destruct (Re.expr p) as [| | | | r1 r2 | | | | | |]; try discriminate.
  destruct r1; try discriminate.
  destruct r2 as [| | | | r3 r4 | | | | | |]; try discriminate.
  destruct r3 as [| | | | | | | n alts | | |]; try discriminate.
  destruct n as [|[|n]]; try discriminate.
  destruct r4; try discriminate.
  exists alts. split; [reflexivity | exact H].
Qed.

Lemma word_pattern_group (fl : Re.flags) (p : Re.pattern) (ws : list (list ascii))
    (cu : Re.cursor) (m : Re.rmatch_obj) :
  word_alternatives p = Some ws ->
  Re.match_at fl p cu = Some m ->
  exists w t rest,
    In w ws /\ Re.ahead cu = (t ++ rest)%list /\
    Forall2 (fun x c => Re.char_matches fl x c = true) w t /\
    Re.group m 1 = Some (Str.of_chars t).
Proof.
  intros Hws Hrun. destruct (word_alternatives_shape p ws Hws) as (alts & Hexpr & Halts).
  unfold Re.match_at in Hrun. rewrite Hexpr in Hrun. cbn [Re.rmatch] in Hrun.
  destruct (Re.at_word_boundary cu); [| discriminate].
  destruct (literal_alternatives_match fl alts ws Halts _ _ _ _ Hrun)
    as (w & t & cu' & Hin & (rest & Ht & Hrest & Hpos) & Hall & Hk).
  cbn beta in Hk. destruct (Re.at_word_boundary cu'); [| discriminate].
  injection Hk as <-. exists w, t, rest.
  split; [exact Hin |]. split; [exact Ht |]. split; [exact Hall |].
  unfold Re.group. cbn [Re.m_caps find fst Nat.eqb]. f_equal. f_equal.
  rewrite Hpos, Ht. replace (Re.pos cu + length t - Re.pos cu)%nat with (length t) by lia.
  rewrite firstn_app, Nat.sub_diag, firstn_all. cbn. apply app_nil_r.
Qed.

Lemma search_at_suffix (fl : Re.flags) (p : Re.pattern) (l : list ascii) :
  forall (n : nat) (b : option ascii) (m : Re.rmatch_obj),
    Re.search_at fl p n b l = Some m ->
    exists cu pre, Re.match_at fl p cu = Some m /\ l = (pre ++ Re.ahead cu)%list.
Proof.
  induction l as [|x l IH]; intros n b m Hrun; cbn [Re.search_at] in Hrun.
  - destruct (Re.match_at fl p _) as [m' |] eqn:E; [| discriminate].
    injection Hrun as <-. eexists. exists []. split; [exact E | reflexivity].
  - destruct (Re.match_at fl p _) as [m' |] eqn:E.
    + injection Hrun as <-. eexists. exists []. split; [exact E | reflexivity].
    + destruct (IH _ _ _ Hrun) as (cu & pre & Hm & Hl).
      exists cu, (x :: pre). split; [exact Hm | rewrite Hl; reflexivity].
Qed.

Lemma ignorecase_lower_eq (w t : list ascii) :
  no_upper w = true -> Forall (fun c => Str.is_upper c = false) t ->
  Forall2 (fun x c => Re.char_matches Re.IGNORECASE x c = true) w t -> w = t.
Proof.
  intros Hw Ht Hall. revert Hw Ht. induction Hall as [|x c w t Hxc _ IH]; intros Hw Ht.
  - reflexivity.
  - cbn [no_upper forallb] in Hw. apply andb_true_iff in Hw. destruct Hw as [Hx Hw].
    inversion Ht as [|? ? Hc Ht']; subst.
    f_equal; [| apply IH; assumption].
    unfold Re.char_matches in Hxc. cbn [Re.ignorecase Re.IGNORECASE] in Hxc.
    apply Ascii.eqb_eq in Hxc. unfold Str.lower_char in Hxc.
    rewrite Hc in Hxc. apply negb_true_iff in Hx. rewrite Hx in Hxc. exact Hxc.
Qed.

(** The key a word pattern records is one of its words. *)
Lemma word_pattern_key (p : Re.pattern) (ws : list (list ascii)) (name : string)
    (m : Re.rmatch_obj) (key : string) :
  word_alternatives p = Some ws -> forallb no_upper ws = true ->
  Re.search Re.IGNORECASE p (Str.lower name) = Some m ->
  Re.group m 1 = Some key ->
  In key (map Str.of_chars ws).
Proof.
  intros Hws Hlow Hsearch Hkey. unfold Re.search, Re.search_from, Re.start_of in Hsearch.
  cbn [Re.pos Re.before Re.ahead] in Hsearch.
  destruct (search_at_suffix _ _ _ _ _ _ Hsearch) as (cu & pre & Hm & Hl).
  destruct (word_pattern_group _ _ _ _ _ Hws Hm) as (w & t & rest & Hin & Ht & Hall & Hg).
  assert (Hlower : Forall (fun c => Str.is_upper c = false) t).
  { assert (Hallc : Forall (fun c => Str.is_upper c = false) (Str.chars (Str.lower name))).
    { unfold Str.lower. rewrite chars_of_chars. apply List.Forall_forall. intros c Hc.
      apply in_map_iff in Hc. destruct Hc as (c' & <- & _). apply lower_char_not_upper. }
    rewrite Hl, Ht in Hallc. apply List.Forall_app in Hallc. destruct Hallc as [_ Hallc].
    apply List.Forall_app in Hallc. exact (proj1 Hallc). }
  assert (Hwt : w = t).
  { apply ignorecase_lower_eq; [| exact Hlower | exact Hall].
    exact (proj1 (forallb_forall _ _) Hlow w Hin). }
  subst t. rewrite Hg in Hkey. injection Hkey as <-.
  apply in_map. exact Hin.
Qed.

Lemma dict_set_polarized (key : string) (d : Validation.intent) :
  polarized d -> polarized (Validation.dict_set key (polarity key) d).
Proof.
  intros Hd. induction d as [|[k v] d IH]; cbn [Validation.dict_set].
  - intros k' v' [[= <- <-] | []]. reflexivity.
  - assert (Hd' : polarized d) by (intros k' v' Hin; apply Hd; right; exact Hin).
    destruct (String.eqb k key) eqn:E.
    + apply String.eqb_eq in E. subst k.
      intros k' v' [[= <- <-] | Hin]; [reflexivity | apply Hd'; exact Hin].
    + intros k' v' [[= <- <-] | Hin]; [apply Hd; left; reflexivity | apply (IH Hd'); exact Hin].
Qed.

Lemma dict_get_In (key : string) (d : Validation.intent) (v : bool) :
  Validation.dict_get key d = Some v -> In (key, v) d.
Proof.
  induction d as [|[k v'] d IH]; cbn [Validation.dict_get]; [discriminate |].
  destruct (String.eqb k key) eqn:E.
  - apply String.eqb_eq in E. subst k. intros [= ->]. left. reflexivity.
  - intros H. right. apply IH. exact H.
Qed.

Lemma fold_left_invariant {A B : Type} (P : A -> Prop) (f : A -> B -> A) (l : list B) (a : A) :
  (forall x a, In x l -> P a -> P (f a x)) -> P a -> P (fold_left f l a).
Proof.
  revert a. induction l as [|x l IH]; intros a Hf Ha; [exact Ha |].
  cbn [fold_left]. apply IH.
  - intros y b Hy Hb. apply Hf; [right; exact Hy | exact Hb].
  - apply Hf; [left; reflexivity | exact Ha].
Qed.

Lemma compute_intent_polarized (name : string) : polarized (Validation.compute_intent name).
Proof.
  pose proof oppositions_checked_true as Hchk. unfold oppositions_checked in Hchk.
  apply andb_true_iff in Hchk. destruct Hchk as [Hopp Hassert].
  unfold Validation.compute_intent.
  apply fold_left_invariant.
  - intros [key pat] d Hin Hd. cbn [fst snd].
    destruct (Re.search Re.no_flags _ _); [| exact Hd].
    replace true with (polarity key); [apply dict_set_polarized; exact Hd |].
    exact (proj1 (forallb_forall _ _) Hassert (key, pat) Hin).
  - apply fold_left_invariant; [| intros k v []].
    intros [pp np] d Hin Hd. cbn [fst snd].
    pose proof (proj1 (forallb_forall _ _) Hopp (pp, np) Hin) as Hpn. cbn [fst snd] in Hpn.
    destruct (word_alternatives pp) as [pw |] eqn:Epw; [| discriminate].
    destruct (word_alternatives np) as [nw |] eqn:Enw; [| discriminate].
    apply andb_true_iff in Hpn. destruct Hpn as [Hpw Hnw].
    assert (Hstep : forall (p : Re.pattern) ws value d,
              word_alternatives p = Some ws -> forallb no_upper ws = true ->
              (forall w, In w ws -> polarity (Str.of_chars w) = value) ->
              polarized d ->
              polarized (Validation.record_match p value (Str.lower name) d)).
    { intros p ws value d0 Hws Hlow Hpol Hd0. unfold Validation.record_match.
      destruct (Re.search Re.IGNORECASE p (Str.lower name)) as [m |] eqn:Es; [| exact Hd0].
      destruct (Re.group m 1) as [key |] eqn:Eg; [| exact Hd0].
      pose proof (word_pattern_key p ws name m key Hws Hlow Es Eg) as Hkey.
      apply in_map_iff in Hkey. destruct Hkey as (w & <- & Hw).
      rewrite <- (Hpol w Hw). apply dict_set_polarized. exact Hd0. }
    apply (Hstep np nw false); [exact Enw | exact Hnw | |].
    + intros w Hw. unfold polarity. apply negb_false_iff. apply mem_In.
      unfold negative_words. apply in_flat_map. exists (pp, np). split; [exact Hin |].
      cbn [snd]. unfold words_of. rewrite Enw. apply in_map. exact Hw.
    + apply (Hstep pp pw true); [exact Epw | | | exact Hd].
      * apply forallb_forall. intros w Hw.
        pose proof (proj1 (forallb_forall _ _) Hpw w Hw) as H.
        apply andb_true_iff in H. exact (proj1 H).
      * intros w Hw. pose proof (proj1 (forallb_forall _ _) Hpw w Hw) as H.
        apply andb_true_iff in H. exact (proj2 H).
Qed.

Lemma opposing_keys_empty (test1 test2 : string) :
  Validation.opposing_keys (Validation.compute_intent test1) (Validation.compute_intent test2) = [].
Proof.
  pose proof (compute_intent_polarized test1) as H1.
  pose proof (compute_intent_polarized test2) as H2.
  unfold Validation.opposing_keys.
  induction (Validation.compute_intent test1) as [|[k v] d IH]; [reflexivity |].
  cbn [flat_map fst snd].
  rewrite IH by (intros k' v' Hin; apply H1; right; exact Hin).
  destruct (Validation.dict_get k (Validation.compute_intent test2)) as [v2 |] eqn:E;
    [| reflexivity].
  apply dict_get_In, H2 in E. rewrite (H1 k v (or_introl eq_refl)), E.
  rewrite Bool.eqb_reflx. reflexivity.
Qed.

(** X22. The check for direct oppositions can never succeed: the patterns
    store [True] under the words of the positive patterns and [False]
    under the (different) words of the negative ones, so a key two tests
    share always has the same value in both.  For all names, no key is
    opposing, and when [tests_have_opposing_intents] answers [True] its
    reason is one of the two assertion conflicts or the boundary-value
    rule, never "Opposing intents on ...". *)
Theorem direct_opposition_never_reported (self : Validation.SemanticValidator)
    (test1 test2 : string) :
  cache_coherent self ->
  Validation.opposing_keys (Validation.compute_intent test1)
    (Validation.compute_intent test2) = [] /\
  forall reason,
    fst (Validation.tests_have_opposing_intents self test1 test2) = (true, reason) ->
    reason = "Exception test vs success test" \/
    reason = "Error assertion vs success assertion" \/
    reason = "Different boundary value tests".
Proof.
  intros Hc. split; [apply opposing_keys_empty |].
  intros reason. unfold Validation.tests_have_opposing_intents.
  destruct (extract_test_intent_coherent self test1 Hc) as (Hi1 & Hc1 & _).
  destruct (Validation.extract_test_intent self test1) as [i1 s1]. cbn [fst snd] in Hi1, Hc1.
  destruct (extract_test_intent_coherent s1 test2 Hc1) as (Hi2 & _).
  destruct (Validation.extract_test_intent s1 test2) as [i2 s2]. cbn [fst snd] in Hi2.
  subst i1 i2. rewrite opposing_keys_empty. cbn [fst].
  repeat match goal with
         | |- context [if ?c then _ else _] => destruct c
         end; intros [= <-]; auto.
Qed.

Lemma direct_opposition_never_reported_witness :
  Validation.opposing_keys (Validation.compute_intent "test login success")
    (Validation.compute_intent "test login failure") = [].
Proof.
  refine (proj1 (direct_opposition_never_reported (Validation.init None)
                   "test login success" "test login failure" _)).
  intros n d Hd. cbn in Hd. rewrite lookup_empty in Hd. discriminate.
Defined.
